(** * Angular-to-reciprocal-space conversion (src/qconversion.c)

    A shallow embedding of the five functions of [qconversion.c]:
    [determine_axes_directions], [determine_detector_pixel] and the three
    entry points [ang2q_conversion], [ang2q_conversion_linear] and
    [ang2q_conversion_area].

    Conventions of the embedding.
    - A C [int] is a [Z].  Signed overflow is undefined in C, so the model
      describes the executions in which no [int] expression overflows.
    - A C [double] is an element of a type [D] that carries the arithmetic
      which [qconversion.c] itself performs ([DoubleOps]).  The functions and
      the constant that come from the headers [vecmat3.h] and [rot_matrix.h]
      are not part of the translated file: they are the methods of the
      interfaces [VecMat3] and [RotMatrix].  Theorems that only depend on the
      control and data flow of [qconversion.c] are proved for every
      implementation of these interfaces; theorems about numeric values are
      proved for the real-number implementation of module [RealModel].
    - A [double *] that points into a caller's array is a [buffer], the map
      from element offsets to values; a [double x[3]] is a [vec], a
      [double m[9]] a [mat] (row-major).  The caller's buffers are assumed not
      to overlap each other.
    - A [char *] is a [string]; reading the position just past its last
      character yields the terminating NUL.
    - The [#pragma omp parallel for] loops are run in ascending index order;
      each iteration uses its private scratch arrays, as the pragma states. *)

From Stdlib Require Import ZArith List Bool Ascii String Lia.
From Stdlib Require Import Reals Lra.
Import ListNotations.

Local Open Scope Z_scope.

(** ** Vectors, matrices, buffers *)

Record vec (D : Type) : Type := Vec { v0 : D; v1 : D; v2 : D }.
Arguments Vec {D} _ _ _.
Arguments v0 {D} _.
Arguments v1 {D} _.
Arguments v2 {D} _.

Record mat (D : Type) : Type := Mat {
  m0 : D; m1 : D; m2 : D;
  m3 : D; m4 : D; m5 : D;
  m6 : D; m7 : D; m8 : D }.
Arguments Mat {D} _ _ _ _ _ _ _ _ _.
Arguments m0 {D} _.
Arguments m1 {D} _.
Arguments m2 {D} _.
Arguments m3 {D} _.
Arguments m4 {D} _.
Arguments m5 {D} _.
Arguments m6 {D} _.
Arguments m7 {D} _.
Arguments m8 {D} _.

Definition buffer (D : Type) : Type := Z -> D.

(** [v[k]] for [k] in 0..2. *)
Definition vget {D} (v : vec D) (k : Z) : D :=
  if k =? 0 then v0 v else if k =? 1 then v1 v else v2 v.

(** [v[k] = x] for [k] in 0..2. *)
Definition vset {D} (v : vec D) (k : Z) (x : D) : vec D :=
  if k =? 0 then Vec x (v1 v) (v2 v)
  else if k =? 1 then Vec (v0 v) x (v2 v)
  else Vec (v0 v) (v1 v) x.

(** [for (k = 0; k < 3; ++k) v[k] = f k;] *)
Definition vec_init {D} (f : Z -> D) : vec D := Vec (f 0) (f 1) (f 2).

(** The three doubles at [&b[off]]. *)
Definition read3 {D} (b : buffer D) (off : Z) : vec D :=
  Vec (b off) (b (off + 1)) (b (off + 2)).

(** Storing a 3-vector at [&b[off]]: what [matvec (m, v, &b[off])] does to
    the buffer [b] once the product is known. *)
Definition store3 {D} (b : buffer D) (off : Z) (v : vec D) : buffer D :=
  fun k =>
    if k =? off then v0 v
    else if k =? off + 1 then v1 v
    else if k =? off + 2 then v2 v
    else b k.

(** ** Interfaces of the missing headers *)

(** The arithmetic on [double] that [qconversion.c] performs itself. *)
Class DoubleOps (D : Type) : Type := {
  dzero : D;                 (* the literal [0.] *)
  dopp : D -> D;             (* unary minus *)
  dadd : D -> D -> D;
  dsub : D -> D -> D;
  dmul : D -> D -> D;
  ddiv : D -> D -> D;
  dofint : Z -> D            (* conversion of an [int] operand *)
}.

Declare Scope double_scope.
Delimit Scope double_scope with D.
Notation "- x" := (dopp x) : double_scope.
Notation "x + y" := (dadd x y) : double_scope.
Notation "x - y" := (dsub x y) : double_scope.
Notation "x * y" := (dmul x y) : double_scope.
Notation "x / y" := (ddiv x y) : double_scope.

(** [vecmat3.h]: every function updates its destination array only; the
    method gives the new content of the destination.  The destination is the
    first argument, except for [inversemat (m, i)] (second) and
    [matvec (m, v, r)] (third). *)
Class VecMat3 (D : Type) : Type := {
  M_2PI : D;
  ident : mat D;                              (* ident (m) *)
  matmul : mat D -> mat D -> mat D;           (* matmul (m1, m2) *)
  inversemat : mat D -> mat D;                (* inversemat (m, i) *)
  diffmat : mat D -> mat D -> mat D;          (* diffmat (m1, m2) *)
  matvec : mat D -> vec D -> vec D;           (* matvec (m, v, r) *)
  normalize : vec D -> vec D;                 (* normalize (v) *)
  vecmul : vec D -> D -> vec D;               (* vecmul (v, a) *)
  veccopy : vec D -> vec D;                   (* veccopy (v1, v2) *)
  sumvec : vec D -> vec D -> vec D;           (* sumvec (v1, v2) *)
  diffvec : vec D -> vec D -> vec D           (* diffvec (v1, v2) *)
}.

(** [rot_matrix.h]: [rotation_ab (angle, m)] fills [m]. *)
Class RotMatrix (D : Type) : Type := {
  rotation_xp : D -> mat D;
  rotation_xm : D -> mat D;
  rotation_yp : D -> mat D;
  rotation_ym : D -> mat D;
  rotation_zp : D -> mat D;
  rotation_zm : D -> mat D
}.

(** ** Characters and strings *)

Local Open Scope char_scope.

(** [tolower] of <ctype.h> in the C locale: the letters 'A'..'Z' are mapped
    to 'a'..'z', every other character is returned unchanged. *)
Definition tolower (c : ascii) : ascii :=
  let n := N_of_ascii c in
  if (65 <=? n)%N && (n <=? 90)%N then ascii_of_N (n + 32) else c.

(** [s[k]]; the position after the last character holds NUL. *)
Definition char_at (s : string) (k : Z) : ascii :=
  match String.get (Z.to_nat k) s with
  | Some c => c
  | None => Ascii.zero
  end.

(** [e != 0] *)
Definition nonzero (e : Z) : bool := negb (Z.eqb e 0).

(** ** Loops *)

(** The indices [lo, lo+1, ..., lo+n-1]. *)
Fixpoint zrange (lo : Z) (n : nat) : list Z :=
  match n with
  | O => []
  | S n' => lo :: zrange (lo + 1) n'
  end.

(** [for (j = lo; j < hi; ++j) s = body j s;] *)
Definition for_range {S : Type} (lo hi : Z) (body : Z -> S -> S) (s : S) : S :=
  fold_left (fun s j => body j s) (zrange lo (Z.to_nat (hi - lo))) s.

(** ** The translated functions *)

Section QConversion.

Context {D : Type} {ops : DoubleOps D} {vm : VecMat3 D} {rm : RotMatrix D}.

(** The type [fp_rot] of [rot_matrix.h]: a pointer to a function that takes
    an angle and fills a matrix. *)
Definition fp_rot : Type := D -> mat D.

(** One pass through the body of the loop of [determine_axes_directions]:
    either the function pointer stored in [fp_circles[i]], or the value
    returned from inside the [switch]. *)
Definition axis_switch (stringAxis : string) (i : Z) : fp_rot + Z :=
  let c := tolower (char_at stringAxis (2 * i)) in
  let s := char_at stringAxis (2 * i + 1) in
  if Ascii.eqb c "x" then
    if Ascii.eqb s "+" then inl rotation_xp
    else if Ascii.eqb s "-" then inl rotation_xm
    else inr 1
  else if Ascii.eqb c "y" then
    if Ascii.eqb s "+" then inl rotation_yp
    else if Ascii.eqb s "-" then inl rotation_ym
    else inr 1
  else if Ascii.eqb c "z" then
    if Ascii.eqb s "+" then inl rotation_zp
    else if Ascii.eqb s "-" then inl rotation_zm
    else inr 1
  else inr 2.

(** The loop [for (i = 0; i < n; ++i)] with [todo] iterations left;
    [fp_circles] lists the entries 0..i-1 assigned so far. *)
Fixpoint axes_loop (stringAxis : string) (todo : nat) (i : Z)
    (fp_circles : list fp_rot) : Z * list fp_rot :=
  match todo with
  | O => (0, fp_circles)
  | S todo' =>
      match axis_switch stringAxis i with
      | inl f => axes_loop stringAxis todo' (i + 1) (fp_circles ++ [f])
      | inr e => (e, fp_circles)
      end
  end.

(** [int determine_axes_directions (fp_rot *fp_circles, char *stringAxis, int n)]:
    the returned value and the entries of [fp_circles] assigned by the call,
    in index order. *)
Definition determine_axes_directions (stringAxis : string) (n : Z)
    : Z * list fp_rot :=
  axes_loop stringAxis (Z.to_nat n) 0 [].

(** [int determine_detector_pixel (double *rpixel, char *dir, double dpixel)]:
    the returned value and the content of [rpixel] after the call. *)
Definition determine_detector_pixel (dir : string) (dpixel : D) : Z * vec D :=
  let rpixel := vec_init (fun _ => dzero) in
  let c := tolower (char_at dir 0) in
  let s := char_at dir 1 in
  if Ascii.eqb c "x" then
    if Ascii.eqb s "+" then (0, vset rpixel 0 dpixel)
    else if Ascii.eqb s "-" then (0, vset rpixel 0 (- dpixel)%D)
    else (1, rpixel)
  else if Ascii.eqb c "y" then
    if Ascii.eqb s "+" then (0, vset rpixel 1 dpixel)
    else if Ascii.eqb s "-" then (0, vset rpixel 1 (- dpixel)%D)
    else (1, rpixel)
  else if Ascii.eqb c "z" then
    if Ascii.eqb s "+" then (0, vset rpixel 2 dpixel)
    else if Ascii.eqb s "-" then (0, vset rpixel 2 (- dpixel)%D)
    else (1, rpixel)
  else (2, rpixel).

(** The outcome of a call of an entry point: the returned status and the
    content, after the call, of the two caller's arrays that the function
    can reach for writing: [qpos] and the beam array ([ri] for the point
    detector, [rcch] for the linear and the area detector). *)
Record call_result : Type := CallResult {
  ret : Z;
  qpos_after : buffer D;
  beam_after : vec D
}.

(** [rots[j] (a, m)]: the content of [m] after calling the [j]-th function
    pointer.  After a successful resolution of [n] circles the entries
    0..n-1 are assigned, so the default is never reached. *)
Definition call_rot (rots : list fp_rot) (j : Z) (a : D) : mat D :=
  nth (Z.to_nat j) rots (fun _ => ident) a.

(** [int ang2q_conversion (double *sampleAngles, double *detectorAngles,
    double *qpos, double *ri, int Ns, int Nd, int Npoints, char *sampleAxis,
    char *detectorAxis, double lambda)] *)
Definition ang2q_conversion (sampleAngles detectorAngles qpos : buffer D)
    (ri : vec D) (Ns Nd Npoints : Z) (sampleAxis detectorAxis : string)
    (lambda : D) : call_result :=
  let (e, sampleRotation) := determine_axes_directions sampleAxis Ns in
  if nonzero e then CallResult 1 qpos ri else
  let (e, detectorRotation) := determine_axes_directions detectorAxis Nd in
  if nonzero e then CallResult 1 qpos ri else
  (* give ri correct length *)
  let ri := normalize ri in
  let ri := vecmul ri (M_2PI / lambda)%D in
  let qpos :=
    for_range 0 Npoints (fun i qpos =>
      (* determine sample rotations *)
      let mtemp := ident in
      let mtemp :=
        for_range 0 Ns (fun j mtemp =>
          let mtemp2 := call_rot sampleRotation j (sampleAngles (Ns * i + j)) in
          matmul mtemp mtemp2) mtemp in
      let ms := inversemat mtemp in
      (* determine detector rotations *)
      let md := ident in
      let md :=
        for_range 0 Nd (fun j md =>
          let mtemp := call_rot detectorRotation j (detectorAngles (Nd * i + j)) in
          matmul md mtemp) md in
      let mtemp := ident in
      let md := diffmat md mtemp in
      let ms := matmul ms md in
      (* calculate the momentum transfer *)
      store3 qpos (3 * i) (matvec ms ri)) qpos in
  CallResult 0 qpos ri.

(** [int ang2q_conversion_linear (double *sampleAngles,
    double *detectorAngles, double *qpos, double *rcch, int Ns, int Nd,
    int Npoints, char *sampleAxis, char *detectorAxis, double cch,
    double dpixel, int *roi, char *dir, double lambda)] *)
Definition ang2q_conversion_linear (sampleAngles detectorAngles qpos : buffer D)
    (rcch : vec D) (Ns Nd Npoints : Z) (sampleAxis detectorAxis : string)
    (cch dpixel : D) (roi : Z -> Z) (dir : string) (lambda : D)
    : call_result :=
  let f := (M_2PI / lambda)%D in
  let Nch := roi 1 - roi 0 in
  let (e, sampleRotation) := determine_axes_directions sampleAxis Ns in
  if nonzero e then CallResult 1 qpos rcch else
  let (e, detectorRotation) := determine_axes_directions detectorAxis Nd in
  if nonzero e then CallResult 1 qpos rcch else
  (* determine detector pixel vector *)
  let (e, rpixel) := determine_detector_pixel dir dpixel in
  if nonzero e then CallResult 1 qpos rcch else
  let rcchp := vec_init (fun k => (vget rpixel k * cch)%D) in
  let r_i := veccopy rcch in
  let r_i := normalize r_i in
  let qpos :=
    for_range 0 Npoints (fun i qpos =>
      (* determine sample rotations *)
      let mtemp := ident in
      let mtemp :=
        for_range 0 Ns (fun j mtemp =>
          let mtemp2 := call_rot sampleRotation j (sampleAngles (Ns * i + j)) in
          matmul mtemp mtemp2) mtemp in
      let ms := inversemat mtemp in
      (* determine detector rotations *)
      let md := ident in
      let md :=
        for_range 0 Nd (fun j md =>
          let mtemp := call_rot detectorRotation j (detectorAngles (Nd * i + j)) in
          matmul md mtemp) md in
      (* calculate the momentum transfer for each detector pixel *)
      for_range (roi 0) (roi 1) (fun j qpos =>
        let rd := vec_init (fun k => (dofint j * vget rpixel k - vget rcchp k)%D) in
        let rd := sumvec rd rcch in
        let rd := normalize rd in
        let rtemp := matvec md rd in
        let rtemp := diffvec rtemp r_i in
        let rtemp := vecmul rtemp f in
        store3 qpos (3 * (i * Nch + j - roi 0)) (matvec ms rtemp)) qpos) qpos in
  CallResult 0 qpos rcch.

(** [int ang2q_conversion_area (double *sampleAngles, double *detectorAngles,
    double *qpos, double *rcch, int Ns, int Nd, int Npoints,
    char *sampleAxis, char *detectorAxis, double cch1, double cch2,
    double dpixel1, double dpixel2, int *roi, char *dir1, char *dir2,
    double lambda)] *)
Definition ang2q_conversion_area (sampleAngles detectorAngles qpos : buffer D)
    (rcch : vec D) (Ns Nd Npoints : Z) (sampleAxis detectorAxis : string)
    (cch1 cch2 dpixel1 dpixel2 : D) (roi : Z -> Z) (dir1 dir2 : string)
    (lambda : D) : call_result :=
  let f := (M_2PI / lambda)%D in
  let (e, sampleRotation) := determine_axes_directions sampleAxis Ns in
  if nonzero e then CallResult 1 qpos rcch else
  let (e, detectorRotation) := determine_axes_directions detectorAxis Nd in
  if nonzero e then CallResult 1 qpos rcch else
  (* determine detector pixel vector *)
  let (e, rpixel1) := determine_detector_pixel dir1 dpixel1 in
  if nonzero e then CallResult 1 qpos rcch else
  let (e, rpixel2) := determine_detector_pixel dir2 dpixel2 in
  if nonzero e then CallResult 1 qpos rcch else
  let rcchp :=
    vec_init (fun k => (vget rpixel1 k * cch1 + vget rpixel2 k * cch2)%D) in
  let r_i := veccopy rcch in
  let r_i := normalize r_i in
  (* calculate some index shortcuts *)
  let idxh1 := (roi 1 - roi 0) * (roi 3 - roi 2) in
  let idxh2 := roi 1 - roi 0 in
  let qpos :=
    for_range 0 Npoints (fun i qpos =>
      (* determine sample rotations *)
      let mtemp := ident in
      let mtemp :=
        for_range 0 Ns (fun j mtemp =>
          let mtemp2 := call_rot sampleRotation j (sampleAngles (Ns * i + j)) in
          matmul mtemp mtemp2) mtemp in
      let ms := inversemat mtemp in
      (* determine detector rotations *)
      let md := ident in
      let md :=
        for_range 0 Nd (fun j md =>
          let mtemp := call_rot detectorRotation j (detectorAngles (Nd * i + j)) in
          matmul md mtemp) md in
      (* calculate the momentum transfer for each detector pixel *)
      for_range (roi 0) (roi 1) (fun j1 qpos =>
        for_range (roi 2) (roi 3) (fun j2 qpos =>
          let rd :=
            vec_init (fun k =>
              (dofint j1 * vget rpixel1 k + dofint j2 * vget rpixel2 k
               - vget rcchp k)%D) in
          let rd := sumvec rd rcch in
          let rd := normalize rd in
          let rtemp := matvec md rd in
          let rtemp := diffvec rtemp r_i in
          let rtemp := vecmul rtemp f in
          store3 qpos (3 * (i * idxh1 + idxh2 * (j2 - roi 2) + (j1 - roi 0)))
                 (matvec ms rtemp)) qpos) qpos) qpos in
  CallResult 0 qpos rcch.

(** ** Specification side

    The vocabulary of the specification, written independently of the
    translated functions; the theorems below compare the two. *)

(** A circle or a detector direction: an axis and a sense. *)
Inductive axis : Type := AxisX | AxisY | AxisZ.
Inductive sense : Type := Positive | Negative.
Definition CircleSpec : Type := (axis * sense)%type.

(** Accepted letters: x, y, z, in either case. *)
Definition parse_letter (c : ascii) : option axis :=
  if Ascii.eqb c "x" || Ascii.eqb c "X" then Some AxisX
  else if Ascii.eqb c "y" || Ascii.eqb c "Y" then Some AxisY
  else if Ascii.eqb c "z" || Ascii.eqb c "Z" then Some AxisZ
  else None.

(** Accepted sign characters: '+' and '-'. *)
Definition parse_sign (c : ascii) : option sense :=
  if Ascii.eqb c "+" then Some Positive
  else if Ascii.eqb c "-" then Some Negative
  else None.

(** The [i]-th pair of an axis-spec string; [None] when it is malformed. *)
Definition parse_pair (s : string) (i : Z) : option CircleSpec :=
  match parse_letter (char_at s (2 * i)), parse_sign (char_at s (2 * i + 1)) with
  | Some a, Some g => Some (a, g)
  | _, _ => None
  end.

Fixpoint parse_pairs (s : string) (l : list Z) : option (list CircleSpec) :=
  match l with
  | [] => Some []
  | i :: l' =>
      match parse_pair s i, parse_pairs s l' with
      | Some c, Some cs => Some (c :: cs)
      | _, _ => None
      end
  end.

(** The circles named by the first [n] pairs of [s], when all of them are
    well formed. *)
Definition parse_axes (s : string) (n : Z) : option (list CircleSpec) :=
  parse_pairs s (zrange 0 (Z.to_nat n)).

(** The rotation generator of a circle. *)
Definition generator (c : CircleSpec) : fp_rot :=
  match c with
  | (AxisX, Positive) => rotation_xp
  | (AxisX, Negative) => rotation_xm
  | (AxisY, Positive) => rotation_yp
  | (AxisY, Negative) => rotation_ym
  | (AxisZ, Positive) => rotation_zp
  | (AxisZ, Negative) => rotation_zm
  end.

(** The product of the rotation matrices of the circles [cs], circle [j]
    turned by [angle j], composed in ascending circle order onto [acc]. *)
Fixpoint rotation_product (cs : list CircleSpec) (angle : Z -> D) (j : Z)
    (acc : mat D) : mat D :=
  match cs with
  | [] => acc
  | c :: cs' =>
      rotation_product cs' angle (j + 1) (matmul acc (generator c (angle j)))
  end.

(** The aggregate rotation matrix of position [i]: the angles of the position
    are the row [i] of the row-major array [angles] with [n] columns. *)
Definition compose_circles (cs : list CircleSpec) (angles : buffer D)
    (n i : Z) : mat D :=
  rotation_product cs (fun j => angles (n * i + j)) 0 ident.

(** The component of a vector along an axis. *)
Definition component (v : vec D) (a : axis) : D :=
  match a with AxisX => v0 v | AxisY => v1 v | AxisZ => v2 v end.

(** The pixel-step vector of a detector direction and a pixel pitch. *)
Definition pixel_step (c : CircleSpec) (dpixel : D) : vec D :=
  let x := match snd c with Positive => dpixel | Negative => (- dpixel)%D end in
  match fst c with
  | AxisX => Vec x dzero dzero
  | AxisY => Vec dzero x dzero
  | AxisZ => Vec dzero dzero x
  end.

(** [k_i]: the beam direction made a unit vector, then scaled by 2 pi / lambda. *)
Definition wavevector (ri : vec D) (lambda : D) : vec D :=
  vecmul (normalize ri) (M_2PI / lambda)%D.

(** Point detector: the matrix [Rs^-1 (Rd - I)] applied to [k]. *)
Definition Q_point (Rs Rd : mat D) (k : vec D) : vec D :=
  matvec (matmul (inversemat Rs) (diffmat Rd ident)) k.

(** Linear detector: [normalize (p * pixel_step - cch * pixel_step + rcch)],
    the vector under [normalize] written out component by component. *)
Definition pixel_direction (step rcch : vec D) (cch : D) (p : Z) : vec D :=
  normalize
    (sumvec (Vec (dofint p * v0 step - v0 step * cch)%D
                 (dofint p * v1 step - v1 step * cch)%D
                 (dofint p * v2 step - v2 step * cch)%D)
            rcch).

(** Area detector: the same with two pixel steps and two centre channels. *)
Definition pixel_direction_area (step1 step2 rcch : vec D) (cch1 cch2 : D)
    (p1 p2 : Z) : vec D :=
  normalize
    (sumvec
       (Vec (dofint p1 * v0 step1 + dofint p2 * v0 step2
             - (v0 step1 * cch1 + v0 step2 * cch2))%D
            (dofint p1 * v1 step1 + dofint p2 * v1 step2
             - (v1 step1 * cch1 + v1 step2 * cch2))%D
            (dofint p1 * v2 step1 + dofint p2 * v2 step2
             - (v2 step1 * cch1 + v2 step2 * cch2))%D)
       rcch).

(** The unit vector along [rcch]. *)
Definition beam_direction (rcch : vec D) : vec D := normalize (veccopy rcch).

(** Pixel detectors: [Rs^-1 ((Rd d - r) * 2 pi / lambda)]. *)
Definition Q_pixel (Rs Rd : mat D) (d r : vec D) (lambda : D) : vec D :=
  matvec (inversemat Rs)
         (vecmul (diffvec (matvec Rd d) r) (M_2PI / lambda)%D).

(** Output slot (i, p - roi_lo) of the linear detector. *)
Definition linear_slot (roi : Z -> Z) (i p : Z) : Z :=
  i * (roi 1 - roi 0) + (p - roi 0).

(** Output slot of the area detector:
    i N1 N2 + (p2 - roi2_lo) N1 + (p1 - roi1_lo). *)
Definition area_slot (roi : Z -> Z) (i p1 p2 : Z) : Z :=
  let N1 := roi 1 - roi 0 in
  let N2 := roi 3 - roi 2 in
  i * N1 * N2 + (p2 - roi 2) * N1 + (p1 - roi 0).

(** The value that a resolver returns on a malformed pair: 2 for a letter
    that is not accepted, 1 for a sign character that is not accepted after
    an accepted letter. *)
Definition switch_error (letter : ascii) : Z :=
  match parse_letter letter with Some _ => 1 | None => 2 end.

(** The status that the setup phase of an entry point decides from the
    values returned by the resolvers. *)
Definition setup_status (returned : list Z) : Z :=
  if existsb nonzero returned then 1 else 0.

End QConversion.

Arguments fp_rot D : clear implicits.
Arguments call_result D : clear implicits.

(** ** The real-number model of the missing headers *)

Module RealModel.

Local Open Scope R_scope.

(** Modelled from the spec: the arithmetic of [double], idealised as the
    arithmetic of the real numbers (no rounding, no infinities, no NaN). *)
#[export] Instance R_DoubleOps : DoubleOps R := {|
  dzero := 0;
  dopp := Ropp;
  dadd := Rplus;
  dsub := Rminus;
  dmul := Rmult;
  ddiv := Rdiv;
  dofint := IZR
|}.

(** Modelled from the spec: the 3x3 identity matrix, missing with [vecmat3.h]. *)
Definition R_ident : mat R := Mat 1 0 0 0 1 0 0 0 1.

(** Modelled from the spec: the matrix product [a b] of the linear-algebra
    primitive layer ([vecmat3.h] is missing), on row-major matrices. *)
Definition R_matmul (a b : mat R) : mat R :=
  Mat (m0 a * m0 b + m1 a * m3 b + m2 a * m6 b)
      (m0 a * m1 b + m1 a * m4 b + m2 a * m7 b)
      (m0 a * m2 b + m1 a * m5 b + m2 a * m8 b)
      (m3 a * m0 b + m4 a * m3 b + m5 a * m6 b)
      (m3 a * m1 b + m4 a * m4 b + m5 a * m7 b)
      (m3 a * m2 b + m4 a * m5 b + m5 a * m8 b)
      (m6 a * m0 b + m7 a * m3 b + m8 a * m6 b)
      (m6 a * m1 b + m7 a * m4 b + m8 a * m7 b)
      (m6 a * m2 b + m7 a * m5 b + m8 a * m8 b).

(** Modelled from the spec: the determinant used by the matrix inverse. *)
Definition R_det (m : mat R) : R :=
  m0 m * (m4 m * m8 m - m5 m * m7 m)
  - m1 m * (m3 m * m8 m - m5 m * m6 m)
  + m2 m * (m3 m * m7 m - m4 m * m6 m).

(** Modelled from the spec: the matrix inverse of the primitive layer
    ([vecmat3.h] is missing), as the adjugate divided by the determinant. *)
Definition R_inversemat (m : mat R) : mat R :=
  let d := R_det m in
  Mat ((m4 m * m8 m - m5 m * m7 m) / d)
      ((m2 m * m7 m - m1 m * m8 m) / d)
      ((m1 m * m5 m - m2 m * m4 m) / d)
      ((m5 m * m6 m - m3 m * m8 m) / d)
      ((m0 m * m8 m - m2 m * m6 m) / d)
      ((m2 m * m3 m - m0 m * m5 m) / d)
      ((m3 m * m7 m - m4 m * m6 m) / d)
      ((m1 m * m6 m - m0 m * m7 m) / d)
      ((m0 m * m4 m - m1 m * m3 m) / d).

(** The transpose, used to state that a matrix is orthogonal. *)
Definition transpose (m : mat R) : mat R :=
  Mat (m0 m) (m3 m) (m6 m) (m1 m) (m4 m) (m7 m) (m2 m) (m5 m) (m8 m).

(** Modelled from the spec: the matrix difference [a - b]. *)
Definition R_diffmat (a b : mat R) : mat R :=
  Mat (m0 a - m0 b) (m1 a - m1 b) (m2 a - m2 b)
      (m3 a - m3 b) (m4 a - m4 b) (m5 a - m5 b)
      (m6 a - m6 b) (m7 a - m7 b) (m8 a - m8 b).

(** Modelled from the spec: the matrix-vector product [m v]. *)
Definition R_matvec (m : mat R) (v : vec R) : vec R :=
  Vec (m0 m * v0 v + m1 m * v1 v + m2 m * v2 v)
      (m3 m * v0 v + m4 m * v1 v + m5 m * v2 v)
      (m6 m * v0 v + m7 m * v1 v + m8 m * v2 v).

(** Modelled from the spec: the Euclidean length of a vector. *)
Definition R_norm (v : vec R) : R :=
  sqrt (v0 v * v0 v + v1 v * v1 v + v2 v * v2 v).

(** Modelled from the spec: normalisation to unit length. *)
Definition R_normalize (v : vec R) : vec R :=
  let n := R_norm v in Vec (v0 v / n) (v1 v / n) (v2 v / n).

(** Modelled from the spec: scaling of a vector. *)
Definition R_vecmul (v : vec R) (a : R) : vec R :=
  Vec (v0 v * a) (v1 v * a) (v2 v * a).

(** Modelled from the spec: vector sum and difference. *)
Definition R_sumvec (a b : vec R) : vec R :=
  Vec (v0 a + v0 b) (v1 a + v1 b) (v2 a + v2 b).

Definition R_diffvec (a b : vec R) : vec R :=
  Vec (v0 a - v0 b) (v1 a - v1 b) (v2 a - v2 b).

(** Modelled from the spec: the primitive layer of [vecmat3.h], which is
    missing from the sources, with [M_2PI] equal to 2 pi. *)
#[export] Instance R_VecMat3 : VecMat3 R := {|
  M_2PI := 2 * PI;
  ident := R_ident;
  matmul := R_matmul;
  inversemat := R_inversemat;
  diffmat := R_diffmat;
  matvec := R_matvec;
  normalize := R_normalize;
  vecmul := R_vecmul;
  veccopy := fun v => v;
  sumvec := R_sumvec;
  diffvec := R_diffvec
|}.

(** Modelled from the spec: the six rotation generators of [rot_matrix.h],
    which is missing from the sources: the right-hand rotation about a
    principal axis by the angle (p) or by its opposite (m). *)
Definition R_rotation_x (a : R) : mat R :=
  Mat 1 0 0
      0 (cos a) (- sin a)
      0 (sin a) (cos a).

Definition R_rotation_y (a : R) : mat R :=
  Mat (cos a) 0 (sin a)
      0 1 0
      (- sin a) 0 (cos a).

Definition R_rotation_z (a : R) : mat R :=
  Mat (cos a) (- sin a) 0
      (sin a) (cos a) 0
      0 0 1.

#[export] Instance R_RotMatrix : RotMatrix R := {|
  rotation_xp := R_rotation_x;
  rotation_xm := fun a => R_rotation_x (- a);
  rotation_yp := R_rotation_y;
  rotation_ym := fun a => R_rotation_y (- a);
  rotation_zp := R_rotation_z;
  rotation_zm := fun a => R_rotation_z (- a)
|}.

(** *** Concrete inputs

    The data of the scenarios of the specification, used to run the entry
    points on explicit inputs. *)

(** All angles equal to 0. *)
Definition zero_angles : buffer R := fun _ => 0.

(** Angles that differ from one array element to the next: element [k] is
    k / 10. *)
Definition ramp_angles : buffer R := fun k => IZR k / 10.

(** An output buffer filled with the value 7 before the call. *)
Definition fresh_qpos : buffer R := fun _ => 7.

(** The beam direction (0,0,1). *)
Definition beam_z : vec R := Vec 0 0 1.

(** The wavelength for which 2 pi / lambda = 5. *)
Definition lambda5 : R := 2 * PI / 5.

(** A region of interest given by its four entries. *)
Definition roi_of (a b c d : Z) : Z -> Z :=
  fun k => if (k =? 0)%Z then a else if (k =? 1)%Z then b
           else if (k =? 2)%Z then c else d.

(** The circles x+, y- and z-. *)
Definition xp : CircleSpec := (AxisX, Positive).
Definition ym : CircleSpec := (AxisY, Negative).
Definition zm : CircleSpec := (AxisZ, Negative).

Local Open Scope string_scope.

(** Scenario 1: one sample circle x+, one detector circle x+, one position
    with both angles 0, beam direction (0,0,1), 2 pi / lambda = 5. *)
Definition scenario1 : call_result R :=
  ang2q_conversion zero_angles zero_angles fresh_qpos beam_z 1 1 1
    "x+" "x+" lambda5.

(** A point-detector call with the given axis strings, for one sample and
    one detector circle and four positions. *)
Definition point_call (sampleAxis detectorAxis : string) : call_result R :=
  ang2q_conversion ramp_angles ramp_angles fresh_qpos beam_z 1 1 4
    sampleAxis detectorAxis lambda5.

(** A linear-detector call with the given axis and direction strings and
    region of interest: centre channel 3, pixel pitch 1/10. *)
Definition linear_call (sampleAxis detectorAxis dir : string) (roi : Z -> Z)
    : call_result R :=
  ang2q_conversion_linear ramp_angles ramp_angles fresh_qpos beam_z 1 1 4
    sampleAxis detectorAxis 3 (1/10) roi dir lambda5.

(** An area-detector call with the given axis and direction strings and
    region of interest: centre channels 1 and 1, pixel pitches 1/10, 1/5. *)
Definition area_call (sampleAxis detectorAxis dir1 dir2 : string)
    (roi : Z -> Z) : call_result R :=
  ang2q_conversion_area ramp_angles ramp_angles fresh_qpos beam_z 1 1 4
    sampleAxis detectorAxis 1 1 (1/10) (1/5) roi dir1 dir2 lambda5.

End RealModel.

(** ** The layout of the output buffer *)

(** The position and the pixel whose Q vector is kept in slot [s] of the
    output of the linear detector: the inverse of [linear_slot]. *)
Definition linear_unslot (roi : Z -> Z) (s : Z) : Z * Z :=
  let Nch := roi 1 - roi 0 in
  (s / Nch, roi 0 + s mod Nch).

(** The position and the pixel pair whose Q vector is kept in slot [s] of the
    output of the area detector: the inverse of [area_slot]. *)
Definition area_unslot (roi : Z -> Z) (s : Z) : Z * Z * Z :=
  let N1 := roi 1 - roi 0 in
  let N2 := roi 3 - roi 2 in
  (s / (N1 * N2), roi 0 + s mod N1, roi 2 + (s / N1) mod N2).

(** The number of elements of [qpos] that belong to the output of a call
    for [Npoints] positions with [Npix] pixels each. *)
Definition output_size (Npoints Npix : Z) : Z :=
  3 * (Z.max 0 Npoints * Z.max 0 Npix).

(** [0 <= k < n] as a test. *)
Definition in_region (k n : Z) : bool := Z.leb 0 k && Z.ltb k n.

(** ** Standard output

    The functions print diagnostic lines with [printf].  The definitions
    below follow the translated functions and add what they print: each
    element of the list is one line, without the newline that ends it. *)

Section StandardOutput.

Context {D : Type} {ops : DoubleOps D} {vm : VecMat3 D} {rm : RotMatrix D}.

Local Open Scope string_scope.

(** The body of the loop of [determine_axes_directions], with the line that
    the [default] branches print. *)
Definition axis_switch_io (stringAxis : string) (i : Z)
    : (fp_rot D + Z) * list string :=
  let c := tolower (char_at stringAxis (2 * i)) in
  let s := char_at stringAxis (2 * i + 1) in
  if Ascii.eqb c "x" then
    if Ascii.eqb s "+" then (inl rotation_xp, [])
    else if Ascii.eqb s "-" then (inl rotation_xm, [])
    else (inr 1%Z, ["axis determination: no valid rotation sense found"])
  else if Ascii.eqb c "y" then
    if Ascii.eqb s "+" then (inl rotation_yp, [])
    else if Ascii.eqb s "-" then (inl rotation_ym, [])
    else (inr 1%Z, ["axis determination: no valid rotation sense found"])
  else if Ascii.eqb c "z" then
    if Ascii.eqb s "+" then (inl rotation_zp, [])
    else if Ascii.eqb s "-" then (inl rotation_zm, [])
    else (inr 1%Z, ["axis determination: no valid rotation sense found"])
  else (inr 2%Z, ["axis determination: no valid axis direction found!"]).

Fixpoint axes_loop_io (stringAxis : string) (todo : nat) (i : Z)
    (fp_circles : list (fp_rot D)) : (Z * list (fp_rot D)) * list string :=
  match todo with
  | O => ((0%Z, fp_circles), [])
  | S todo' =>
      match axis_switch_io stringAxis i with
      | (inl f, _) => axes_loop_io stringAxis todo' (i + 1) (fp_circles ++ [f])
      | (inr e, out) => ((e, fp_circles), out)
      end
  end.

(** [determine_axes_directions] with its standard output. *)
Definition determine_axes_directions_io (stringAxis : string) (n : Z)
    : (Z * list (fp_rot D)) * list string :=
  axes_loop_io stringAxis (Z.to_nat n) 0 [].

(** [determine_detector_pixel] with its standard output. *)
Definition determine_detector_pixel_io (dir : string) (dpixel : D)
    : (Z * vec D) * list string :=
  let rpixel := vec_init (fun _ => dzero) in
  let c := tolower (char_at dir 0) in
  let s := char_at dir 1 in
  if Ascii.eqb c "x" then
    if Ascii.eqb s "+" then ((0%Z, vset rpixel 0 dpixel), [])
    else if Ascii.eqb s "-" then ((0%Z, vset rpixel 0 (- dpixel)%D), [])
    else ((1%Z, rpixel),
          ["detector determination: no valid direction sign given"])
  else if Ascii.eqb c "y" then
    if Ascii.eqb s "+" then ((0%Z, vset rpixel 1 dpixel), [])
    else if Ascii.eqb s "-" then ((0%Z, vset rpixel 1 (- dpixel)%D), [])
    else ((1%Z, rpixel),
          ["detector determination: no valid direction sign given"])
  else if Ascii.eqb c "z" then
    if Ascii.eqb s "+" then ((0%Z, vset rpixel 2 dpixel), [])
    else if Ascii.eqb s "-" then ((0%Z, vset rpixel 2 (- dpixel)%D), [])
    else ((1%Z, rpixel),
          ["detector determination: no valid direction sign given"])
  else ((2%Z, rpixel),
        ["detector determination: no valid detector direction given"]).

(** The standard output of a call of [ang2q_conversion]: the entry points
    print in their setup phase only. *)
Definition ang2q_conversion_stdout (Ns Nd : Z)
    (sampleAxis detectorAxis : string) : list string :=
  let (r, out1) := determine_axes_directions_io sampleAxis Ns in
  if nonzero (fst r) then out1 ++ ["sample axes determination failed"] else
  let (r, out2) := determine_axes_directions_io detectorAxis Nd in
  if nonzero (fst r)
  then out1 ++ out2 ++ ["detector axes determination failed"]
  else out1 ++ out2.

(** The standard output of a call of [ang2q_conversion_linear]. *)
Definition ang2q_conversion_linear_stdout (Ns Nd : Z)
    (sampleAxis detectorAxis : string) (dpixel : D) (dir : string)
    : list string :=
  let (r, out1) := determine_axes_directions_io sampleAxis Ns in
  if nonzero (fst r) then out1 ++ ["sample axes determination failed"] else
  let (r, out2) := determine_axes_directions_io detectorAxis Nd in
  if nonzero (fst r)
  then out1 ++ out2 ++ ["detector axes determination failed"] else
  let (r, out3) := determine_detector_pixel_io dir dpixel in
  if nonzero (fst r)
  then out1 ++ out2 ++ out3 ++ ["detector direction determination failed"]
  else out1 ++ out2 ++ out3.

(** The standard output of a call of [ang2q_conversion_area]. *)
Definition ang2q_conversion_area_stdout (Ns Nd : Z)
    (sampleAxis detectorAxis : string) (dpixel1 dpixel2 : D)
    (dir1 dir2 : string) : list string :=
  let (r, out1) := determine_axes_directions_io sampleAxis Ns in
  if nonzero (fst r) then out1 ++ ["sample axes determination failed"] else
  let (r, out2) := determine_axes_directions_io detectorAxis Nd in
  if nonzero (fst r)
  then out1 ++ out2 ++ ["detector axes determination failed"] else
  let (r, out3) := determine_detector_pixel_io dir1 dpixel1 in
  if nonzero (fst r)
  then out1 ++ out2 ++ out3 ++ ["detector direction determination failed"]
  else
  let (r, out4) := determine_detector_pixel_io dir2 dpixel2 in
  if nonzero (fst r)
  then out1 ++ out2 ++ out3 ++ out4
       ++ ["detector direction determination failed"]
  else out1 ++ out2 ++ out3 ++ out4.

(** The line that goes with a value returned by [determine_axes_directions]
    and by [determine_detector_pixel]: none for 0. *)
Definition axes_message (e : Z) : list string :=
  if Z.eqb e 0 then []
  else if Z.eqb e 1
  then ["axis determination: no valid rotation sense found"]
  else ["axis determination: no valid axis direction found!"].

Definition pixel_message (e : Z) : list string :=
  if Z.eqb e 0 then []
  else if Z.eqb e 1
  then ["detector determination: no valid direction sign given"]
  else ["detector determination: no valid detector direction given"].

End StandardOutput.

(** ** Further concrete inputs *)

Module MoreInputs.

Import RealModel.

Local Open Scope R_scope.

(** Angles that agree with [ramp_angles] on element 2 and are 0 elsewhere. *)
Definition row2_angles : buffer R :=
  fun k => if Z.eqb k 2%Z then ramp_angles 2%Z else 0.

(** An output buffer filled with the value 9 before the call. *)
Definition other_qpos : buffer R := fun _ => 9.

End MoreInputs.

(** * Properties *)

Local Close Scope char_scope.

(** ** Loops and stores *)

Lemma in_zrange (n : nat) : forall lo i,
  In i (zrange lo n) <-> lo <= i < lo + Z.of_nat n.
Proof.
  induction n as [|n IH]; intros lo i; cbn [zrange In].
  - lia.
  - rewrite IH. lia.
Qed.

Lemma length_zrange (n : nat) : forall lo, List.length (zrange lo n) = n.
Proof.
  induction n as [|n IH]; intros lo; cbn [zrange List.length]; [|rewrite IH]; reflexivity.
Qed.

Lemma for_range_empty {S : Type} (lo hi : Z) (body : Z -> S -> S) (s : S) :
  hi <= lo -> for_range lo hi body s = s.
Proof.
  intros Hle. unfold for_range.
  replace (Z.to_nat (hi - lo)) with O by lia. reflexivity.
Qed.

(** A loop whose body leaves the state alone leaves the state alone. *)
Lemma for_range_skip {S : Type} (lo hi : Z) (body : Z -> S -> S) (s : S) :
  (forall j t, body j t = t) -> for_range lo hi body s = s.
Proof.
  intros Hbody. unfold for_range.
  generalize (zrange lo (Z.to_nat (hi - lo))) as l.
  induction l as [|j l IH]; cbn [fold_left]; [reflexivity|].
  rewrite Hbody. exact IH.
Qed.

(** Two nested loops run through the pairs of indices, the outer index
    varying slowest. *)
Lemma nested_fold {S A B : Type} (body : A -> B -> S -> S) (l2 : list B) :
  forall (l1 : list A) (s : S),
  fold_left (fun s i => fold_left (fun s j => body i j s) l2 s) l1 s
  = fold_left (fun s p => body (fst p) (snd p) s) (list_prod l1 l2) s.
Proof.
  induction l1 as [|i l1 IH]; intros s; cbn [fold_left list_prod]; [reflexivity|].
  rewrite fold_left_app, <- IH. f_equal.
  generalize s. clear.
  induction l2 as [|j l2 IH]; intros s; cbn [fold_left map]; [reflexivity|].
  apply IH.
Qed.

Section Stores.

Context {D : Type}.

Lemma read3_store3_same (q : buffer D) (off : Z) (v : vec D) :
  read3 (store3 q off v) off = v.
Proof.
  unfold read3, store3. destruct v as [a b c]; cbn [v0 v1 v2].
  rewrite Z.eqb_refl.
  replace (off + 1 =? off) with false by lia.
  rewrite Z.eqb_refl.
  replace (off + 2 =? off) with false by lia.
  replace (off + 2 =? off + 1) with false by lia.
  rewrite Z.eqb_refl. reflexivity.
Qed.

(** Stores at different slots do not overlap. *)
Lemma read3_store3_other (q : buffer D) (s s' : Z) (v : vec D) :
  s <> s' -> read3 (store3 q (3 * s') v) (3 * s) = read3 q (3 * s).
Proof.
  intros Hne. unfold read3, store3.
  repeat match goal with
  | |- context [?a =? ?b] => replace (a =? b) with false by lia
  end.
  reflexivity.
Qed.

(** After a sequence of stores, a slot holds the value of the stores aimed at
    it, provided they all carry the same value. *)
Lemma fold_store_read {A : Type} (slot : A -> Z) (val : A -> vec D) (a : A) :
  forall (l : list A) (q : buffer D),
  (forall b, In b l -> slot b = slot a -> val b = val a) ->
  In a l \/ read3 q (3 * slot a) = val a ->
  read3 (fold_left (fun q b => store3 q (3 * slot b) (val b)) l q) (3 * slot a)
  = val a.
Proof.
  induction l as [|b l IH]; intros q Hsame Hin; cbn [fold_left].
  - destruct Hin as [[]|Hq]. exact Hq.
  - apply IH.
    + intros c Hc. apply Hsame. now right.
    + destruct (Z.eq_dec (slot b) (slot a)) as [Heq|Hne].
      * right. rewrite Heq, (Hsame b (or_introl eq_refl) Heq).
        apply read3_store3_same.
      * destruct Hin as [[Hab|Hin]|Hq].
        -- subst b. congruence.
        -- now left.
        -- right. rewrite read3_store3_other by congruence. exact Hq.
Qed.

End Stores.

(** ** The resolvers *)

Lemma tolower_x (c : ascii) :
  Ascii.eqb (tolower c) "x" = Ascii.eqb c "x" || Ascii.eqb c "X".
Proof. destruct c as [[] [] [] [] [] [] [] []]; reflexivity. Qed.

Lemma tolower_y (c : ascii) :
  Ascii.eqb (tolower c) "y" = Ascii.eqb c "y" || Ascii.eqb c "Y".
Proof. destruct c as [[] [] [] [] [] [] [] []]; reflexivity. Qed.

Lemma tolower_z (c : ascii) :
  Ascii.eqb (tolower c) "z" = Ascii.eqb c "z" || Ascii.eqb c "Z".
Proof. destruct c as [[] [] [] [] [] [] [] []]; reflexivity. Qed.

Section Resolvers.

Context {D : Type} {ops : DoubleOps D} {vm : VecMat3 D} {rm : RotMatrix D}.

Lemma axis_switch_spec (s : string) (i : Z) :
  axis_switch s i =
  match parse_pair s i with
  | Some c => inl (generator c)
  | None => inr (switch_error (char_at s (2 * i)))
  end.
Proof.
  unfold axis_switch, parse_pair, switch_error, parse_letter, parse_sign.
  rewrite tolower_x, tolower_y, tolower_z.
  generalize (char_at s (2 * i)) as c, (char_at s (2 * i + 1)) as g.
  intros c g.
  destruct (Ascii.eqb c "x"), (Ascii.eqb c "X"), (Ascii.eqb c "y"),
    (Ascii.eqb c "Y"), (Ascii.eqb c "z"), (Ascii.eqb c "Z"),
    (Ascii.eqb g "+"), (Ascii.eqb g "-"); reflexivity.
Qed.

Lemma switch_error_nonzero (c : ascii) : nonzero (switch_error c) = true.
Proof. unfold switch_error. destruct (parse_letter c); reflexivity. Qed.

Lemma axes_loop_spec (s : string) : forall todo i acc,
  match parse_pairs s (zrange i todo) with
  | Some cs => axes_loop s todo i acc = (0, acc ++ map generator cs)
  | None => nonzero (fst (axes_loop s todo i acc)) = true
  end.
Proof.
  induction todo as [|todo IH]; intros i acc; cbn [zrange parse_pairs axes_loop].
  - now rewrite app_nil_r.
  - rewrite axis_switch_spec.
    destruct (parse_pair s i) as [c|]; [|apply switch_error_nonzero].
    specialize (IH (i + 1) (acc ++ [generator c])).
    destruct (parse_pairs s (zrange (i + 1) todo)) as [cs|]; [|exact IH].
    rewrite IH, <- app_assoc. reflexivity.
Qed.

Lemma axes_valid (s : string) (n : Z) (cs : list CircleSpec) :
  parse_axes s n = Some cs ->
  determine_axes_directions s n = (0, map generator cs).
Proof.
  unfold parse_axes, determine_axes_directions. intros Hp.
  pose proof (axes_loop_spec s (Z.to_nat n) 0 []) as L.
  rewrite Hp in L. exact L.
Qed.

Lemma axes_invalid (s : string) (n : Z) :
  parse_axes s n = None ->
  nonzero (fst (determine_axes_directions s n)) = true.
Proof.
  unfold parse_axes, determine_axes_directions. intros Hp.
  pose proof (axes_loop_spec s (Z.to_nat n) 0 []) as L.
  rewrite Hp in L. exact L.
Qed.

Lemma parse_pairs_None (s : string) : forall l,
  parse_pairs s l = None <-> exists i, In i l /\ parse_pair s i = None.
Proof.
  induction l as [|j l IH]; cbn [parse_pairs In].
  - split; [discriminate|]. intros (i & [] & _).
  - destruct (parse_pair s j) as [c|] eqn:Hj.
    + destruct (parse_pairs s l) as [cs|].
      * split; [discriminate|]. intros (i & [Hi|Hi] & Hn).
        -- congruence.
        -- assert (Some cs = None) as E by (apply IH; now exists i).
           discriminate E.
      * split; [|reflexivity]. intros _.
        destruct IH as [IH _]. destruct (IH eq_refl) as (i & Hi & Hn).
        exists i. auto.
    + split; [|reflexivity]. intros _. exists j. auto.
Qed.

Lemma parse_pairs_nth (s : string) : forall l cs,
  parse_pairs s l = Some cs ->
  List.length cs = List.length l /\
  forall k i, nth_error l k = Some i -> nth_error cs k = parse_pair s i.
Proof.
  induction l as [|j l IH]; intros cs; cbn [parse_pairs].
  - intros [= <-]. split; [reflexivity|]. intros [|k] i; discriminate.
  - destruct (parse_pair s j) as [c|] eqn:Hj; [|discriminate].
    destruct (parse_pairs s l) as [cs'|]; [|discriminate].
    intros [= <-]. destruct (IH cs' eq_refl) as [Hlen Hnth].
    split; [cbn [List.length]; now rewrite Hlen|].
    intros [|k] i; cbn [nth_error].
    + intros [= <-]. now rewrite Hj.
    + apply Hnth.
Qed.

Lemma nth_error_zrange (n : nat) : forall lo k,
  (k < n)%nat -> nth_error (zrange lo n) k = Some (lo + Z.of_nat k).
Proof.
  induction n as [|n IH]; intros lo k Hk; [lia|].
  destruct k as [|k]; cbn [zrange nth_error].
  - f_equal. lia.
  - rewrite IH by lia. f_equal. lia.
Qed.

Lemma parse_axes_None (s : string) (n : Z) :
  parse_axes s n = None <-> exists i, 0 <= i < n /\ parse_pair s i = None.
Proof.
  unfold parse_axes. rewrite parse_pairs_None.
  split; intros (i & Hi & Hn); exists i; (split; [|exact Hn]).
  - apply in_zrange in Hi. lia.
  - apply in_zrange. lia.
Qed.

Lemma parse_axes_length (s : string) (n : Z) (cs : list CircleSpec) :
  parse_axes s n = Some cs -> List.length cs = Z.to_nat n.
Proof.
  intros Hp. apply parse_pairs_nth in Hp. destruct Hp as [Hlen _].
  now rewrite Hlen, length_zrange.
Qed.

Lemma pixel_valid (dir : string) (dpixel : D) (c : CircleSpec) :
  parse_pair dir 0 = Some c ->
  determine_detector_pixel dir dpixel = (0, pixel_step c dpixel).
Proof.
  unfold determine_detector_pixel, parse_pair, parse_letter, parse_sign.
  rewrite tolower_x, tolower_y, tolower_z.
  change (2 * 0) with 0. change (0 + 1) with 1.
  generalize (char_at dir 0) as a, (char_at dir 1) as g. intros a g.
  destruct (Ascii.eqb a "x"), (Ascii.eqb a "X"), (Ascii.eqb a "y"),
    (Ascii.eqb a "Y"), (Ascii.eqb a "z"), (Ascii.eqb a "Z"),
    (Ascii.eqb g "+"), (Ascii.eqb g "-");
    cbn [orb]; intros [= <-]; reflexivity.
Qed.

Lemma pixel_invalid (dir : string) (dpixel : D) :
  parse_pair dir 0 = None ->
  fst (determine_detector_pixel dir dpixel) = switch_error (char_at dir 0).
Proof.
  unfold determine_detector_pixel, parse_pair, switch_error, parse_letter,
    parse_sign.
  rewrite tolower_x, tolower_y, tolower_z.
  change (2 * 0) with 0. change (0 + 1) with 1.
  generalize (char_at dir 0) as a, (char_at dir 1) as g. intros a g.
  destruct (Ascii.eqb a "x"), (Ascii.eqb a "X"), (Ascii.eqb a "y"),
    (Ascii.eqb a "Y"), (Ascii.eqb a "z"), (Ascii.eqb a "Z"),
    (Ascii.eqb g "+"), (Ascii.eqb g "-");
    cbn [orb fst]; intros E; try discriminate E; reflexivity.
Qed.

End Resolvers.

(** ** The setup phase of the entry points *)

Section Setup.

Context {D : Type} {ops : DoubleOps D} {vm : VecMat3 D} {rm : RotMatrix D}.

Lemma nonzero_true (e : Z) : nonzero e = true <-> e <> 0.
Proof. unfold nonzero. destruct (Z.eqb_spec e 0); cbn; split; congruence. Qed.

Lemma nonzero_false (e : Z) : nonzero e = false <-> e = 0.
Proof. unfold nonzero. destruct (Z.eqb_spec e 0); cbn; split; congruence. Qed.

Ltac setup_cases :=
  repeat match goal with
  | |- context [determine_axes_directions ?s ?n] =>
      destruct (determine_axes_directions s n) as [? ?]
  | |- context [determine_detector_pixel ?s ?d] =>
      destruct (determine_detector_pixel s d) as [? ?]
  | H : context [determine_axes_directions ?s ?n] |- _ =>
      destruct (determine_axes_directions s n) as [? ?]
  | H : context [determine_detector_pixel ?s ?d] |- _ =>
      destruct (determine_detector_pixel s d) as [? ?]
  end;
  cbn [fst snd existsb orb] in *;
  repeat match goal with
  | |- context [nonzero ?e] => destruct (nonzero e) eqn:?
  end;
  cbn [orb ret qpos_after beam_after] in *.

Lemma ret_point
    (sampleAngles detectorAngles qpos : buffer D) (ri : vec D)
    (Ns Nd Npoints : Z) (sampleAxis detectorAxis : string) (lambda : D) :
  ret (ang2q_conversion sampleAngles detectorAngles qpos ri Ns Nd Npoints
         sampleAxis detectorAxis lambda)
  = setup_status [fst (determine_axes_directions sampleAxis Ns);
                  fst (determine_axes_directions detectorAxis Nd)].
Proof.
  unfold ang2q_conversion, setup_status. setup_cases; reflexivity.
Qed.

Lemma ret_linear
    (sampleAngles detectorAngles qpos : buffer D) (rcch : vec D)
    (Ns Nd Npoints : Z) (sampleAxis detectorAxis : string) (cch dpixel : D)
    (roi : Z -> Z) (dir : string) (lambda : D) :
  ret (ang2q_conversion_linear sampleAngles detectorAngles qpos rcch Ns Nd
         Npoints sampleAxis detectorAxis cch dpixel roi dir lambda)
  = setup_status [fst (determine_axes_directions sampleAxis Ns);
                  fst (determine_axes_directions detectorAxis Nd);
                  fst (determine_detector_pixel dir dpixel)].
Proof.
  unfold ang2q_conversion_linear, setup_status. setup_cases; reflexivity.
Qed.

Lemma ret_area
    (sampleAngles detectorAngles qpos : buffer D) (rcch : vec D)
    (Ns Nd Npoints : Z) (sampleAxis detectorAxis : string)
    (cch1 cch2 dpixel1 dpixel2 : D) (roi : Z -> Z) (dir1 dir2 : string)
    (lambda : D) :
  ret (ang2q_conversion_area sampleAngles detectorAngles qpos rcch Ns Nd
         Npoints sampleAxis detectorAxis cch1 cch2 dpixel1 dpixel2 roi dir1
         dir2 lambda)
  = setup_status [fst (determine_axes_directions sampleAxis Ns);
                  fst (determine_axes_directions detectorAxis Nd);
                  fst (determine_detector_pixel dir1 dpixel1);
                  fst (determine_detector_pixel dir2 dpixel2)].
Proof.
  unfold ang2q_conversion_area, setup_status. setup_cases; reflexivity.
Qed.

Lemma setup_status_failure (returned : list Z) :
  (exists e, In e returned /\ e <> 0) -> setup_status returned = 1.
Proof.
  intros (e & Hin & Hne). unfold setup_status.
  replace (existsb nonzero returned) with true; [reflexivity|].
  symmetry. apply existsb_exists. exists e. split; [exact Hin|].
  now apply nonzero_true.
Qed.

(** C5 (as amended).  Each entry point returns 1 as soon as one of the
    resolvers of its setup phase returns a non-zero value, whichever resolver
    it is, and 0 when all of them return 0: the status does not tell the
    sample-axis, detector-axis and detector-direction failures apart. *)
Theorem entry_status_is_setup_status
    (sampleAngles detectorAngles qpos : buffer D) (beam : vec D)
    (Ns Nd Npoints : Z) (sampleAxis detectorAxis : string)
    (cch cch2 dpixel dpixel2 : D) (roi : Z -> Z) (dir dir2 : string)
    (lambda : D) :
  ret (ang2q_conversion sampleAngles detectorAngles qpos beam Ns Nd Npoints
         sampleAxis detectorAxis lambda)
  = setup_status [fst (determine_axes_directions sampleAxis Ns);
                  fst (determine_axes_directions detectorAxis Nd)]
  /\
  ret (ang2q_conversion_linear sampleAngles detectorAngles qpos beam Ns Nd
         Npoints sampleAxis detectorAxis cch dpixel roi dir lambda)
  = setup_status [fst (determine_axes_directions sampleAxis Ns);
                  fst (determine_axes_directions detectorAxis Nd);
                  fst (determine_detector_pixel dir dpixel)]
  /\
  ret (ang2q_conversion_area sampleAngles detectorAngles qpos beam Ns Nd
         Npoints sampleAxis detectorAxis cch cch2 dpixel dpixel2 roi dir dir2
         lambda)
  = setup_status [fst (determine_axes_directions sampleAxis Ns);
                  fst (determine_axes_directions detectorAxis Nd);
                  fst (determine_detector_pixel dir dpixel);
                  fst (determine_detector_pixel dir2 dpixel2)].
Proof.
  split; [apply ret_point|]. split; [apply ret_linear|apply ret_area].
Qed.

(** C8.  When a resolver fails, an entry point returns a non-zero status and
    the output buffer [qpos] is exactly as it was before the call. *)
Theorem failure_leaves_qpos_untouched
    (sampleAngles detectorAngles qpos : buffer D) (beam : vec D)
    (Ns Nd Npoints : Z) (sampleAxis detectorAxis : string)
    (cch cch2 dpixel dpixel2 : D) (roi : Z -> Z) (dir dir2 : string)
    (lambda : D) :
  (fst (determine_axes_directions sampleAxis Ns) <> 0 \/
   fst (determine_axes_directions detectorAxis Nd) <> 0 ->
   let r := ang2q_conversion sampleAngles detectorAngles qpos beam Ns Nd
              Npoints sampleAxis detectorAxis lambda in
   ret r <> 0 /\ qpos_after r = qpos)
  /\
  (fst (determine_axes_directions sampleAxis Ns) <> 0 \/
   fst (determine_axes_directions detectorAxis Nd) <> 0 \/
   fst (determine_detector_pixel dir dpixel) <> 0 ->
   let r := ang2q_conversion_linear sampleAngles detectorAngles qpos beam Ns
              Nd Npoints sampleAxis detectorAxis cch dpixel roi dir lambda in
   ret r <> 0 /\ qpos_after r = qpos)
  /\
  (fst (determine_axes_directions sampleAxis Ns) <> 0 \/
   fst (determine_axes_directions detectorAxis Nd) <> 0 \/
   fst (determine_detector_pixel dir dpixel) <> 0 \/
   fst (determine_detector_pixel dir2 dpixel2) <> 0 ->
   let r := ang2q_conversion_area sampleAngles detectorAngles qpos beam Ns Nd
              Npoints sampleAxis detectorAxis cch cch2 dpixel dpixel2 roi dir
              dir2 lambda in
   ret r <> 0 /\ qpos_after r = qpos).
Proof.
  unfold ang2q_conversion, ang2q_conversion_linear, ang2q_conversion_area.
  repeat split; setup_cases;
    repeat match goal with
    | E : nonzero _ = false |- _ => apply nonzero_false in E
    end;
    try reflexivity; try discriminate; intuition congruence.
Qed.

(** C9.  An empty region of interest is not an error.  A call of the linear
    entry point with [roi[1] <= roi[0]], or of the area entry point with an
    empty range on either axis, stores no Q vector ([qpos] is as it was
    before the call) and, the axis and direction strings being resolved,
    returns 0. *)
Theorem empty_roi_is_not_an_error
    (sampleAngles detectorAngles qpos : buffer D) (rcch : vec D)
    (Ns Nd Npoints : Z) (sampleAxis detectorAxis : string)
    (cch cch2 dpixel dpixel2 : D) (roi : Z -> Z) (dir dir2 : string)
    (lambda : D) :
  (roi 1 <= roi 0 ->
   let r := ang2q_conversion_linear sampleAngles detectorAngles qpos rcch Ns
              Nd Npoints sampleAxis detectorAxis cch dpixel roi dir lambda in
   qpos_after r = qpos /\
   (fst (determine_axes_directions sampleAxis Ns) = 0 ->
    fst (determine_axes_directions detectorAxis Nd) = 0 ->
    fst (determine_detector_pixel dir dpixel) = 0 ->
    ret r = 0))
  /\
  (roi 1 <= roi 0 \/ roi 3 <= roi 2 ->
   let r := ang2q_conversion_area sampleAngles detectorAngles qpos rcch Ns Nd
              Npoints sampleAxis detectorAxis cch cch2 dpixel dpixel2 roi dir
              dir2 lambda in
   qpos_after r = qpos /\
   (fst (determine_axes_directions sampleAxis Ns) = 0 ->
    fst (determine_axes_directions detectorAxis Nd) = 0 ->
    fst (determine_detector_pixel dir dpixel) = 0 ->
    fst (determine_detector_pixel dir2 dpixel2) = 0 ->
    ret r = 0)).
Proof.
  split.
  - intros Hroi. cbv zeta. split.
    + unfold ang2q_conversion_linear. setup_cases; try reflexivity.
      apply for_range_skip. intros i q. now apply for_range_empty.
    + intros Hs Hd Hp. rewrite ret_linear, Hs, Hd, Hp. reflexivity.
  - intros Hroi. cbv zeta. split.
    + unfold ang2q_conversion_area. setup_cases; try reflexivity.
      apply for_range_skip. intros i q.
      destruct Hroi as [Hroi|Hroi].
      * now apply for_range_empty.
      * apply for_range_skip. intros j1 q'. now apply for_range_empty.
    + intros Hs Hd Hp1 Hp2. rewrite ret_area, Hs, Hd, Hp1, Hp2. reflexivity.
Qed.

(** C10.  A successful call of the point-detector entry point leaves in the
    caller's array [ri] the original direction normalised and scaled by
    2 pi / lambda; the linear and the area entry points leave the caller's
    array [rcch] as it was. *)
Theorem beam_buffer_effect
    (sampleAngles detectorAngles qpos : buffer D) (beam : vec D)
    (Ns Nd Npoints : Z) (sampleAxis detectorAxis : string)
    (cch cch2 dpixel dpixel2 : D) (roi : Z -> Z) (dir dir2 : string)
    (lambda : D) :
  (ret (ang2q_conversion sampleAngles detectorAngles qpos beam Ns Nd Npoints
          sampleAxis detectorAxis lambda) = 0 ->
   beam_after (ang2q_conversion sampleAngles detectorAngles qpos beam Ns Nd
                 Npoints sampleAxis detectorAxis lambda)
   = vecmul (normalize beam) (M_2PI / lambda)%D)
  /\
  beam_after (ang2q_conversion_linear sampleAngles detectorAngles qpos beam Ns
                Nd Npoints sampleAxis detectorAxis cch dpixel roi dir lambda)
  = beam
  /\
  beam_after (ang2q_conversion_area sampleAngles detectorAngles qpos beam Ns
                Nd Npoints sampleAxis detectorAxis cch cch2 dpixel dpixel2 roi
                dir dir2 lambda)
  = beam.
Proof.
  unfold ang2q_conversion, ang2q_conversion_linear, ang2q_conversion_area.
  repeat split; setup_cases; try reflexivity; discriminate.
Qed.

End Setup.

(** ** The conversion loops *)

Lemma linear_slot_inj (N lo i j i' j' : Z) :
  lo <= j < lo + N -> lo <= j' < lo + N ->
  i * N + j - lo = i' * N + j' - lo -> i = i' /\ j = j'.
Proof. intros Hj Hj' E. assert (i = i') by nia. subst. lia. Qed.

Lemma area_slot_inj (N1 N2 lo1 lo2 i j1 j2 i' j1' j2' : Z) :
  lo1 <= j1 < lo1 + N1 -> lo1 <= j1' < lo1 + N1 ->
  lo2 <= j2 < lo2 + N2 -> lo2 <= j2' < lo2 + N2 ->
  i * (N1 * N2) + N1 * (j2 - lo2) + (j1 - lo1)
  = i' * (N1 * N2) + N1 * (j2' - lo2) + (j1' - lo1) ->
  i = i' /\ j1 = j1' /\ j2 = j2'.
Proof.
  intros H1 H1' H2 H2' E.
  destruct (linear_slot_inj N1 lo1 (i * N2 + (j2 - lo2)) j1
              (i' * N2 + (j2' - lo2)) j1' H1 H1') as [E2 E1]; [lia|].
  destruct (linear_slot_inj N2 lo2 i j2 i' j2' H2 H2') as [Ei Ej]; [lia|].
  auto.
Qed.

Section Conversion.

Context {D : Type} {ops : DoubleOps D} {vm : VecMat3 D} {rm : RotMatrix D}.

Lemma for_range_store_read (lo hi : Z) (slot : Z -> Z) (val : Z -> vec D)
    (q : buffer D) (i : Z) :
  lo <= i < hi ->
  (forall i', lo <= i' < hi -> slot i' = slot i -> val i' = val i) ->
  read3 (for_range lo hi (fun i q => store3 q (3 * slot i) (val i)) q)
        (3 * slot i) = val i.
Proof.
  intros Hi Hsame. unfold for_range. apply fold_store_read.
  - intros b Hb. apply Hsame. apply in_zrange in Hb. lia.
  - left. apply in_zrange. lia.
Qed.

(** The loop over the circles computes the product of the rotation matrices
    in ascending circle order. *)
Lemma circle_fold (ang : Z -> D) : forall cs pre k m,
  k = Z.of_nat (List.length pre) ->
  fold_left
    (fun m j => matmul m (call_rot (pre ++ map generator cs) j (ang j)))
    (zrange k (List.length cs)) m
  = rotation_product cs ang k m.
Proof.
  induction cs as [|c cs IH]; intros pre k m Hk;
    cbn [List.length zrange fold_left rotation_product map]; [reflexivity|].
  replace (call_rot (pre ++ generator c :: map generator cs) k (ang k))
    with (generator c (ang k)).
  - rewrite <- (IH (pre ++ [generator c]) (k + 1)).
    + now rewrite <- app_assoc.
    + rewrite length_app. cbn [List.length]. lia.
  - unfold call_rot. subst k. rewrite Nat2Z.id, nth_middle. reflexivity.
Qed.

Lemma circle_loop (cs : list CircleSpec) (angles : buffer D) (n i : Z) :
  List.length cs = Z.to_nat n ->
  for_range 0 n
    (fun j m => matmul m (call_rot (map generator cs) j (angles (n * i + j))))
    ident
  = compose_circles cs angles n i.
Proof.
  intros Hlen. unfold for_range, compose_circles.
  rewrite Z.sub_0_r, <- Hlen.
  exact (circle_fold (fun j => angles (n * i + j)) cs [] 0 ident eq_refl).
Qed.

Lemma point_read
    (sampleAngles detectorAngles qpos : buffer D) (ri : vec D)
    (Ns Nd Npoints : Z) (sampleAxis detectorAxis : string) (lambda : D)
    (cs cd : list CircleSpec) (i : Z) :
  parse_axes sampleAxis Ns = Some cs ->
  parse_axes detectorAxis Nd = Some cd ->
  0 <= i < Npoints ->
  let r := ang2q_conversion sampleAngles detectorAngles qpos ri Ns Nd Npoints
             sampleAxis detectorAxis lambda in
  ret r = 0 /\
  read3 (qpos_after r) (3 * i)
  = Q_point (compose_circles cs sampleAngles Ns i)
            (compose_circles cd detectorAngles Nd i)
            (wavevector ri lambda).
Proof.
  intros Hs Hd Hi. unfold ang2q_conversion.
  rewrite (axes_valid _ _ _ Hs), (axes_valid _ _ _ Hd).
  cbn [nonzero Z.eqb negb ret qpos_after].
  split; [reflexivity|].
  rewrite (for_range_store_read 0 Npoints (fun i => i));
    [|exact Hi|intros i' _ E; cbv beta in E; subst i'; reflexivity].
  rewrite !circle_loop by (eapply parse_axes_length; eassumption).
  reflexivity.
Qed.

(** C1.  With valid axis specs, the point-detector entry point succeeds and,
    for every position [i], leaves at [qpos[3i..3i+2]] the vector
    [Rs^-1 (Rd - I) k_i]: [Rs] and [Rd] are the products of the sample and of
    the detector rotation matrices in ascending circle order, and [k_i] is
    [ri] normalised and scaled by 2 pi / lambda. *)
Theorem point_detector_Q
    (sampleAngles detectorAngles qpos : buffer D) (ri : vec D)
    (Ns Nd Npoints : Z) (sampleAxis detectorAxis : string) (lambda : D)
    (cs cd : list CircleSpec) (i : Z) :
  parse_axes sampleAxis Ns = Some cs ->
  parse_axes detectorAxis Nd = Some cd ->
  0 <= i < Npoints ->
  let r := ang2q_conversion sampleAngles detectorAngles qpos ri Ns Nd Npoints
             sampleAxis detectorAxis lambda in
  ret r = 0 /\
  read3 (qpos_after r) (3 * i)
  = Q_point (compose_circles cs sampleAngles Ns i)
            (compose_circles cd detectorAngles Nd i)
            (wavevector ri lambda).
Proof.
  intros Hs Hd Hi. now apply point_read.
Qed.

Lemma for_range2_store_read (lo1 hi1 lo2 hi2 : Z) (slot : Z -> Z -> Z)
    (val : Z -> Z -> vec D) (q : buffer D) (i j : Z) :
  lo1 <= i < hi1 -> lo2 <= j < hi2 ->
  (forall i' j', lo1 <= i' < hi1 -> lo2 <= j' < hi2 ->
     slot i' j' = slot i j -> val i' j' = val i j) ->
  read3
    (for_range lo1 hi1 (fun i q =>
       for_range lo2 hi2 (fun j q => store3 q (3 * slot i j) (val i j)) q) q)
    (3 * slot i j) = val i j.
Proof.
  intros Hi Hj Hsame. unfold for_range.
  rewrite (nested_fold (fun i j q => store3 q (3 * slot i j) (val i j))).
  apply (fold_store_read (fun p => slot (fst p) (snd p))
           (fun p => val (fst p) (snd p)) (i, j)).
  - intros [i' j'] Hin. apply in_prod_iff in Hin. destruct Hin as [Hi' Hj'].
    apply in_zrange in Hi', Hj'. cbn [fst snd]. apply Hsame; lia.
  - left. apply in_prod_iff. split; apply in_zrange; lia.
Qed.

Lemma for_range3_store_read (lo1 hi1 lo2 hi2 lo3 hi3 : Z)
    (slot : Z -> Z -> Z -> Z) (val : Z -> Z -> Z -> vec D) (q : buffer D)
    (i j k : Z) :
  lo1 <= i < hi1 -> lo2 <= j < hi2 -> lo3 <= k < hi3 ->
  (forall i' j' k', lo1 <= i' < hi1 -> lo2 <= j' < hi2 -> lo3 <= k' < hi3 ->
     slot i' j' k' = slot i j k -> val i' j' k' = val i j k) ->
  read3
    (for_range lo1 hi1 (fun i q =>
       for_range lo2 hi2 (fun j q =>
         for_range lo3 hi3 (fun k q =>
           store3 q (3 * slot i j k) (val i j k)) q) q) q)
    (3 * slot i j k) = val i j k.
Proof.
  intros Hi Hj Hk Hsame. unfold for_range.
  rewrite (nested_fold (fun i j q =>
             fold_left (fun q k => store3 q (3 * slot i j k) (val i j k))
               (zrange lo3 (Z.to_nat (hi3 - lo3))) q)).
  rewrite (nested_fold (fun p k q =>
             store3 q (3 * slot (fst p) (snd p) k) (val (fst p) (snd p) k))).
  apply (fold_store_read (fun t => slot (fst (fst t)) (snd (fst t)) (snd t))
           (fun t => val (fst (fst t)) (snd (fst t)) (snd t)) (i, j, k)).
  - intros [[i' j'] k'] Hin. apply in_prod_iff in Hin. destruct Hin as [Hin Hk'].
    apply in_prod_iff in Hin. destruct Hin as [Hi' Hj'].
    apply in_zrange in Hi', Hj', Hk'. cbn [fst snd]. apply Hsame; lia.
  - left. repeat (apply in_prod_iff; split); apply in_zrange; lia.
Qed.

(** C3.  With valid axis and direction specs, the linear-detector entry
    point succeeds and, for every position [i] and every pixel [p] of the
    region of interest, leaves in output slot (i, p - roi[0]) the vector
    [Rs^-1 ((Rd d_p - r_i) * 2 pi / lambda)], where
    [d_p = normalize (p * pixel_step - cch * pixel_step + rcch)] and [r_i] is
    the unit vector along [rcch]: the scaling comes after the subtraction. *)
Theorem linear_detector_Q
    (sampleAngles detectorAngles qpos : buffer D) (rcch : vec D)
    (Ns Nd Npoints : Z) (sampleAxis detectorAxis : string) (cch dpixel : D)
    (roi : Z -> Z) (dir : string) (lambda : D)
    (cs cd : list CircleSpec) (c : CircleSpec) (i p : Z) :
  parse_axes sampleAxis Ns = Some cs ->
  parse_axes detectorAxis Nd = Some cd ->
  parse_pair dir 0 = Some c ->
  0 <= i < Npoints ->
  roi 0 <= p < roi 1 ->
  let r := ang2q_conversion_linear sampleAngles detectorAngles qpos rcch Ns Nd
             Npoints sampleAxis detectorAxis cch dpixel roi dir lambda in
  ret r = 0 /\
  read3 (qpos_after r) (3 * linear_slot roi i p)
  = Q_pixel (compose_circles cs sampleAngles Ns i)
            (compose_circles cd detectorAngles Nd i)
            (pixel_direction (pixel_step c dpixel) rcch cch p)
            (beam_direction rcch) lambda.
Proof.
  intros Hs Hd Hc Hi Hp. unfold ang2q_conversion_linear.
  rewrite (axes_valid _ _ _ Hs), (axes_valid _ _ _ Hd), (pixel_valid _ _ _ Hc).
  cbn [nonzero Z.eqb negb ret qpos_after].
  split; [reflexivity|].
  replace (3 * linear_slot roi i p)
    with (3 * (i * (roi 1 - roi 0) + p - roi 0)) by (unfold linear_slot; lia).
  rewrite (for_range2_store_read 0 Npoints (roi 0) (roi 1)
             (fun i j => i * (roi 1 - roi 0) + j - roi 0));
    [|exact Hi|exact Hp|].
  - rewrite !circle_loop by (eapply parse_axes_length; eassumption).
    reflexivity.
  - intros i' p' Hi' Hp' E.
    destruct (linear_slot_inj (roi 1 - roi 0) (roi 0) i' p' i p) as [-> ->];
      [lia|lia|exact E|reflexivity].
Qed.

(** C4.  With valid axis and direction specs, the area-detector entry point
    leaves the Q vector of position [i] and pixel pair [(p1, p2)] in the
    flat output slot [i N1 N2 + (p2 - roi[2]) N1 + (p1 - roi[0])], and no two
    distinct triples in range share a slot. *)
Theorem area_detector_slot
    (sampleAngles detectorAngles qpos : buffer D) (rcch : vec D)
    (Ns Nd Npoints : Z) (sampleAxis detectorAxis : string)
    (cch1 cch2 dpixel1 dpixel2 : D) (roi : Z -> Z) (dir1 dir2 : string)
    (lambda : D) (cs cd : list CircleSpec) (c1 c2 : CircleSpec)
    (i p1 p2 : Z) :
  parse_axes sampleAxis Ns = Some cs ->
  parse_axes detectorAxis Nd = Some cd ->
  parse_pair dir1 0 = Some c1 ->
  parse_pair dir2 0 = Some c2 ->
  0 <= i < Npoints ->
  roi 0 <= p1 < roi 1 ->
  roi 2 <= p2 < roi 3 ->
  let r := ang2q_conversion_area sampleAngles detectorAngles qpos rcch Ns Nd
             Npoints sampleAxis detectorAxis cch1 cch2 dpixel1 dpixel2 roi
             dir1 dir2 lambda in
  read3 (qpos_after r) (3 * area_slot roi i p1 p2)
  = Q_pixel (compose_circles cs sampleAngles Ns i)
            (compose_circles cd detectorAngles Nd i)
            (pixel_direction_area (pixel_step c1 dpixel1)
               (pixel_step c2 dpixel2) rcch cch1 cch2 p1 p2)
            (beam_direction rcch) lambda
  /\
  forall i' p1' p2',
    0 <= i' < Npoints -> roi 0 <= p1' < roi 1 -> roi 2 <= p2' < roi 3 ->
    area_slot roi i' p1' p2' = area_slot roi i p1 p2 ->
    i' = i /\ p1' = p1 /\ p2' = p2.
Proof.
  intros Hs Hd Hc1 Hc2 Hi Hp1 Hp2.
  assert (forall i' p1' p2',
            roi 0 <= p1' < roi 1 -> roi 2 <= p2' < roi 3 ->
            i' * ((roi 1 - roi 0) * (roi 3 - roi 2))
            + (roi 1 - roi 0) * (p2' - roi 2) + (p1' - roi 0)
            = i * ((roi 1 - roi 0) * (roi 3 - roi 2))
              + (roi 1 - roi 0) * (p2 - roi 2) + (p1 - roi 0) ->
            i' = i /\ p1' = p1 /\ p2' = p2) as Hinj.
  { intros i' p1' p2' Hp1' Hp2' E.
    apply (area_slot_inj (roi 1 - roi 0) (roi 3 - roi 2) (roi 0) (roi 2));
      (lia || exact E). }
  split.
  - unfold ang2q_conversion_area.
    rewrite (axes_valid _ _ _ Hs), (axes_valid _ _ _ Hd),
      (pixel_valid _ _ _ Hc1), (pixel_valid _ _ _ Hc2).
    cbn [nonzero Z.eqb negb ret qpos_after].
    replace (3 * area_slot roi i p1 p2)
      with (3 * (i * ((roi 1 - roi 0) * (roi 3 - roi 2))
                 + (roi 1 - roi 0) * (p2 - roi 2) + (p1 - roi 0)))
      by (unfold area_slot; ring).
    rewrite (for_range3_store_read 0 Npoints (roi 0) (roi 1) (roi 2) (roi 3)
               (fun i j1 j2 =>
                  i * ((roi 1 - roi 0) * (roi 3 - roi 2))
                  + (roi 1 - roi 0) * (j2 - roi 2) + (j1 - roi 0)));
      [|exact Hi|exact Hp1|exact Hp2|].
    + rewrite !circle_loop by (eapply parse_axes_length; eassumption).
      reflexivity.
    + intros i' p1' p2' Hi' Hp1' Hp2' E.
      destruct (Hinj i' p1' p2' Hp1' Hp2' E) as (-> & -> & ->). reflexivity.
  - intros i' p1' p2' Hi' Hp1' Hp2' E. apply Hinj; [assumption..|].
    unfold area_slot in E. cbv zeta in E. lia.
Qed.

End Conversion.

(** ** The contract of the axis resolver *)

Section AxisContract.

Context {D : Type} {ops : DoubleOps D} {vm : VecMat3 D} {rm : RotMatrix D}.

Lemma malformed_pair_fails (s : string) (n : Z) :
  (exists i, 0 <= i < n /\ parse_pair s i = None) ->
  fst (determine_axes_directions s n) <> 0.
Proof.
  intros Hbad. apply nonzero_true, axes_invalid, parse_axes_None, Hbad.
Qed.

(** C6.  When each of the [n] pairs of an axis-spec string is a letter among
    x, y, z (in either case) followed by '+' or '-',
    [determine_axes_directions] returns 0 and assigns the [n] entries of the
    generator array, entry [i] being the generator named by pair [i].  When
    some pair is malformed it returns a non-zero value, and every call of an
    entry point that uses the string, for the sample or for the detector
    circles, returns a non-zero status. *)
Theorem axes_resolution_all_or_nothing (s : string) (n : Z) :
  ((forall i, 0 <= i < n -> parse_pair s i <> None) ->
   exists cs : list CircleSpec,
     determine_axes_directions s n = (0, map generator cs) /\
     List.length cs = Z.to_nat n /\
     forall i, 0 <= i < n -> nth_error cs (Z.to_nat i) = parse_pair s i)
  /\
  ((exists i, 0 <= i < n /\ parse_pair s i = None) ->
   fst (determine_axes_directions s n) <> 0 /\
   forall (sampleAngles detectorAngles qpos : buffer D) (beam : vec D)
          (m Npoints : Z) (other : string) (cch cch2 dpixel dpixel2 : D)
          (roi : Z -> Z) (dir dir2 : string) (lambda : D),
     ret (ang2q_conversion sampleAngles detectorAngles qpos beam n m Npoints
            s other lambda) <> 0 /\
     ret (ang2q_conversion sampleAngles detectorAngles qpos beam m n Npoints
            other s lambda) <> 0 /\
     ret (ang2q_conversion_linear sampleAngles detectorAngles qpos beam n m
            Npoints s other cch dpixel roi dir lambda) <> 0 /\
     ret (ang2q_conversion_linear sampleAngles detectorAngles qpos beam m n
            Npoints other s cch dpixel roi dir lambda) <> 0 /\
     ret (ang2q_conversion_area sampleAngles detectorAngles qpos beam n m
            Npoints s other cch cch2 dpixel dpixel2 roi dir dir2 lambda) <> 0 /\
     ret (ang2q_conversion_area sampleAngles detectorAngles qpos beam m n
            Npoints other s cch cch2 dpixel dpixel2 roi dir dir2 lambda) <> 0).
Proof.
  split.
  - intros Hok. destruct (parse_axes s n) as [cs|] eqn:Hp.
    + exists cs. split; [now apply axes_valid|].
      split; [now apply parse_axes_length with (s := s)|].
      intros i Hi. unfold parse_axes in Hp.
      destruct (parse_pairs_nth s _ _ Hp) as [_ Hnth].
      rewrite (Hnth (Z.to_nat i) i); [reflexivity|].
      rewrite nth_error_zrange by lia. f_equal. lia.
    + apply parse_axes_None in Hp. destruct Hp as (i & Hi & Hn).
      now destruct (Hok i Hi).
  - intros Hbad. pose proof (malformed_pair_fails s n Hbad) as Hne.
    split; [exact Hne|]. intros.
    rewrite !ret_point, !ret_linear, !ret_area.
    repeat split;
      (rewrite setup_status_failure; [discriminate|]);
      exists (fst (determine_axes_directions s n));
      (split; [cbn [In]; auto|exact Hne]).
Qed.

End AxisContract.

(** ** Numeric values in the real-number model *)

Import RealModel.

Section RealValues.

Local Open Scope R_scope.

Lemma generator_zero (c : CircleSpec) : generator c 0 = ident.
Proof.
  destruct c as [[] []]; cbn; unfold R_rotation_x, R_rotation_y, R_rotation_z,
    R_ident; rewrite ?Ropp_0, cos_0, sin_0, ?Ropp_0; reflexivity.
Qed.

Lemma matmul_ident_l (m : mat R) : matmul ident m = m.
Proof.
  destruct m; cbn; unfold R_matmul, R_ident; cbn [m0 m1 m2 m3 m4 m5 m6 m7 m8].
  f_equal; ring.
Qed.

(** Circles that all stand at angle 0 compose to the identity. *)
Lemma rotation_product_zero (ang : Z -> R) : forall cs j,
  (forall k, (j <= k < j + Z.of_nat (List.length cs))%Z -> ang k = 0) ->
  rotation_product cs ang j ident = ident.
Proof.
  induction cs as [|c cs IH]; intros j Hz; cbn [rotation_product];
    [reflexivity|].
  cbn [List.length] in Hz.
  rewrite (Hz j) by lia. rewrite generator_zero, matmul_ident_l.
  apply IH. intros k Hk. apply Hz. lia.
Qed.

(** The matrix [Rs^-1 (I - I)] sends every vector to the zero vector. *)
Lemma Q_point_ident (Rs : mat R) (k : vec R) :
  Q_point Rs ident k = Vec 0 0 0.
Proof.
  unfold Q_point. cbn. unfold R_matvec, R_matmul, R_diffmat, R_ident.
  cbn [m0 m1 m2 m3 m4 m5 m6 m7 m8]. f_equal; ring.
Qed.

Lemma wavevector_beam_z : wavevector beam_z lambda5 = Vec 0 0 5.
Proof.
  unfold wavevector, beam_z, lambda5. cbn.
  unfold R_vecmul, R_normalize, R_norm. cbn [v0 v1 v2].
  replace (0 * 0 + 0 * 0 + 1 * 1) with 1 by ring. rewrite sqrt_1.
  pose proof PI_neq0. f_equal; field; lra.
Qed.

(** In exact arithmetic the point-detector vector is also
    [Rs^-1 ((Rd - I) k)] and [Rs^-1 (Rd k - k)]. *)
Lemma Q_point_assoc (Rs Rd : mat R) (k : vec R) :
  Q_point Rs Rd k = matvec (inversemat Rs) (matvec (diffmat Rd ident) k)
  /\ Q_point Rs Rd k = matvec (inversemat Rs) (diffvec (matvec Rd k) k).
Proof.
  unfold Q_point. cbn.
  unfold R_matvec, R_matmul, R_diffmat, R_diffvec, R_ident.
  cbn [m0 m1 m2 m3 m4 m5 m6 m7 m8 v0 v1 v2]. split; f_equal; ring.
Qed.

(** The modelled inverse is an inverse, and the modelled generators are
    rotations: orthogonal, of determinant 1. *)
Lemma inversemat_left (m : mat R) :
  R_det m <> 0 -> matmul (inversemat m) m = ident.
Proof.
  intros Hdet. destruct m as [a b c d e f g h i]. cbn in *.
  unfold R_matmul, R_inversemat, R_ident, R_det in *.
  cbn [m0 m1 m2 m3 m4 m5 m6 m7 m8] in *. f_equal; field; exact Hdet.
Qed.

Lemma generator_rotation (c : CircleSpec) (a : R) :
  matmul (transpose (generator c a)) (generator c a) = ident
  /\ R_det (generator c a) = 1.
Proof.
  assert (Hsc : forall x, sin x * sin x + cos x * cos x = 1).
  { intros x. pose proof (sin2_cos2 x) as E. unfold Rsqr in E. exact E. }
  destruct c as [[] []]; cbn;
    unfold R_matmul, transpose, R_rotation_x, R_rotation_y, R_rotation_z,
      R_ident, R_det; cbn [m0 m1 m2 m3 m4 m5 m6 m7 m8];
    (split; [f_equal|]);
    first [ ring
          | pose proof (Hsc a); nra
          | pose proof (Hsc (- a)); nra ].
Qed.

(** C2 (as amended).  With valid axis specs, when the composed detector
    rotation matrix of position [i] is the identity (in particular when all
    detector angles of the position are 0), the point-detector entry point
    leaves the zero vector at [qpos[3i..3i+2]]: the matrix [Rd - I] is then
    the zero matrix. *)
Theorem identity_detector_rotation_gives_zero_Q
    (sampleAngles detectorAngles qpos : buffer R) (ri : vec R)
    (Ns Nd Npoints : Z) (sampleAxis detectorAxis : string) (lambda : R)
    (cs cd : list CircleSpec) (i : Z) :
  parse_axes sampleAxis Ns = Some cs ->
  parse_axes detectorAxis Nd = Some cd ->
  (0 <= i < Npoints)%Z ->
  (compose_circles cd detectorAngles Nd i = ident \/
   forall j, (0 <= j < Nd)%Z -> detectorAngles (Nd * i + j)%Z = 0) ->
  read3 (qpos_after (ang2q_conversion sampleAngles detectorAngles qpos ri Ns
                       Nd Npoints sampleAxis detectorAxis lambda)) (3 * i)
  = Vec 0 0 0.
Proof.
  intros Hs Hd Hi Hid.
  destruct (point_read sampleAngles detectorAngles qpos ri Ns Nd Npoints
              sampleAxis detectorAxis lambda cs cd i Hs Hd Hi) as [_ ->].
  assert (compose_circles cd detectorAngles Nd i = ident) as ->.
  { destruct Hid as [Hid|Hz]; [exact Hid|].
    unfold compose_circles. apply rotation_product_zero.
    intros k Hk. apply Hz.
    rewrite (parse_axes_length _ _ _ Hd) in Hk. lia. }
  apply Q_point_ident.
Qed.

(** C7 (as amended).  For a direction string whose first character is a
    letter among x, y, z (in either case) and whose second character is '+'
    or '-', [determine_detector_pixel] returns 0 and a vector whose
    components away from the named axis are 0 and whose component along the
    named axis is [dpixel] for '+' and [- dpixel] for '-', whatever the pitch
    is; when the pitch is positive this is the only non-zero component, its
    absolute value is the pitch and its sign is the sign character.  The
    function returns a non-zero value for an invalid sign character and for
    an invalid letter.  The pitch itself is not checked. *)
Theorem detector_pixel_vector (dir : string) (dpixel : R) :
  (forall a g, parse_pair dir 0 = Some (a, g) ->
     let r := determine_detector_pixel dir dpixel in
     fst r = 0%Z /\
     (forall b, b <> a -> component (snd r) b = 0) /\
     component (snd r) a
       = match g with Positive => dpixel | Negative => - dpixel end /\
     (0 < dpixel ->
        component (snd r) a <> 0 /\
        Rabs (component (snd r) a) = dpixel /\
        match g with
        | Positive => 0 < component (snd r) a
        | Negative => component (snd r) a < 0
        end))
  /\
  (parse_sign (char_at dir 1) = None ->
   fst (determine_detector_pixel dir dpixel) <> 0%Z)
  /\
  (parse_letter (char_at dir 0) = None ->
   fst (determine_detector_pixel dir dpixel) <> 0%Z).
Proof.
  split; [|split].
  - intros a g Hp. rewrite (pixel_valid dir dpixel (a, g) Hp).
    cbn [fst snd]. split; [reflexivity|]. split; [|split].
    + intros b Hb. destruct a, b, g; try congruence; reflexivity.
    + destruct a, g; reflexivity.
    + intros Hpos. destruct a, g; cbn;
        (split; [lra|split; [|lra]]);
        rewrite ?Rabs_Ropp; apply Rabs_pos_eq; lra.
  - intros Hg. rewrite pixel_invalid.
    + apply nonzero_true, switch_error_nonzero.
    + unfold parse_pair. change (2 * 0)%Z with 0%Z. change (0 + 1)%Z with 1%Z.
      rewrite Hg. now destruct (parse_letter (char_at dir 0)).
  - intros Hl. rewrite pixel_invalid.
    + apply nonzero_true, switch_error_nonzero.
    + unfold parse_pair. change (2 * 0)%Z with 0%Z. now rewrite Hl.
Qed.

End RealValues.

(** ** The entry points on concrete inputs *)

Section Scenarios.

Local Open Scope string_scope.
Local Open Scope R_scope.

(** C1 on three positions of a goniometer with sample circles x+, y- and
    detector circle z-. *)
Lemma point_detector_Q_witness :
  parse_axes "x+Y-" 2 = Some [xp; ym] /\
  parse_axes "z-" 1 = Some [zm] /\
  (0 <= 2 < 3)%Z /\
  ret (ang2q_conversion ramp_angles ramp_angles fresh_qpos beam_z 2 1 3
         "x+Y-" "z-" lambda5) = 0%Z /\
  read3 (qpos_after (ang2q_conversion ramp_angles ramp_angles fresh_qpos
                       beam_z 2 1 3 "x+Y-" "z-" lambda5)) (3 * 2)
  = Q_point (compose_circles [xp; ym] ramp_angles 2 2)
            (compose_circles [zm] ramp_angles 1 2)
            (wavevector beam_z lambda5).
Proof.
  assert (Hs : parse_axes "x+Y-" 2 = Some [xp; ym]) by reflexivity.
  assert (Hd : parse_axes "z-" 1 = Some [zm]) by reflexivity.
  assert (Hi : (0 <= 2 < 3)%Z) by lia.
  split; [exact Hs|]. split; [exact Hd|]. split; [exact Hi|].
  exact (point_detector_Q ramp_angles ramp_angles fresh_qpos beam_z 2 1 3
           "x+Y-" "z-" lambda5 [xp; ym] [zm] 2 Hs Hd Hi).
Defined.

(** Scenario 1 of the specification: one sample circle x+, one detector
    circle x+, both angles 0, beam direction (0,0,1), 2 pi / lambda = 5.
    The scaled beam direction is (0,0,5), the computed Q is (0,0,0). *)
Lemma scenario1_Q_is_zero :
  ret scenario1 = 0%Z /\
  wavevector beam_z lambda5 = Vec 0 0 5 /\
  read3 (qpos_after scenario1) 0 = Vec 0 0 0 /\
  read3 (qpos_after scenario1) 0 <> Vec 0 0 5.
Proof.
  assert (Hs : parse_axes "x+" 1 = Some [xp]) by reflexivity.
  assert (Hi : (0 <= 0 < 1)%Z) by lia.
  destruct (point_read zero_angles zero_angles fresh_qpos beam_z 1 1 1
              "x+" "x+" lambda5 [xp] [xp] 0 Hs Hs Hi) as [Hret Hq].
  change (3 * 0)%Z with 0%Z in Hq. fold scenario1 in Hret, Hq.
  assert (Hzero : read3 (qpos_after scenario1) 0 = Vec 0 0 0).
  { rewrite Hq.
    replace (compose_circles [xp] zero_angles 1 0) with (ident (D := R)).
    - apply Q_point_ident.
    - symmetry. apply rotation_product_zero. reflexivity. }
  split; [exact Hret|]. split; [exact wavevector_beam_z|].
  split; [exact Hzero|].
  rewrite Hzero. intros [= E]. lra.
Qed.

(** C2 (as amended) on scenario 1. *)
Lemma identity_detector_rotation_witness :
  parse_axes "x+" 1 = Some [xp] /\
  (0 <= 0 < 1)%Z /\
  (forall j, (0 <= j < 1)%Z -> zero_angles (1 * 0 + j)%Z = 0) /\
  read3 (qpos_after scenario1) (3 * 0) = Vec 0 0 0.
Proof.
  assert (Hs : parse_axes "x+" 1 = Some [xp]) by reflexivity.
  assert (Hi : (0 <= 0 < 1)%Z) by lia.
  assert (Hz : forall j, (0 <= j < 1)%Z -> zero_angles (1 * 0 + j)%Z = 0)
    by (intros j _; reflexivity).
  split; [exact Hs|]. split; [exact Hi|]. split; [exact Hz|].
  exact (identity_detector_rotation_gives_zero_Q zero_angles zero_angles
           fresh_qpos beam_z 1 1 1 "x+" "x+" lambda5 [xp] [xp] 0 Hs Hs Hi
           (or_intror Hz)).
Defined.

(** C3 on a linear detector along x+ with channels 2..5. *)
Lemma linear_detector_Q_witness :
  parse_axes "x+Y-" 2 = Some [xp; ym] /\
  parse_axes "z-" 1 = Some [zm] /\
  parse_pair "x+" 0 = Some xp /\
  (0 <= 1 < 2)%Z /\
  (roi_of 2 6 0 0 0 <= 4 < roi_of 2 6 0 0 1)%Z /\
  ret (ang2q_conversion_linear ramp_angles ramp_angles fresh_qpos beam_z
         2 1 2 "x+Y-" "z-" 3 (1/10) (roi_of 2 6 0 0) "x+" lambda5) = 0%Z /\
  read3 (qpos_after
           (ang2q_conversion_linear ramp_angles ramp_angles fresh_qpos beam_z
              2 1 2 "x+Y-" "z-" 3 (1/10) (roi_of 2 6 0 0) "x+" lambda5))
        (3 * linear_slot (roi_of 2 6 0 0) 1 4)
  = Q_pixel (compose_circles [xp; ym] ramp_angles 2 1)
            (compose_circles [zm] ramp_angles 1 1)
            (pixel_direction (pixel_step xp (1/10)) beam_z 3 4)
            (beam_direction beam_z) lambda5.
Proof.
  assert (Hs : parse_axes "x+Y-" 2 = Some [xp; ym]) by reflexivity.
  assert (Hd : parse_axes "z-" 1 = Some [zm]) by reflexivity.
  assert (Hc : parse_pair "x+" 0 = Some xp) by reflexivity.
  assert (Hi : (0 <= 1 < 2)%Z) by lia.
  assert (Hp : (roi_of 2 6 0 0 0 <= 4 < roi_of 2 6 0 0 1)%Z) by (cbn; lia).
  split; [exact Hs|]. split; [exact Hd|]. split; [exact Hc|].
  split; [exact Hi|]. split; [exact Hp|].
  exact (linear_detector_Q ramp_angles ramp_angles fresh_qpos beam_z 2 1 2
           "x+Y-" "z-" 3 (1/10) (roi_of 2 6 0 0) "x+" lambda5 [xp; ym] [zm]
           xp 1 4 Hs Hd Hc Hi Hp).
Defined.

(** C4 on scenario 4 of the specification: an area detector with the region
    of interest [0,2,0,2]. *)
Lemma area_detector_slot_witness :
  parse_axes "x+Y-" 2 = Some [xp; ym] /\
  parse_axes "z-" 1 = Some [zm] /\
  parse_pair "x+" 0 = Some xp /\
  parse_pair "z-" 0 = Some zm /\
  (0 <= 1 < 2)%Z /\
  (roi_of 0 2 0 2 0 <= 1 < roi_of 0 2 0 2 1)%Z /\
  (roi_of 0 2 0 2 2 <= 0 < roi_of 0 2 0 2 3)%Z /\
  read3 (qpos_after
           (ang2q_conversion_area ramp_angles ramp_angles fresh_qpos beam_z
              2 1 2 "x+Y-" "z-" 1 1 (1/10) (1/5) (roi_of 0 2 0 2) "x+" "z-"
              lambda5))
        (3 * area_slot (roi_of 0 2 0 2) 1 1 0)
  = Q_pixel (compose_circles [xp; ym] ramp_angles 2 1)
            (compose_circles [zm] ramp_angles 1 1)
            (pixel_direction_area (pixel_step xp (1/10)) (pixel_step zm (1/5))
               beam_z 1 1 1 0)
            (beam_direction beam_z) lambda5
  /\
  forall i' p1' p2',
    (0 <= i' < 2)%Z ->
    (roi_of 0 2 0 2 0 <= p1' < roi_of 0 2 0 2 1)%Z ->
    (roi_of 0 2 0 2 2 <= p2' < roi_of 0 2 0 2 3)%Z ->
    area_slot (roi_of 0 2 0 2) i' p1' p2' = area_slot (roi_of 0 2 0 2) 1 1 0 ->
    i' = 1%Z /\ p1' = 1%Z /\ p2' = 0%Z.
Proof.
  assert (Hs : parse_axes "x+Y-" 2 = Some [xp; ym]) by reflexivity.
  assert (Hd : parse_axes "z-" 1 = Some [zm]) by reflexivity.
  assert (Hc1 : parse_pair "x+" 0 = Some xp) by reflexivity.
  assert (Hc2 : parse_pair "z-" 0 = Some zm) by reflexivity.
  assert (Hi : (0 <= 1 < 2)%Z) by lia.
  assert (Hp1 : (roi_of 0 2 0 2 0 <= 1 < roi_of 0 2 0 2 1)%Z) by (cbn; lia).
  assert (Hp2 : (roi_of 0 2 0 2 2 <= 0 < roi_of 0 2 0 2 3)%Z) by (cbn; lia).
  split; [exact Hs|]. split; [exact Hd|]. split; [exact Hc1|].
  split; [exact Hc2|]. split; [exact Hi|]. split; [exact Hp1|].
  split; [exact Hp2|].
  exact (area_detector_slot ramp_angles ramp_angles fresh_qpos beam_z 2 1 2
           "x+Y-" "z-" 1 1 (1/10) (1/5) (roi_of 0 2 0 2) "x+" "z-" lambda5
           [xp; ym] [zm] xp zm 1 1 0 Hs Hd Hc1 Hc2 Hi Hp1 Hp2).
Defined.

(** Three calls of the linear-detector entry point that fail for the three
    different reasons (sample axis, detector axis, detector direction) all
    return the same status 1. *)
Lemma failure_kinds_share_status :
  fst (determine_axes_directions (D := R) "q+" 1) = 2%Z /\
  fst (determine_axes_directions (D := R) "x+" 1) = 0%Z /\
  fst (determine_detector_pixel "q+" (1/10)) = 2%Z /\
  fst (determine_detector_pixel "x+" (1/10)) = 0%Z /\
  ret (linear_call "q+" "x+" "x+" (roi_of 0 2 0 0)) = 1%Z /\
  ret (linear_call "x+" "q+" "x+" (roi_of 0 2 0 0)) = 1%Z /\
  ret (linear_call "x+" "x+" "q+" (roi_of 0 2 0 0)) = 1%Z /\
  ret (linear_call "x+" "x+" "x+" (roi_of 0 2 0 0)) = 0%Z.
Proof.
  unfold linear_call. rewrite !ret_linear. repeat split; reflexivity.
Qed.

(** C6 on the well-formed string "x+Y-" and on the string "x+q-", whose
    second pair has a letter that is not accepted. *)
Lemma axes_resolution_witness :
  (forall i, (0 <= i < 2)%Z -> parse_pair "x+Y-" i <> None) /\
  (exists cs : list CircleSpec,
     determine_axes_directions (D := R) "x+Y-" 2 = (0%Z, map generator cs) /\
     List.length cs = Z.to_nat 2 /\
     forall i, (0 <= i < 2)%Z ->
       nth_error cs (Z.to_nat i) = parse_pair "x+Y-" i) /\
  (exists i, (0 <= i < 2)%Z /\ parse_pair "x+q-" i = None) /\
  fst (determine_axes_directions (D := R) "x+q-" 2) <> 0%Z /\
  ret (ang2q_conversion ramp_angles ramp_angles fresh_qpos beam_z 1 2 4
         "x+" "x+q-" lambda5) <> 0%Z.
Proof.
  assert (Hok : forall i, (0 <= i < 2)%Z -> parse_pair "x+Y-" i <> None).
  { intros i Hi. assert (i = 0 \/ i = 1)%Z as [-> | ->] by lia; discriminate. }
  assert (Hbad : exists i, (0 <= i < 2)%Z /\ parse_pair "x+q-" i = None).
  { exists 1%Z. split; [lia|reflexivity]. }
  split; [exact Hok|].
  split; [exact (proj1 (axes_resolution_all_or_nothing (D := R) "x+Y-" 2) Hok)|].
  split; [exact Hbad|].
  destruct (proj2 (axes_resolution_all_or_nothing (D := R) "x+q-" 2) Hbad)
    as [Hne Hcalls].
  split; [exact Hne|].
  exact (proj1 (proj2 (Hcalls ramp_angles ramp_angles fresh_qpos beam_z 1%Z
                         4%Z "x+" 0 0 0 0 (roi_of 0 0 0 0) "x+" "x+" lambda5))).
Defined.

(** C7 on the direction "y-" with pitch 2, on "y*" (invalid sign) and on
    "q+" (invalid letter). *)
Lemma detector_pixel_vector_witness :
  parse_pair "y-" 0 = Some (AxisY, Negative) /\
  0 < 2 /\
  fst (determine_detector_pixel "y-" 2) = 0%Z /\
  component (snd (determine_detector_pixel "y-" 2)) AxisX = 0 /\
  component (snd (determine_detector_pixel "y-" 2)) AxisY = - 2 /\
  component (snd (determine_detector_pixel "y-" 2)) AxisZ = 0 /\
  Rabs (component (snd (determine_detector_pixel "y-" 2)) AxisY) = 2 /\
  parse_sign (char_at "y*" 1) = None /\
  fst (determine_detector_pixel "y*" 2) <> 0%Z /\
  parse_letter (char_at "q+" 0) = None /\
  fst (determine_detector_pixel "q+" 2) <> 0%Z.
Proof.
  assert (Hp : parse_pair "y-" 0 = Some (AxisY, Negative)) by reflexivity.
  assert (Hpos : 0 < 2) by lra.
  assert (Hg : parse_sign (char_at "y*" 1) = None) by reflexivity.
  assert (Hq : parse_letter (char_at "q+" 0) = None) by reflexivity.
  destruct (proj1 (detector_pixel_vector "y-" 2) AxisY Negative Hp)
    as (Hret & Hother & Hval & Hpitch).
  destruct (Hpitch Hpos) as (_ & Habs & _).
  split; [exact Hp|]. split; [exact Hpos|]. split; [exact Hret|].
  split; [apply Hother; discriminate|]. split; [exact Hval|].
  split; [apply Hother; discriminate|]. split; [exact Habs|].
  split; [exact Hg|].
  split; [exact (proj1 (proj2 (detector_pixel_vector "y*" 2)) Hg)|].
  split; [exact Hq|].
  exact (proj2 (proj2 (detector_pixel_vector "q+" 2)) Hq).
Defined.

(** The pitch is not checked: with pitch 0 the call succeeds and the vector
    has no non-zero component; with pitch -1 the component along the named
    axis has absolute value 1, which is not the pitch. *)
Lemma pixel_pitch_not_positive :
  determine_detector_pixel "x+" 0 = (0%Z, Vec 0 0 0) /\
  determine_detector_pixel "x+" (-1) = (0%Z, Vec (-1) 0 0) /\
  Rabs (component (snd (determine_detector_pixel "x+" (-1))) AxisX) <> -1.
Proof.
  split; [reflexivity|]. split; [reflexivity|].
  change (Rabs (-1) <> -1). rewrite Rabs_left by lra. lra.
Qed.

(** The pixel direction of channel 4 of a linear detector along x+ with
    centre channel 3, pixel width 1/10 and centre-channel vector (0,0,1):
    the unit vector along (4/10 - 3/10, 0, 1). *)
Example pixel_direction_channel_4 :
  pixel_direction (pixel_step xp (1/10)) beam_z 3 4
  = normalize (Vec (1/10) 0 1).
Proof.
  unfold pixel_direction, beam_z. cbn. f_equal.
  unfold R_sumvec. cbn [v0 v1 v2]. f_equal; field.
Qed.

(** C8 on scenario 3 of the specification: the axis string "q+". *)
Lemma failure_leaves_qpos_untouched_witness :
  fst (determine_axes_directions (D := R) "q+" 1) <> 0%Z /\
  fst (determine_detector_pixel "x?" (1/5)) <> 0%Z /\
  (ret (point_call "q+" "x+") <> 0%Z /\
   qpos_after (point_call "q+" "x+") = fresh_qpos) /\
  (ret (linear_call "x+" "q+" "x+" (roi_of 0 2 0 2)) <> 0%Z /\
   qpos_after (linear_call "x+" "q+" "x+" (roi_of 0 2 0 2)) = fresh_qpos) /\
  (ret (area_call "x+" "x+" "x+" "x?" (roi_of 0 2 0 2)) <> 0%Z /\
   qpos_after (area_call "x+" "x+" "x+" "x?" (roi_of 0 2 0 2)) = fresh_qpos).
Proof.
  assert (Hq : fst (determine_axes_directions (D := R) "q+" 1) <> 0%Z)
    by discriminate.
  assert (Hd : fst (determine_detector_pixel "x?" (1/5)) <> 0%Z)
    by discriminate.
  split; [exact Hq|]. split; [exact Hd|].
  split; [|split].
  - exact (proj1 (failure_leaves_qpos_untouched ramp_angles ramp_angles
                    fresh_qpos beam_z 1 1 4 "q+" "x+" 3 1 (1/10) (1/5)
                    (roi_of 0 2 0 2) "x+" "x?" lambda5) (or_introl Hq)).
  - exact (proj1 (proj2 (failure_leaves_qpos_untouched ramp_angles ramp_angles
                    fresh_qpos beam_z 1 1 4 "x+" "q+" 3 1 (1/10) (1/5)
                    (roi_of 0 2 0 2) "x+" "x?" lambda5))
             (or_intror (or_introl Hq))).
  - exact (proj2 (proj2 (failure_leaves_qpos_untouched ramp_angles ramp_angles
                    fresh_qpos beam_z 1 1 4 "x+" "x+" 1 1 (1/10) (1/5)
                    (roi_of 0 2 0 2) "x+" "x?" lambda5))
             (or_intror (or_intror (or_intror Hd)))).
Defined.

(** C9 on a linear detector with the region of interest [5,5) and on an area
    detector whose second range [3,3) is empty. *)
Lemma empty_roi_witness :
  fst (determine_axes_directions (D := R) "x+" 1) = 0%Z /\
  fst (determine_detector_pixel "x+" (1/10)) = 0%Z /\
  fst (determine_detector_pixel "z-" (1/5)) = 0%Z /\
  (roi_of 5 5 0 0 1 <= roi_of 5 5 0 0 0)%Z /\
  (roi_of 0 2 3 3 3 <= roi_of 0 2 3 3 2)%Z /\
  (ret (linear_call "x+" "x+" "x+" (roi_of 5 5 0 0)) = 0%Z /\
   qpos_after (linear_call "x+" "x+" "x+" (roi_of 5 5 0 0)) = fresh_qpos) /\
  (ret (area_call "x+" "x+" "x+" "z-" (roi_of 0 2 3 3)) = 0%Z /\
   qpos_after (area_call "x+" "x+" "x+" "z-" (roi_of 0 2 3 3)) = fresh_qpos).
Proof.
  assert (Ha : fst (determine_axes_directions (D := R) "x+" 1) = 0%Z)
    by reflexivity.
  assert (Hx : fst (determine_detector_pixel "x+" (1/10)) = 0%Z)
    by reflexivity.
  assert (Hz : fst (determine_detector_pixel "z-" (1/5)) = 0%Z)
    by reflexivity.
  assert (H1 : (roi_of 5 5 0 0 1 <= roi_of 5 5 0 0 0)%Z) by (cbn; lia).
  assert (H2 : (roi_of 0 2 3 3 3 <= roi_of 0 2 3 3 2)%Z) by (cbn; lia).
  split; [exact Ha|]. split; [exact Hx|]. split; [exact Hz|].
  split; [exact H1|]. split; [exact H2|].
  split.
  - destruct (proj1 (empty_roi_is_not_an_error ramp_angles ramp_angles
                       fresh_qpos beam_z 1 1 4 "x+" "x+" 3 1 (1/10) (1/5)
                       (roi_of 5 5 0 0) "x+" "z-" lambda5) H1) as [Hq Hret].
    exact (conj (Hret Ha Ha Hx) Hq).
  - destruct (proj2 (empty_roi_is_not_an_error ramp_angles ramp_angles
                       fresh_qpos beam_z 1 1 4 "x+" "x+" 1 1 (1/10) (1/5)
                       (roi_of 0 2 3 3) "x+" "z-" lambda5) (or_intror H2))
      as [Hq Hret].
    exact (conj (Hret Ha Ha Hx Hz) Hq).
Defined.

(** C10 on scenario 1: after the call the array [ri] holds (0,0,5). *)
Lemma beam_buffer_effect_witness :
  ret scenario1 = 0%Z /\
  beam_after scenario1 = vecmul (normalize beam_z) (M_2PI / lambda5)%D.
Proof.
  assert (Hret : ret scenario1 = 0%Z) by reflexivity.
  split; [exact Hret|].
  exact (proj1 (beam_buffer_effect zero_angles zero_angles fresh_qpos beam_z
                  1 1 1 "x+" "x+" 0 0 0 0 (roi_of 0 0 0 0) "x+" "x+" lambda5)
           Hret).
Defined.

(** The resolvers and the slot arithmetic on small inputs. *)

Example tolower_upper : tolower "X"%char = "x"%char.
Proof. reflexivity. Qed.

Example tolower_sign : tolower "+"%char = "+"%char.
Proof. reflexivity. Qed.

Example char_at_terminator : char_at "x+" 2 = Ascii.zero.
Proof. reflexivity. Qed.

Example axes_three_circles :
  fst (determine_axes_directions (D := R) "x+Y-z+" 3) = 0%Z /\
  List.length (snd (determine_axes_directions (D := R) "x+Y-z+" 3)) = 3%nat.
Proof. split; reflexivity. Qed.

Example axes_missing_sign :
  fst (determine_axes_directions (D := R) "x+y" 2) = 1%Z.
Proof. reflexivity. Qed.

Example axes_bad_letter_first :
  fst (determine_axes_directions (D := R) "q*" 1) = 2%Z.
Proof. reflexivity. Qed.

Example axes_no_circle :
  determine_axes_directions (D := R) "q*" 0 = (0%Z, []).
Proof. reflexivity. Qed.

Example pixel_z_minus :
  determine_detector_pixel "Z-" 2 = (0%Z, Vec 0 0 (- 2)).
Proof. reflexivity. Qed.

Example area_slots_of_scenario4 :
  map (fun t : Z * Z * Z =>
         area_slot (roi_of 0 2 0 2) (fst (fst t)) (snd (fst t)) (snd t))
      [(0, 0, 0); (0, 1, 0); (0, 0, 1); (0, 1, 1); (1, 0, 0); (1, 1, 0)]%Z
  = [0; 1; 2; 3; 4; 5]%Z.
Proof. reflexivity. Qed.

End Scenarios.

(** * Further properties of the translated functions *)

(** ** The content of the output buffer after a call *)

Section Stores3.

Context {D : Type}.

Lemma store3_outside (q : buffer D) (off : Z) (v : vec D) (k : Z) :
  k < off \/ off + 3 <= k -> store3 q off v k = q k.
Proof.
  intros Hk. unfold store3.
  repeat match goal with
  | |- context [?a =? ?b] => replace (a =? b) with false by lia
  end.
  reflexivity.
Qed.

(** Stores leave alone the elements that none of them is aimed at. *)
Lemma fold_store_frame {A : Type} (slot : A -> Z) (val : A -> vec D) (k : Z) :
  forall (l : list A) (q : buffer D),
  (forall b, In b l -> k < 3 * slot b \/ 3 * slot b + 3 <= k) ->
  fold_left (fun q b => store3 q (3 * slot b) (val b)) l q k = q k.
Proof.
  induction l as [|b l IH]; intros q Hout; cbn [fold_left]; [reflexivity|].
  rewrite IH by (intros c Hc; apply Hout; now right).
  apply store3_outside, Hout. now left.
Qed.

Lemma for_range_store_frame (lo hi : Z) (slot : Z -> Z) (val : Z -> vec D)
    (q : buffer D) (k : Z) :
  (forall i, lo <= i < hi -> k < 3 * slot i \/ 3 * slot i + 3 <= k) ->
  for_range lo hi (fun i q => store3 q (3 * slot i) (val i)) q k = q k.
Proof.
  intros Hout. unfold for_range. apply fold_store_frame.
  intros b Hb. apply Hout. apply in_zrange in Hb. lia.
Qed.

Lemma for_range2_store_frame (lo1 hi1 lo2 hi2 : Z) (slot : Z -> Z -> Z)
    (val : Z -> Z -> vec D) (q : buffer D) (k : Z) :
  (forall i j, lo1 <= i < hi1 -> lo2 <= j < hi2 ->
     k < 3 * slot i j \/ 3 * slot i j + 3 <= k) ->
  for_range lo1 hi1 (fun i q =>
    for_range lo2 hi2 (fun j q => store3 q (3 * slot i j) (val i j)) q) q k
  = q k.
Proof.
  intros Hout. unfold for_range.
  rewrite (nested_fold (fun i j q => store3 q (3 * slot i j) (val i j))).
  apply (fold_store_frame (fun p => slot (fst p) (snd p))
           (fun p => val (fst p) (snd p))).
  intros [i j] Hin. apply in_prod_iff in Hin. destruct Hin as [Hi Hj].
  apply in_zrange in Hi, Hj. cbn [fst snd]. apply Hout; lia.
Qed.

Lemma for_range3_store_frame (lo1 hi1 lo2 hi2 lo3 hi3 : Z)
    (slot : Z -> Z -> Z -> Z) (val : Z -> Z -> Z -> vec D) (q : buffer D)
    (k : Z) :
  (forall i j l, lo1 <= i < hi1 -> lo2 <= j < hi2 -> lo3 <= l < hi3 ->
     k < 3 * slot i j l \/ 3 * slot i j l + 3 <= k) ->
  for_range lo1 hi1 (fun i q =>
    for_range lo2 hi2 (fun j q =>
      for_range lo3 hi3 (fun l q =>
        store3 q (3 * slot i j l) (val i j l)) q) q) q k
  = q k.
Proof.
  intros Hout. unfold for_range.
  rewrite (nested_fold (fun i j q =>
             fold_left (fun q l => store3 q (3 * slot i j l) (val i j l))
               (zrange lo3 (Z.to_nat (hi3 - lo3))) q)).
  rewrite (nested_fold (fun p l q =>
             store3 q (3 * slot (fst p) (snd p) l) (val (fst p) (snd p) l))).
  apply (fold_store_frame (fun t => slot (fst (fst t)) (snd (fst t)) (snd t))
           (fun t => val (fst (fst t)) (snd (fst t)) (snd t))).
  intros [[i j] l] Hin. apply in_prod_iff in Hin. destruct Hin as [Hin Hl].
  apply in_prod_iff in Hin. destruct Hin as [Hi Hj].
  apply in_zrange in Hi, Hj, Hl. cbn [fst snd]. apply Hout; lia.
Qed.

(** The element [3 s + k mod 3] of a buffer, from the vector read at slot [s]. *)
Lemma read3_element (b : buffer D) (v : vec D) (k : Z) :
  read3 b (3 * (k / 3)) = v -> b k = vget v (k mod 3).
Proof.
  intros <-. unfold read3, vget. cbn [v0 v1 v2].
  pose proof (Z.div_mod k 3 ltac:(lia)) as E.
  pose proof (Z.mod_pos_bound k 3 ltac:(lia)) as B.
  destruct (Z.eqb_spec (k mod 3) 0) as [E0|N0]; [f_equal; lia|].
  destruct (Z.eqb_spec (k mod 3) 1) as [E1|N1]; f_equal; lia.
Qed.

End Stores3.

Lemma in_region_true (k n : Z) : in_region k n = true <-> 0 <= k < n.
Proof. unfold in_region. lia. Qed.

Lemma in_region_false (k n : Z) : in_region k n = false <-> k < 0 \/ n <= k.
Proof. unfold in_region. lia. Qed.

Lemma output_size_pos (Npoints Npix k : Z) :
  0 <= k < output_size Npoints Npix ->
  0 < Npoints /\ 0 < Npix /\ 0 <= k / 3 < Npoints * Npix.
Proof.
  unfold output_size. intros Hk.
  assert (0 < Npoints) by nia. assert (0 < Npix) by nia.
  rewrite !Z.max_r in Hk by lia.
  split; [assumption|]. split; [assumption|].
  split; [apply Z.div_pos; lia|apply Z.div_lt_upper_bound; lia].
Qed.

Lemma linear_unslot_spec (roi : Z -> Z) (Npoints s : Z) :
  0 < roi 1 - roi 0 -> 0 <= s < Npoints * (roi 1 - roi 0) ->
  0 <= fst (linear_unslot roi s) < Npoints /\
  roi 0 <= snd (linear_unslot roi s) < roi 1 /\
  linear_slot roi (fst (linear_unslot roi s)) (snd (linear_unslot roi s)) = s.
Proof.
  unfold linear_unslot, linear_slot. cbn [fst snd].
  set (N := roi 1 - roi 0). intros HN Hs.
  pose proof (Z.div_mod s N ltac:(lia)) as E.
  pose proof (Z.mod_pos_bound s N HN) as B.
  split; [split; [apply Z.div_pos; lia|apply Z.div_lt_upper_bound; lia]|].
  split; lia.
Qed.

Lemma area_unslot_spec (roi : Z -> Z) (Npoints s : Z) :
  0 < roi 1 - roi 0 -> 0 < roi 3 - roi 2 ->
  0 <= s < Npoints * ((roi 1 - roi 0) * (roi 3 - roi 2)) ->
  0 <= fst (fst (area_unslot roi s)) < Npoints /\
  roi 0 <= snd (fst (area_unslot roi s)) < roi 1 /\
  roi 2 <= snd (area_unslot roi s) < roi 3 /\
  area_slot roi (fst (fst (area_unslot roi s))) (snd (fst (area_unslot roi s)))
    (snd (area_unslot roi s)) = s.
Proof.
  unfold area_unslot, area_slot. cbn [fst snd].
  set (N1 := roi 1 - roi 0). set (N2 := roi 3 - roi 2). intros H1 H2 Hs.
  pose proof (Z.div_mod s N1 ltac:(lia)) as E1.
  pose proof (Z.mod_pos_bound s N1 H1) as B1.
  pose proof (Z.div_mod (s / N1) N2 ltac:(lia)) as E2.
  pose proof (Z.mod_pos_bound (s / N1) N2 H2) as B2.
  pose proof (Z.div_div s N1 N2 ltac:(lia) ltac:(lia)) as E3.
  rewrite <- E3.
  split; [split; [rewrite E3; apply Z.div_pos; nia
                 |rewrite E3; apply Z.div_lt_upper_bound; nia]|].
  split; [lia|]. split; [lia|]. nia.
Qed.

Section Output.

Context {D : Type} {ops : DoubleOps D} {vm : VecMat3 D} {rm : RotMatrix D}.

Lemma linear_read
    (sampleAngles detectorAngles qpos : buffer D) (rcch : vec D)
    (Ns Nd Npoints : Z) (sampleAxis detectorAxis : string) (cch dpixel : D)
    (roi : Z -> Z) (dir : string) (lambda : D)
    (cs cd : list CircleSpec) (c : CircleSpec) (i p : Z) :
  parse_axes sampleAxis Ns = Some cs ->
  parse_axes detectorAxis Nd = Some cd ->
  parse_pair dir 0 = Some c ->
  0 <= i < Npoints ->
  roi 0 <= p < roi 1 ->
  read3 (qpos_after
           (ang2q_conversion_linear sampleAngles detectorAngles qpos rcch Ns Nd
              Npoints sampleAxis detectorAxis cch dpixel roi dir lambda))
        (3 * linear_slot roi i p)
  = Q_pixel (compose_circles cs sampleAngles Ns i)
            (compose_circles cd detectorAngles Nd i)
            (pixel_direction (pixel_step c dpixel) rcch cch p)
            (beam_direction rcch) lambda.
Proof.
  intros Hs Hd Hc Hi Hp. unfold ang2q_conversion_linear.
  rewrite (axes_valid _ _ _ Hs), (axes_valid _ _ _ Hd), (pixel_valid _ _ _ Hc).
  cbn [nonzero Z.eqb negb ret qpos_after].
  replace (3 * linear_slot roi i p)
    with (3 * (i * (roi 1 - roi 0) + p - roi 0)) by (unfold linear_slot; lia).
  rewrite (for_range2_store_read 0 Npoints (roi 0) (roi 1)
             (fun i j => i * (roi 1 - roi 0) + j - roi 0));
    [|exact Hi|exact Hp|].
  - rewrite !circle_loop by (eapply parse_axes_length; eassumption).
    reflexivity.
  - intros i' p' Hi' Hp' E.
    destruct (linear_slot_inj (roi 1 - roi 0) (roi 0) i' p' i p) as [-> ->];
      [lia|lia|exact E|reflexivity].
Qed.

Lemma area_read
    (sampleAngles detectorAngles qpos : buffer D) (rcch : vec D)
    (Ns Nd Npoints : Z) (sampleAxis detectorAxis : string)
    (cch1 cch2 dpixel1 dpixel2 : D) (roi : Z -> Z) (dir1 dir2 : string)
    (lambda : D) (cs cd : list CircleSpec) (c1 c2 : CircleSpec)
    (i p1 p2 : Z) :
  parse_axes sampleAxis Ns = Some cs ->
  parse_axes detectorAxis Nd = Some cd ->
  parse_pair dir1 0 = Some c1 ->
  parse_pair dir2 0 = Some c2 ->
  0 <= i < Npoints ->
  roi 0 <= p1 < roi 1 ->
  roi 2 <= p2 < roi 3 ->
  read3 (qpos_after
           (ang2q_conversion_area sampleAngles detectorAngles qpos rcch Ns Nd
              Npoints sampleAxis detectorAxis cch1 cch2 dpixel1 dpixel2 roi
              dir1 dir2 lambda))
        (3 * area_slot roi i p1 p2)
  = Q_pixel (compose_circles cs sampleAngles Ns i)
            (compose_circles cd detectorAngles Nd i)
            (pixel_direction_area (pixel_step c1 dpixel1)
               (pixel_step c2 dpixel2) rcch cch1 cch2 p1 p2)
            (beam_direction rcch) lambda.
Proof.
  intros Hs Hd Hc1 Hc2 Hi Hp1 Hp2. unfold ang2q_conversion_area.
  rewrite (axes_valid _ _ _ Hs), (axes_valid _ _ _ Hd),
    (pixel_valid _ _ _ Hc1), (pixel_valid _ _ _ Hc2).
  cbn [nonzero Z.eqb negb ret qpos_after].
  replace (3 * area_slot roi i p1 p2)
    with (3 * (i * ((roi 1 - roi 0) * (roi 3 - roi 2))
               + (roi 1 - roi 0) * (p2 - roi 2) + (p1 - roi 0)))
    by (unfold area_slot; ring).
  rewrite (for_range3_store_read 0 Npoints (roi 0) (roi 1) (roi 2) (roi 3)
             (fun i j1 j2 =>
                i * ((roi 1 - roi 0) * (roi 3 - roi 2))
                + (roi 1 - roi 0) * (j2 - roi 2) + (j1 - roi 0)));
    [|exact Hi|exact Hp1|exact Hp2|].
  - rewrite !circle_loop by (eapply parse_axes_length; eassumption).
    reflexivity.
  - intros i' p1' p2' Hi' Hp1' Hp2' E.
    destruct (area_slot_inj (roi 1 - roi 0) (roi 3 - roi 2) (roi 0) (roi 2)
                i' p1' p2' i p1 p2) as (-> & -> & ->);
      (lia || exact E || reflexivity).
Qed.

(** The entry points never store outside the output region, whatever the
    arguments. *)
Lemma point_frame
    (sampleAngles detectorAngles qpos : buffer D) (ri : vec D)
    (Ns Nd Npoints : Z) (sampleAxis detectorAxis : string) (lambda : D)
    (k : Z) :
  k < 0 \/ output_size Npoints 1 <= k ->
  qpos_after (ang2q_conversion sampleAngles detectorAngles qpos ri Ns Nd
                Npoints sampleAxis detectorAxis lambda) k = qpos k.
Proof.
  intros Hk. unfold ang2q_conversion.
  destruct (determine_axes_directions sampleAxis Ns) as [e1 r1].
  destruct (nonzero e1); [reflexivity|].
  destruct (determine_axes_directions detectorAxis Nd) as [e2 r2].
  destruct (nonzero e2); [reflexivity|].
  cbn [qpos_after].
  apply (for_range_store_frame 0 Npoints (fun i => i)).
  intros i Hi. unfold output_size in Hk. lia.
Qed.

Lemma linear_frame
    (sampleAngles detectorAngles qpos : buffer D) (rcch : vec D)
    (Ns Nd Npoints : Z) (sampleAxis detectorAxis : string) (cch dpixel : D)
    (roi : Z -> Z) (dir : string) (lambda : D) (k : Z) :
  k < 0 \/ output_size Npoints (roi 1 - roi 0) <= k ->
  qpos_after (ang2q_conversion_linear sampleAngles detectorAngles qpos rcch Ns
                Nd Npoints sampleAxis detectorAxis cch dpixel roi dir lambda) k
  = qpos k.
Proof.
  intros Hk. unfold ang2q_conversion_linear.
  destruct (determine_axes_directions sampleAxis Ns) as [e1 r1].
  destruct (nonzero e1); [reflexivity|].
  destruct (determine_axes_directions detectorAxis Nd) as [e2 r2].
  destruct (nonzero e2); [reflexivity|].
  destruct (determine_detector_pixel dir dpixel) as [e3 r3].
  destruct (nonzero e3); [reflexivity|].
  cbn [qpos_after].
  apply (for_range2_store_frame 0 Npoints (roi 0) (roi 1)
           (fun i j => i * (roi 1 - roi 0) + j - roi 0)).
  intros i j Hi Hj. unfold output_size in Hk.
  rewrite !Z.max_r in Hk by lia. nia.
Qed.

Lemma area_frame
    (sampleAngles detectorAngles qpos : buffer D) (rcch : vec D)
    (Ns Nd Npoints : Z) (sampleAxis detectorAxis : string)
    (cch1 cch2 dpixel1 dpixel2 : D) (roi : Z -> Z) (dir1 dir2 : string)
    (lambda : D) (k : Z) :
  k < 0 \/
  output_size Npoints (Z.max 0 (roi 1 - roi 0) * Z.max 0 (roi 3 - roi 2)) <= k ->
  qpos_after (ang2q_conversion_area sampleAngles detectorAngles qpos rcch Ns
                Nd Npoints sampleAxis detectorAxis cch1 cch2 dpixel1 dpixel2
                roi dir1 dir2 lambda) k
  = qpos k.
Proof.
  intros Hk. unfold ang2q_conversion_area.
  destruct (determine_axes_directions sampleAxis Ns) as [e1 r1].
  destruct (nonzero e1); [reflexivity|].
  destruct (determine_axes_directions detectorAxis Nd) as [e2 r2].
  destruct (nonzero e2); [reflexivity|].
  destruct (determine_detector_pixel dir1 dpixel1) as [e3 r3].
  destruct (nonzero e3); [reflexivity|].
  destruct (determine_detector_pixel dir2 dpixel2) as [e4 r4].
  destruct (nonzero e4); [reflexivity|].
  cbn [qpos_after].
  apply (for_range3_store_frame 0 Npoints (roi 0) (roi 1) (roi 2) (roi 3)
           (fun i j1 j2 =>
              i * ((roi 1 - roi 0) * (roi 3 - roi 2))
              + (roi 1 - roi 0) * (j2 - roi 2) + (j1 - roi 0))).
  intros i j1 j2 Hi Hj1 Hj2. unfold output_size in Hk.
  set (N1 := roi 1 - roi 0) in *. set (N2 := roi 3 - roi 2) in *.
  assert (0 < N1) by (unfold N1; lia). assert (0 < N2) by (unfold N2; lia).
  rewrite (Z.max_r 0 N1), (Z.max_r 0 N2) in Hk by lia.
  rewrite !Z.max_r in Hk by nia.
  assert (0 <= j1 - roi 0 < N1) by (unfold N1; lia).
  assert (0 <= j2 - roi 2 < N2) by (unfold N2; lia).
  assert (N1 * (j2 - roi 2) <= N1 * (N2 - 1)) by nia.
  assert (i * (N1 * N2) <= (Npoints - 1) * (N1 * N2)) by nia.
  assert (0 <= i * (N1 * N2)) by nia.
  assert (0 <= N1 * (j2 - roi 2)) by nia.
  nia.
Qed.

End Output.

Section OutputContent.

Context {D : Type} {ops : DoubleOps D} {vm : VecMat3 D} {rm : RotMatrix D}.

Lemma point_content
    (sampleAngles detectorAngles qpos : buffer D) (ri : vec D)
    (Ns Nd Npoints : Z) (sampleAxis detectorAxis : string) (lambda : D)
    (cs cd : list CircleSpec) (k : Z) :
  parse_axes sampleAxis Ns = Some cs ->
  parse_axes detectorAxis Nd = Some cd ->
  qpos_after (ang2q_conversion sampleAngles detectorAngles qpos ri Ns Nd
                Npoints sampleAxis detectorAxis lambda) k
  = if in_region k (output_size Npoints 1)
    then vget (Q_point (compose_circles cs sampleAngles Ns (k / 3))
                 (compose_circles cd detectorAngles Nd (k / 3))
                 (wavevector ri lambda)) (k mod 3)
    else qpos k.
Proof.
  intros Hs Hd.
  destruct (in_region k (output_size Npoints 1)) eqn:E.
  - apply in_region_true in E.
    destruct (output_size_pos _ _ _ E) as (HN & _ & Hs3).
    apply read3_element.
    apply (point_read sampleAngles detectorAngles qpos ri Ns Nd Npoints
             sampleAxis detectorAxis lambda cs cd (k / 3) Hs Hd).
    lia.
  - apply in_region_false in E. now apply point_frame.
Qed.

(** X1.  The whole output buffer after a successful point-detector call:
    the element [k] of [qpos] with [0 <= k < 3 Npoints] is the component
    [k mod 3] of the Q vector of position [k / 3], and every other element is
    as it was before the call. *)
Theorem point_output_content
    (sampleAngles detectorAngles qpos : buffer D) (ri : vec D)
    (Ns Nd Npoints : Z) (sampleAxis detectorAxis : string) (lambda : D)
    (cs cd : list CircleSpec) (k : Z) :
  parse_axes sampleAxis Ns = Some cs ->
  parse_axes detectorAxis Nd = Some cd ->
  qpos_after (ang2q_conversion sampleAngles detectorAngles qpos ri Ns Nd
                Npoints sampleAxis detectorAxis lambda) k
  = if in_region k (output_size Npoints 1)
    then vget (Q_point (compose_circles cs sampleAngles Ns (k / 3))
                 (compose_circles cd detectorAngles Nd (k / 3))
                 (wavevector ri lambda)) (k mod 3)
    else qpos k.
Proof.
  intros Hs Hd.
  destruct (in_region k (output_size Npoints 1)) eqn:E.
  - apply in_region_true in E.
    destruct (output_size_pos _ _ _ E) as (HN & _ & Hs3).
    apply read3_element.
    apply (point_read sampleAngles detectorAngles qpos ri Ns Nd Npoints
             sampleAxis detectorAxis lambda cs cd (k / 3) Hs Hd).
    lia.
  - apply in_region_false in E. now apply point_frame.
Qed.

Lemma linear_content
    (sampleAngles detectorAngles qpos : buffer D) (rcch : vec D)
    (Ns Nd Npoints : Z) (sampleAxis detectorAxis : string) (cch dpixel : D)
    (roi : Z -> Z) (dir : string) (lambda : D)
    (cs cd : list CircleSpec) (c : CircleSpec) (k : Z) :
  parse_axes sampleAxis Ns = Some cs ->
  parse_axes detectorAxis Nd = Some cd ->
  parse_pair dir 0 = Some c ->
  qpos_after (ang2q_conversion_linear sampleAngles detectorAngles qpos rcch Ns
                Nd Npoints sampleAxis detectorAxis cch dpixel roi dir lambda) k
  = if in_region k (output_size Npoints (roi 1 - roi 0))
    then
      let i := fst (linear_unslot roi (k / 3)) in
      let p := snd (linear_unslot roi (k / 3)) in
      vget (Q_pixel (compose_circles cs sampleAngles Ns i)
              (compose_circles cd detectorAngles Nd i)
              (pixel_direction (pixel_step c dpixel) rcch cch p)
              (beam_direction rcch) lambda) (k mod 3)
    else qpos k.
Proof.
  intros Hs Hd Hc.
  destruct (in_region k (output_size Npoints (roi 1 - roi 0))) eqn:E.
  - apply in_region_true in E.
    destruct (output_size_pos _ _ _ E) as (HN & Hch & Hs3).
    destruct (linear_unslot_spec roi Npoints (k / 3) Hch Hs3)
      as (Hi & Hp & Hslot).
    cbv zeta. apply read3_element. rewrite <- Hslot at 1.
    now apply linear_read.
  - apply in_region_false in E. now apply linear_frame.
Qed.

(** X2.  The whole output buffer after a successful linear-detector call:
    with [Nch = roi[1] - roi[0]], the element [k] with
    [0 <= k < 3 Npoints Nch] is the component [k mod 3] of the Q vector of
    position [(k / 3) / Nch] and pixel [roi[0] + (k / 3) mod Nch], and every
    other element is as it was before the call. *)
Theorem linear_output_content
    (sampleAngles detectorAngles qpos : buffer D) (rcch : vec D)
    (Ns Nd Npoints : Z) (sampleAxis detectorAxis : string) (cch dpixel : D)
    (roi : Z -> Z) (dir : string) (lambda : D)
    (cs cd : list CircleSpec) (c : CircleSpec) (k : Z) :
  parse_axes sampleAxis Ns = Some cs ->
  parse_axes detectorAxis Nd = Some cd ->
  parse_pair dir 0 = Some c ->
  qpos_after (ang2q_conversion_linear sampleAngles detectorAngles qpos rcch Ns
                Nd Npoints sampleAxis detectorAxis cch dpixel roi dir lambda) k
  = if in_region k (output_size Npoints (roi 1 - roi 0))
    then
      let i := fst (linear_unslot roi (k / 3)) in
      let p := snd (linear_unslot roi (k / 3)) in
      vget (Q_pixel (compose_circles cs sampleAngles Ns i)
              (compose_circles cd detectorAngles Nd i)
              (pixel_direction (pixel_step c dpixel) rcch cch p)
              (beam_direction rcch) lambda) (k mod 3)
    else qpos k.
Proof.
  intros Hs Hd Hc.
  destruct (in_region k (output_size Npoints (roi 1 - roi 0))) eqn:E.
  - apply in_region_true in E.
    destruct (output_size_pos _ _ _ E) as (HN & Hch & Hs3).
    destruct (linear_unslot_spec roi Npoints (k / 3) Hch Hs3)
      as (Hi & Hp & Hslot).
    cbv zeta. apply read3_element. rewrite <- Hslot at 1.
    now apply linear_read.
  - apply in_region_false in E. now apply linear_frame.
Qed.

Lemma area_content
    (sampleAngles detectorAngles qpos : buffer D) (rcch : vec D)
    (Ns Nd Npoints : Z) (sampleAxis detectorAxis : string)
    (cch1 cch2 dpixel1 dpixel2 : D) (roi : Z -> Z) (dir1 dir2 : string)
    (lambda : D) (cs cd : list CircleSpec) (c1 c2 : CircleSpec) (k : Z) :
  parse_axes sampleAxis Ns = Some cs ->
  parse_axes detectorAxis Nd = Some cd ->
  parse_pair dir1 0 = Some c1 ->
  parse_pair dir2 0 = Some c2 ->
  qpos_after (ang2q_conversion_area sampleAngles detectorAngles qpos rcch Ns
                Nd Npoints sampleAxis detectorAxis cch1 cch2 dpixel1 dpixel2
                roi dir1 dir2 lambda) k
  = if in_region k
         (output_size Npoints
            (Z.max 0 (roi 1 - roi 0) * Z.max 0 (roi 3 - roi 2)))
    then
      let i := fst (fst (area_unslot roi (k / 3))) in
      let p1 := snd (fst (area_unslot roi (k / 3))) in
      let p2 := snd (area_unslot roi (k / 3)) in
      vget (Q_pixel (compose_circles cs sampleAngles Ns i)
              (compose_circles cd detectorAngles Nd i)
              (pixel_direction_area (pixel_step c1 dpixel1)
                 (pixel_step c2 dpixel2) rcch cch1 cch2 p1 p2)
              (beam_direction rcch) lambda) (k mod 3)
    else qpos k.
Proof.
  intros Hs Hd Hc1 Hc2.
  destruct (in_region k
              (output_size Npoints
                 (Z.max 0 (roi 1 - roi 0) * Z.max 0 (roi 3 - roi 2)))) eqn:E.
  - apply in_region_true in E.
    destruct (output_size_pos _ _ _ E) as (HN & Hpix & Hs3).
    assert (0 < roi 1 - roi 0 /\ 0 < roi 3 - roi 2) as [H1 H2] by nia.
    rewrite (Z.max_r 0 (roi 1 - roi 0)), (Z.max_r 0 (roi 3 - roi 2)) in Hs3
      by lia.
    destruct (area_unslot_spec roi Npoints (k / 3) H1 H2 Hs3)
      as (Hi & Hp1 & Hp2 & Hslot).
    cbv zeta. apply read3_element. rewrite <- Hslot at 1.
    now apply area_read.
  - apply in_region_false in E. now apply area_frame.
Qed.

(** X3.  The whole output buffer after a successful area-detector call:
    with [N1 = roi[1] - roi[0]] and [N2 = roi[3] - roi[2]] (each taken as 0
    when negative), the element [k] with [0 <= k < 3 Npoints N1 N2] is the
    component [k mod 3] of the Q
    vector of the position and pixel pair that [area_unslot] decodes from
    slot [k / 3], and every other element is as it was before the call. *)
Theorem area_output_content
    (sampleAngles detectorAngles qpos : buffer D) (rcch : vec D)
    (Ns Nd Npoints : Z) (sampleAxis detectorAxis : string)
    (cch1 cch2 dpixel1 dpixel2 : D) (roi : Z -> Z) (dir1 dir2 : string)
    (lambda : D) (cs cd : list CircleSpec) (c1 c2 : CircleSpec) (k : Z) :
  parse_axes sampleAxis Ns = Some cs ->
  parse_axes detectorAxis Nd = Some cd ->
  parse_pair dir1 0 = Some c1 ->
  parse_pair dir2 0 = Some c2 ->
  qpos_after (ang2q_conversion_area sampleAngles detectorAngles qpos rcch Ns
                Nd Npoints sampleAxis detectorAxis cch1 cch2 dpixel1 dpixel2
                roi dir1 dir2 lambda) k
  = if in_region k
         (output_size Npoints
            (Z.max 0 (roi 1 - roi 0) * Z.max 0 (roi 3 - roi 2)))
    then
      let i := fst (fst (area_unslot roi (k / 3))) in
      let p1 := snd (fst (area_unslot roi (k / 3))) in
      let p2 := snd (area_unslot roi (k / 3)) in
      vget (Q_pixel (compose_circles cs sampleAngles Ns i)
              (compose_circles cd detectorAngles Nd i)
              (pixel_direction_area (pixel_step c1 dpixel1)
                 (pixel_step c2 dpixel2) rcch cch1 cch2 p1 p2)
              (beam_direction rcch) lambda) (k mod 3)
    else qpos k.
Proof.
  intros Hs Hd Hc1 Hc2.
  destruct (in_region k
              (output_size Npoints
                 (Z.max 0 (roi 1 - roi 0) * Z.max 0 (roi 3 - roi 2)))) eqn:E.
  - apply in_region_true in E.
    destruct (output_size_pos _ _ _ E) as (HN & Hpix & Hs3).
    assert (0 < roi 1 - roi 0 /\ 0 < roi 3 - roi 2) as [H1 H2] by nia.
    rewrite (Z.max_r 0 (roi 1 - roi 0)), (Z.max_r 0 (roi 3 - roi 2)) in Hs3
      by lia.
    destruct (area_unslot_spec roi Npoints (k / 3) H1 H2 Hs3)
      as (Hi & Hp1 & Hp2 & Hslot).
    cbv zeta. apply read3_element. rewrite <- Hslot at 1.
    now apply area_read.
  - apply in_region_false in E. now apply area_frame.
Qed.

End OutputContent.

(** ** What a position reads, and what the region of interest changes *)

Section Positions.

Context {D : Type} {ops : DoubleOps D} {vm : VecMat3 D} {rm : RotMatrix D}.

Lemma rotation_product_ext (a a' : Z -> D) : forall cs j acc,
  (forall k, j <= k < j + Z.of_nat (List.length cs) -> a k = a' k) ->
  rotation_product cs a j acc = rotation_product cs a' j acc.
Proof.
  induction cs as [|c cs IH]; intros j acc Hrow; cbn [rotation_product];
    [reflexivity|].
  cbn [List.length] in Hrow. rewrite (Hrow j) by lia.
  apply IH. intros k Hk. apply Hrow. lia.
Qed.

Lemma compose_circles_row (cs : list CircleSpec) (a a' : buffer D) (n i : Z) :
  List.length cs = Z.to_nat n ->
  (forall j, 0 <= j < n -> a (n * i + j) = a' (n * i + j)) ->
  compose_circles cs a n i = compose_circles cs a' n i.
Proof.
  intros Hlen Hrow. unfold compose_circles. apply rotation_product_ext.
  intros k Hk. apply Hrow. lia.
Qed.

(** X4.  The Q vectors of position [i] depend on the angle arrays through
    row [i] only: two successful calls whose sample and detector angle
    arrays agree on the elements [Ns i .. Ns i + Ns - 1] and
    [Nd i .. Nd i + Nd - 1] leave the same vectors in the slots of position
    [i], whatever the other rows and the previous content of [qpos] are.
    This holds for the point, the linear and the area detector. *)
Theorem position_reads_its_row_only
    (sA sA' dA dA' qpos qpos' : buffer D) (beam : vec D)
    (Ns Nd Npoints : Z) (sampleAxis detectorAxis : string)
    (cch cch2 dpixel dpixel2 : D) (roi : Z -> Z) (dir dir2 : string)
    (lambda : D) (cs cd : list CircleSpec) (i : Z) :
  parse_axes sampleAxis Ns = Some cs ->
  parse_axes detectorAxis Nd = Some cd ->
  0 <= i < Npoints ->
  (forall j, 0 <= j < Ns -> sA (Ns * i + j) = sA' (Ns * i + j)) ->
  (forall j, 0 <= j < Nd -> dA (Nd * i + j) = dA' (Nd * i + j)) ->
  read3 (qpos_after (ang2q_conversion sA dA qpos beam Ns Nd Npoints
                       sampleAxis detectorAxis lambda)) (3 * i)
  = read3 (qpos_after (ang2q_conversion sA' dA' qpos' beam Ns Nd Npoints
                         sampleAxis detectorAxis lambda)) (3 * i)
  /\
  (forall c p, parse_pair dir 0 = Some c -> roi 0 <= p < roi 1 ->
     read3 (qpos_after (ang2q_conversion_linear sA dA qpos beam Ns Nd Npoints
                          sampleAxis detectorAxis cch dpixel roi dir lambda))
           (3 * linear_slot roi i p)
     = read3 (qpos_after (ang2q_conversion_linear sA' dA' qpos' beam Ns Nd
                            Npoints sampleAxis detectorAxis cch dpixel roi dir
                            lambda))
             (3 * linear_slot roi i p))
  /\
  (forall c1 c2 p1 p2,
     parse_pair dir 0 = Some c1 -> parse_pair dir2 0 = Some c2 ->
     roi 0 <= p1 < roi 1 -> roi 2 <= p2 < roi 3 ->
     read3 (qpos_after (ang2q_conversion_area sA dA qpos beam Ns Nd Npoints
                          sampleAxis detectorAxis cch cch2 dpixel dpixel2 roi
                          dir dir2 lambda))
           (3 * area_slot roi i p1 p2)
     = read3 (qpos_after (ang2q_conversion_area sA' dA' qpos' beam Ns Nd
                            Npoints sampleAxis detectorAxis cch cch2 dpixel
                            dpixel2 roi dir dir2 lambda))
             (3 * area_slot roi i p1 p2)).
Proof.
  intros Hs Hd Hi HsA HdA.
  pose proof (compose_circles_row cs sA sA' Ns i
                (parse_axes_length _ _ _ Hs) HsA) as Es.
  pose proof (compose_circles_row cd dA dA' Nd i
                (parse_axes_length _ _ _ Hd) HdA) as Ed.
  split; [|split].
  - destruct (point_read sA dA qpos beam Ns Nd Npoints sampleAxis
                detectorAxis lambda cs cd i Hs Hd Hi) as [_ ->].
    destruct (point_read sA' dA' qpos' beam Ns Nd Npoints sampleAxis
                detectorAxis lambda cs cd i Hs Hd Hi) as [_ ->].
    now rewrite Es, Ed.
  - intros c p Hc Hp.
    rewrite !(linear_read _ _ _ _ _ _ _ _ _ _ _ _ _ _ cs cd c i p)
      by assumption.
    now rewrite Es, Ed.
  - intros c1 c2 p1 p2 Hc1 Hc2 Hp1 Hp2.
    rewrite !(area_read _ _ _ _ _ _ _ _ _ _ _ _ _ _ _ _ _ cs cd c1 c2 i p1 p2)
      by assumption.
    now rewrite Es, Ed.
Qed.

(** X5.  The region of interest selects and renumbers the pixels, it does
    not change their Q vectors: in two successful calls that differ in the
    region of interest only, a pixel that lies in both regions gets the same
    vector, found in the slot that each region assigns to it. *)
Theorem roi_only_selects_pixels
    (sampleAngles detectorAngles qpos qpos' : buffer D) (rcch : vec D)
    (Ns Nd Npoints : Z) (sampleAxis detectorAxis : string)
    (cch cch2 dpixel dpixel2 : D) (roi roi' : Z -> Z) (dir dir2 : string)
    (lambda : D) (cs cd : list CircleSpec) (c1 : CircleSpec) (i : Z) :
  parse_axes sampleAxis Ns = Some cs ->
  parse_axes detectorAxis Nd = Some cd ->
  parse_pair dir 0 = Some c1 ->
  0 <= i < Npoints ->
  (forall p, roi 0 <= p < roi 1 -> roi' 0 <= p < roi' 1 ->
     read3 (qpos_after (ang2q_conversion_linear sampleAngles detectorAngles
                          qpos rcch Ns Nd Npoints sampleAxis detectorAxis cch
                          dpixel roi dir lambda))
           (3 * linear_slot roi i p)
     = read3 (qpos_after (ang2q_conversion_linear sampleAngles detectorAngles
                            qpos' rcch Ns Nd Npoints sampleAxis detectorAxis
                            cch dpixel roi' dir lambda))
             (3 * linear_slot roi' i p))
  /\
  (forall c2 p1 p2, parse_pair dir2 0 = Some c2 ->
     roi 0 <= p1 < roi 1 -> roi 2 <= p2 < roi 3 ->
     roi' 0 <= p1 < roi' 1 -> roi' 2 <= p2 < roi' 3 ->
     read3 (qpos_after (ang2q_conversion_area sampleAngles detectorAngles
                          qpos rcch Ns Nd Npoints sampleAxis detectorAxis cch
                          cch2 dpixel dpixel2 roi dir dir2 lambda))
           (3 * area_slot roi i p1 p2)
     = read3 (qpos_after (ang2q_conversion_area sampleAngles detectorAngles
                            qpos' rcch Ns Nd Npoints sampleAxis detectorAxis
                            cch cch2 dpixel dpixel2 roi' dir dir2 lambda))
             (3 * area_slot roi' i p1 p2)).
Proof.
  intros Hs Hd Hc1 Hi. split.
  - intros p Hp Hp'.
    rewrite (linear_read _ _ _ _ _ _ _ _ _ _ _ roi _ _ cs cd c1 i p)
      by assumption.
    rewrite (linear_read _ _ _ _ _ _ _ _ _ _ _ roi' _ _ cs cd c1 i p)
      by assumption.
    reflexivity.
  - intros c2 p1 p2 Hc2 Hp1 Hp2 Hp1' Hp2'.
    rewrite (area_read _ _ _ _ _ _ _ _ _ _ _ _ _ roi _ _ _ cs cd c1 c2 i p1 p2)
      by assumption.
    rewrite (area_read _ _ _ _ _ _ _ _ _ _ _ _ _ roi' _ _ _ cs cd c1 c2 i p1 p2)
      by assumption.
    reflexivity.
Qed.

(** X6.  With no position to convert ([Npoints <= 0]) none of the entry
    points stores anything: [qpos] is as it was before the call, whether the
    strings resolve or not. *)
Theorem no_position_no_output
    (sampleAngles detectorAngles qpos : buffer D) (beam : vec D)
    (Ns Nd Npoints : Z) (sampleAxis detectorAxis : string)
    (cch cch2 dpixel dpixel2 : D) (roi : Z -> Z) (dir dir2 : string)
    (lambda : D) :
  Npoints <= 0 ->
  qpos_after (ang2q_conversion sampleAngles detectorAngles qpos beam Ns Nd
                Npoints sampleAxis detectorAxis lambda) = qpos
  /\
  qpos_after (ang2q_conversion_linear sampleAngles detectorAngles qpos beam Ns
                Nd Npoints sampleAxis detectorAxis cch dpixel roi dir lambda)
  = qpos
  /\
  qpos_after (ang2q_conversion_area sampleAngles detectorAngles qpos beam Ns
                Nd Npoints sampleAxis detectorAxis cch cch2 dpixel dpixel2 roi
                dir dir2 lambda)
  = qpos.
Proof.
  intros HN.
  unfold ang2q_conversion, ang2q_conversion_linear, ang2q_conversion_area.
  repeat split;
    repeat match goal with
    | |- context [determine_axes_directions ?s ?n] =>
        destruct (determine_axes_directions s n) as [? ?]
    | |- context [determine_detector_pixel ?s ?d] =>
        destruct (determine_detector_pixel s d) as [? ?]
    end;
    repeat match goal with
    | |- context [nonzero ?e] => destruct (nonzero e)
    end;
    cbn [qpos_after]; try reflexivity; apply for_range_empty; lia.
Qed.

(** X7.  When the point-detector entry point returns a non-zero status, the
    caller's array [ri] is as it was before the call: the array is
    normalised and scaled only after both axis strings have been resolved. *)
Theorem failed_point_call_leaves_ri
    (sampleAngles detectorAngles qpos : buffer D) (ri : vec D)
    (Ns Nd Npoints : Z) (sampleAxis detectorAxis : string) (lambda : D) :
  ret (ang2q_conversion sampleAngles detectorAngles qpos ri Ns Nd Npoints
         sampleAxis detectorAxis lambda) <> 0 ->
  beam_after (ang2q_conversion sampleAngles detectorAngles qpos ri Ns Nd
                Npoints sampleAxis detectorAxis lambda) = ri.
Proof.
  unfold ang2q_conversion.
  destruct (determine_axes_directions sampleAxis Ns) as [e1 r1].
  destruct (nonzero e1); [reflexivity|].
  destruct (determine_axes_directions detectorAxis Nd) as [e2 r2].
  destruct (nonzero e2); [reflexivity|].
  cbn [ret]. congruence.
Qed.

End Positions.

(** ** More on the resolvers *)



Lemma char_at_append (s t : string) (k : Z) :
  0 <= k < Z.of_nat (String.length s) ->
  char_at (s ++ t) k = char_at s k.
Proof.
  intros Hk. unfold char_at.
  rewrite <- (append_correct1 s t (Z.to_nat k)) by lia. reflexivity.
Qed.

Section MoreResolvers.

Context {D : Type} {ops : DoubleOps D} {vm : VecMat3 D} {rm : RotMatrix D}.

Lemma axes_loop_first_bad (s : string) : forall m todo j acc cs,
  parse_pairs s (zrange j m) = Some cs ->
  parse_pair s (j + Z.of_nat m) = None ->
  (m < todo)%nat ->
  axes_loop s todo j acc
  = (switch_error (char_at s (2 * (j + Z.of_nat m))), acc ++ map generator cs).
Proof.
  induction m as [|m IH]; intros todo j acc cs Hok Hbad Hlt;
    (destruct todo as [|todo]; [lia|]); cbn [axes_loop];
    rewrite axis_switch_spec.
  - cbn [zrange parse_pairs] in Hok. injection Hok as <-.
    rewrite Z.add_0_r in *. rewrite Hbad. cbn [map]. now rewrite app_nil_r.
  - cbn [zrange parse_pairs] in Hok.
    destruct (parse_pair s j) as [c|]; [|discriminate].
    destruct (parse_pairs s (zrange (j + 1) m)) as [cs'|] eqn:Hrest;
      [|discriminate].
    injection Hok as <-.
    rewrite (IH todo (j + 1) (acc ++ [generator c]) cs' Hrest).
    + replace (j + 1 + Z.of_nat m) with (j + Z.of_nat (S m)) by lia.
      cbn [map]. now rewrite <- app_assoc.
    + replace (j + 1 + Z.of_nat m) with (j + Z.of_nat (S m)) by lia.
      exact Hbad.
    + lia.
Qed.

(** X8.  [determine_axes_directions] stops at the first malformed pair: when
    the pairs 0..i-1 are well formed and pair [i < n] is not, it returns 2 if
    the letter of pair [i] is not accepted and 1 if only its sign character
    is not, and the entries of the generator array assigned by then are
    exactly the entries 0..i-1; the pairs after [i] are not examined. *)
Theorem axes_stop_at_first_malformed_pair (s : string) (n i : Z)
    (cs : list CircleSpec) :
  0 <= i < n ->
  parse_axes s i = Some cs ->
  parse_pair s i = None ->
  determine_axes_directions s n
  = (switch_error (char_at s (2 * i)), map generator cs).
Proof.
  intros Hi Hok Hbad. unfold determine_axes_directions, parse_axes in *.
  rewrite (axes_loop_first_bad s (Z.to_nat i) (Z.to_nat n) 0 [] cs Hok).
  - rewrite Z.add_0_l, Z2Nat.id by lia. reflexivity.
  - rewrite Z.add_0_l, Z2Nat.id by lia. exact Hbad.
  - lia.
Qed.



Lemma axis_switch_append (s t : string) (i : Z) :
  0 <= i -> 2 * i + 1 < Z.of_nat (String.length s) ->
  axis_switch (s ++ t) i = axis_switch s i.
Proof.
  intros Hi Hlen. unfold axis_switch.
  rewrite !char_at_append by lia. reflexivity.
Qed.

Lemma axes_loop_append (s t : string) : forall todo i acc,
  0 <= i -> 2 * (i + Z.of_nat todo) <= Z.of_nat (String.length s) ->
  axes_loop (s ++ t) todo i acc = axes_loop s todo i acc.
Proof.
  induction todo as [|todo IH]; intros i acc Hi Hlen; cbn [axes_loop];
    [reflexivity|].
  rewrite axis_switch_append by lia.
  destruct (axis_switch s i) as [f|e]; [|reflexivity].
  apply IH; lia.
Qed.

(** X10.  [determine_axes_directions] examines the first [2 n] characters
    only: whatever follows them in the string changes neither the returned
    value nor the generators assigned. *)
Theorem axes_ignore_trailing_characters (s t : string) (n : Z) :
  2 * n <= Z.of_nat (String.length s) ->
  determine_axes_directions (s ++ t) n = determine_axes_directions s n.
Proof.
  intros Hlen. unfold determine_axes_directions.
  apply axes_loop_append; lia.
Qed.

(** X11.  The failure codes of [determine_detector_pixel]: it returns 2 when
    the letter is not accepted, whatever the sign character is, and 1 when
    the letter is accepted and the sign character is not; in both cases the
    caller's [rpixel] has been overwritten with three zeros. *)
Theorem detector_pixel_failure_codes (dir : string) (dpixel : D) :
  (parse_letter (char_at dir 0) = None ->
   determine_detector_pixel dir dpixel = (2, Vec dzero dzero dzero))
  /\
  (parse_letter (char_at dir 0) <> None ->
   parse_sign (char_at dir 1) = None ->
   determine_detector_pixel dir dpixel = (1, Vec dzero dzero dzero)).
Proof.
  unfold determine_detector_pixel, parse_letter, parse_sign.
  rewrite tolower_x, tolower_y, tolower_z.
  generalize (char_at dir 0) as a, (char_at dir 1) as g. intros a g.
  destruct (Ascii.eqb a "x"), (Ascii.eqb a "X"), (Ascii.eqb a "y"),
    (Ascii.eqb a "Y"), (Ascii.eqb a "z"), (Ascii.eqb a "Z"),
    (Ascii.eqb g "+"), (Ascii.eqb g "-");
    cbn [orb]; split; intros; try discriminate; try congruence; reflexivity.
Qed.

End MoreResolvers.

(** ** Relations between calls, in the real-number model *)

Section RealRelations.

Local Open Scope R_scope.

Lemma norm_sqr (v : vec R) :
  R_norm v * R_norm v = v0 v * v0 v + v1 v * v1 v + v2 v * v2 v.
Proof. unfold R_norm. apply sqrt_sqrt. nra. Qed.

(** A beam array that already holds a wave vector of the wavelength is left
    as it is by the normalisation and scaling. *)
Lemma wavevector_stable (ri : vec R) (lambda : R) :
  0 < lambda -> R_norm ri <> 0 ->
  wavevector (wavevector ri lambda) lambda = wavevector ri lambda.
Proof.
  intros Hl Hn. unfold wavevector. cbn.
  set (f := 2 * PI / lambda).
  assert (Hf : 0 < f).
  { unfold f. apply Rdiv_lt_0_compat; [|exact Hl]. pose proof PI_RGT_0. lra. }
  assert (Hk : R_norm (R_vecmul (R_normalize ri) f) = f).
  { unfold R_norm at 1. unfold R_vecmul, R_normalize. cbn [v0 v1 v2].
    replace (v0 ri / R_norm ri * f * (v0 ri / R_norm ri * f)
             + v1 ri / R_norm ri * f * (v1 ri / R_norm ri * f)
             + v2 ri / R_norm ri * f * (v2 ri / R_norm ri * f))
      with (f * f).
    - apply sqrt_square. lra.
    - pose proof (norm_sqr ri) as E.
      transitivity (f * f * ((v0 ri * v0 ri + v1 ri * v1 ri + v2 ri * v2 ri)
                             / (R_norm ri * R_norm ri))).
      + rewrite <- E. field. exact Hn.
      + field. exact Hn. }
  unfold R_normalize at 1. rewrite Hk.
  unfold R_vecmul. cbn [v0 v1 v2]. f_equal; field; lra.
Qed.

Lemma point_call_failure
    (sampleAngles detectorAngles qpos : buffer R) (ri : vec R)
    (Ns Nd Npoints : Z) (sampleAxis detectorAxis : string) (lambda : R) :
  parse_axes sampleAxis Ns = None \/ parse_axes detectorAxis Nd = None ->
  ang2q_conversion sampleAngles detectorAngles qpos ri Ns Nd Npoints
    sampleAxis detectorAxis lambda = CallResult 1 qpos ri.
Proof.
  intros Hbad. unfold ang2q_conversion.
  destruct (determine_axes_directions sampleAxis Ns) as [e1 r1] eqn:E1.
  destruct (nonzero e1) eqn:N1; [reflexivity|].
  destruct (determine_axes_directions detectorAxis Nd) as [e2 r2] eqn:E2.
  destruct (nonzero e2) eqn:N2; [reflexivity|].
  exfalso. destruct Hbad as [Hbad|Hbad]; apply axes_invalid in Hbad.
  - rewrite E1 in Hbad. cbn [fst] in Hbad. congruence.
  - rewrite E2 in Hbad. cbn [fst] in Hbad. congruence.
Qed.

Lemma point_call_beam
    (sampleAngles detectorAngles qpos : buffer R) (ri : vec R)
    (Ns Nd Npoints : Z) (sampleAxis detectorAxis : string) (lambda : R)
    (cs cd : list CircleSpec) :
  parse_axes sampleAxis Ns = Some cs ->
  parse_axes detectorAxis Nd = Some cd ->
  ret (ang2q_conversion sampleAngles detectorAngles qpos ri Ns Nd Npoints
         sampleAxis detectorAxis lambda) = 0%Z /\
  beam_after (ang2q_conversion sampleAngles detectorAngles qpos ri Ns Nd
                Npoints sampleAxis detectorAxis lambda)
  = wavevector ri lambda.
Proof.
  intros Hs Hd. unfold ang2q_conversion.
  rewrite (axes_valid _ _ _ Hs), (axes_valid _ _ _ Hd).
  cbn [nonzero Z.eqb negb ret beam_after]. split; reflexivity.
Qed.

(** X12.  Calling the point-detector entry point again on the arrays that a
    first call has left ([qpos] filled, [ri] normalised and scaled) gives the
    same status, the same [ri] and the same [qpos], for a positive
    wavelength and a beam direction that is not the zero vector: the
    in-place rescaling of [ri] does not accumulate. *)
Theorem repeated_point_call_is_stable
    (sampleAngles detectorAngles qpos : buffer R) (ri : vec R)
    (Ns Nd Npoints : Z) (sampleAxis detectorAxis : string) (lambda : R) :
  0 < lambda ->
  R_norm ri <> 0 ->
  let r1 := ang2q_conversion sampleAngles detectorAngles qpos ri Ns Nd
              Npoints sampleAxis detectorAxis lambda in
  let r2 := ang2q_conversion sampleAngles detectorAngles (qpos_after r1)
              (beam_after r1) Ns Nd Npoints sampleAxis detectorAxis lambda in
  ret r2 = ret r1 /\
  beam_after r2 = beam_after r1 /\
  forall k, qpos_after r2 k = qpos_after r1 k.
Proof.
  intros Hl Hn. cbv zeta.
  destruct (parse_axes sampleAxis Ns) as [cs|] eqn:Hs;
    [destruct (parse_axes detectorAxis Nd) as [cd|] eqn:Hd|].
  - destruct (point_call_beam sampleAngles detectorAngles qpos ri Ns Nd
                Npoints sampleAxis detectorAxis lambda cs cd Hs Hd)
      as [Hret Hbeam].
    rewrite Hbeam.
    destruct (point_call_beam sampleAngles detectorAngles
                (qpos_after (ang2q_conversion sampleAngles detectorAngles
                               qpos ri Ns Nd Npoints sampleAxis detectorAxis
                               lambda))
                (wavevector ri lambda) Ns Nd Npoints sampleAxis detectorAxis
                lambda cs cd Hs Hd) as [Hret2 Hbeam2].
    rewrite Hret, Hret2, Hbeam2, (wavevector_stable ri lambda Hl Hn).
    split; [reflexivity|]. split; [reflexivity|]. intros k.
    rewrite (point_content _ _ _ _ _ _ _ _ _ _ cs cd k Hs Hd).
    rewrite (wavevector_stable ri lambda Hl Hn).
    destruct (in_region k (output_size Npoints 1)) eqn:E; [|reflexivity].
    rewrite (point_content _ _ _ _ _ _ _ _ _ _ cs cd k Hs Hd), E.
    reflexivity.
  - rewrite !point_call_failure by auto. auto.
  - rewrite !point_call_failure by auto. auto.
Qed.

(** X13.  The linear detector agrees with the point detector at its centre
    channel: when the centre channel [cch] is the integer pixel [p], the Q
    vector that the linear-detector call stores for pixel [p] at position
    [i] is the vector that the point-detector call with [ri = rcch] stores
    for position [i]. *)
Theorem centre_channel_is_point_detector
    (sampleAngles detectorAngles qpos qpos' : buffer R) (rcch : vec R)
    (Ns Nd Npoints : Z) (sampleAxis detectorAxis : string) (dpixel : R)
    (roi : Z -> Z) (dir : string) (lambda : R)
    (cs cd : list CircleSpec) (c : CircleSpec) (i p : Z) :
  parse_axes sampleAxis Ns = Some cs ->
  parse_axes detectorAxis Nd = Some cd ->
  parse_pair dir 0 = Some c ->
  (0 <= i < Npoints)%Z ->
  (roi 0 <= p < roi 1)%Z ->
  read3 (qpos_after
           (ang2q_conversion_linear sampleAngles detectorAngles qpos rcch Ns Nd
              Npoints sampleAxis detectorAxis (IZR p) dpixel roi dir lambda))
        (3 * linear_slot roi i p)
  = read3 (qpos_after
             (ang2q_conversion sampleAngles detectorAngles qpos' rcch Ns Nd
                Npoints sampleAxis detectorAxis lambda))
          (3 * i).
Proof.
  intros Hs Hd Hc Hi Hp.
  rewrite (linear_read _ _ _ _ _ _ _ _ _ _ _ _ _ _ cs cd c i p Hs Hd Hc Hi Hp).
  destruct (point_read sampleAngles detectorAngles qpos' rcch Ns Nd Npoints
              sampleAxis detectorAxis lambda cs cd i Hs Hd Hi) as [_ ->].
  assert (Hdir : pixel_direction (pixel_step c dpixel) rcch (IZR p) p
                 = R_normalize rcch).
  { unfold pixel_direction. cbn. f_equal.
    unfold R_sumvec, vec_init. cbn [v0 v1 v2].
    destruct rcch as [x y z]. cbn [v0 v1 v2]. f_equal; ring. }
  rewrite Hdir. unfold beam_direction, wavevector, Q_pixel, Q_point. cbn.
  generalize (R_normalize rcch) as u.
  generalize (R_inversemat (compose_circles cs sampleAngles Ns i)) as A.
  generalize (compose_circles cd detectorAngles Nd i) as B.
  intros B A u.
  unfold R_matvec, R_matmul, R_diffmat, R_diffvec, R_vecmul, R_ident.
  cbn [m0 m1 m2 m3 m4 m5 m6 m7 m8 v0 v1 v2]. f_equal; ring.
Qed.

(** X14.  A row or a column of the area detector that passes through the
    centre channel is a linear detector: when [cch2] is the integer pixel
    [p2], the vectors stored for the pixels [(p1, p2)] are those that the
    linear-detector call along [dir1] stores for the pixels [p1]; when
    [cch1] is the integer pixel [p1], the vectors stored for the pixels
    [(p1, p2)] are those of the linear detector along [dir2]. *)
Theorem area_row_is_linear_detector
    (sampleAngles detectorAngles qpos qpos' : buffer R) (rcch : vec R)
    (Ns Nd Npoints : Z) (sampleAxis detectorAxis : string)
    (cch1 cch2 dpixel1 dpixel2 : R) (roi : Z -> Z) (dir1 dir2 : string)
    (lambda : R) (cs cd : list CircleSpec) (c1 c2 : CircleSpec)
    (i p1 p2 : Z) :
  parse_axes sampleAxis Ns = Some cs ->
  parse_axes detectorAxis Nd = Some cd ->
  parse_pair dir1 0 = Some c1 ->
  parse_pair dir2 0 = Some c2 ->
  (0 <= i < Npoints)%Z ->
  (roi 0 <= p1 < roi 1)%Z ->
  (roi 2 <= p2 < roi 3)%Z ->
  (cch2 = IZR p2 ->
   read3 (qpos_after
            (ang2q_conversion_area sampleAngles detectorAngles qpos rcch Ns Nd
               Npoints sampleAxis detectorAxis cch1 cch2 dpixel1 dpixel2 roi
               dir1 dir2 lambda))
         (3 * area_slot roi i p1 p2)
   = read3 (qpos_after
              (ang2q_conversion_linear sampleAngles detectorAngles qpos' rcch
                 Ns Nd Npoints sampleAxis detectorAxis cch1 dpixel1 roi dir1
                 lambda))
           (3 * linear_slot roi i p1))
  /\
  (cch1 = IZR p1 ->
   read3 (qpos_after
            (ang2q_conversion_area sampleAngles detectorAngles qpos rcch Ns Nd
               Npoints sampleAxis detectorAxis cch1 cch2 dpixel1 dpixel2 roi
               dir1 dir2 lambda))
         (3 * area_slot roi i p1 p2)
   = read3 (qpos_after
              (ang2q_conversion_linear sampleAngles detectorAngles qpos' rcch
                 Ns Nd Npoints sampleAxis detectorAxis cch2 dpixel2
                 (fun k => roi (k + 2)%Z) dir2 lambda))
           (3 * linear_slot (fun k => roi (k + 2)%Z) i p2)).
Proof.
  intros Hs Hd Hc1 Hc2 Hi Hp1 Hp2.
  rewrite (area_read _ _ _ _ _ _ _ _ _ _ _ _ _ _ _ _ _ cs cd c1 c2 i p1 p2
             Hs Hd Hc1 Hc2 Hi Hp1 Hp2).
  split; intros ->.
  - rewrite (linear_read _ _ _ _ _ _ _ _ _ _ _ _ _ _ cs cd c1 i p1
               Hs Hd Hc1 Hi Hp1).
    f_equal. unfold pixel_direction_area, pixel_direction. cbn. f_equal.
    unfold R_sumvec, vec_init. cbn [v0 v1 v2]. f_equal; ring.
  - rewrite (linear_read _ _ _ _ _ _ _ _ _ _ _ (fun k => roi (k + 2)%Z) _ _
               cs cd c2 i p2 Hs Hd Hc2 Hi Hp2).
    f_equal. unfold pixel_direction_area, pixel_direction. cbn. f_equal.
    unfold R_sumvec, vec_init. cbn [v0 v1 v2]. f_equal; ring.
Qed.

End RealRelations.

(** ** What the calls print *)

Section Printing.

Context {D : Type} {ops : DoubleOps D} {vm : VecMat3 D} {rm : RotMatrix D}.

Ltac char_cases :=
  repeat match goal with
  | |- context [Ascii.eqb ?a ?b] => destruct (Ascii.eqb a b)
  end.

(** The definitions with standard output compute what the translated
    functions compute. *)
Lemma axis_switch_io_spec (s : string) (i : Z) :
  axis_switch_io s i
  = (axis_switch s i,
     match axis_switch s i with inl _ => [] | inr e => axes_message e end).
Proof. unfold axis_switch_io, axis_switch. char_cases; reflexivity. Qed.

Lemma axes_loop_io_spec (s : string) : forall todo i acc,
  axes_loop_io s todo i acc
  = (axes_loop s todo i acc, axes_message (fst (axes_loop s todo i acc))).
Proof.
  induction todo as [|todo IH]; intros i acc; cbn [axes_loop_io axes_loop];
    [reflexivity|].
  rewrite axis_switch_io_spec.
  destruct (axis_switch s i) as [f|e]; [apply IH|reflexivity].
Qed.

Lemma axes_io_spec (s : string) (n : Z) :
  determine_axes_directions_io s n
  = (determine_axes_directions s n,
     axes_message (fst (determine_axes_directions s n))).
Proof. apply axes_loop_io_spec. Qed.

Lemma pixel_io_spec (dir : string) (dpixel : D) :
  determine_detector_pixel_io dir dpixel
  = (determine_detector_pixel dir dpixel,
     pixel_message (fst (determine_detector_pixel dir dpixel))).
Proof.
  unfold determine_detector_pixel_io, determine_detector_pixel.
  char_cases; reflexivity.
Qed.

Lemma axes_loop_code (s : string) : forall todo i acc,
  fst (axes_loop s todo i acc) = 0
  \/ fst (axes_loop s todo i acc) = 1
  \/ fst (axes_loop s todo i acc) = 2.
Proof.
  induction todo as [|todo IH]; intros i acc; cbn [axes_loop]; [now left|].
  unfold axis_switch at 1 2 3. char_cases; cbn [fst]; auto.
Qed.

Lemma axes_code (s : string) (n : Z) :
  fst (determine_axes_directions s n) = 0
  \/ fst (determine_axes_directions s n) = 1
  \/ fst (determine_axes_directions s n) = 2.
Proof. apply axes_loop_code. Qed.

Lemma pixel_code (dir : string) (dpixel : D) :
  fst (determine_detector_pixel dir dpixel) = 0
  \/ fst (determine_detector_pixel dir dpixel) = 1
  \/ fst (determine_detector_pixel dir dpixel) = 2.
Proof.
  unfold determine_detector_pixel. char_cases; cbn [fst]; auto.
Qed.

(** X15.  What the resolvers print follows from what they return, and both
    resolvers return 0, 1 or 2: nothing is printed with 0, the line about the
    rotation sense (or about the direction sign) with 1, the line about the
    axis (or about the detector direction) with 2; a resolver prints at most
    one line. *)
Theorem resolvers_print_their_code (s : string) (n : Z) (dir : string)
    (dpixel : D) :
  (fst (determine_axes_directions s n) = 0
   \/ fst (determine_axes_directions s n) = 1
   \/ fst (determine_axes_directions s n) = 2)
  /\
  (fst (determine_detector_pixel dir dpixel) = 0
   \/ fst (determine_detector_pixel dir dpixel) = 1
   \/ fst (determine_detector_pixel dir dpixel) = 2)
  /\
  fst (determine_axes_directions_io s n) = determine_axes_directions s n
  /\
  snd (determine_axes_directions_io s n)
  = axes_message (fst (determine_axes_directions s n))
  /\
  fst (determine_detector_pixel_io dir dpixel)
  = determine_detector_pixel dir dpixel
  /\
  snd (determine_detector_pixel_io dir dpixel)
  = pixel_message (fst (determine_detector_pixel dir dpixel)).
Proof.
  rewrite axes_io_spec, pixel_io_spec. cbn [fst snd].
  split; [apply axes_code|]. split; [apply pixel_code|]. repeat split.
Qed.

Lemma axes_message_silent (e : Z) : nonzero e = false -> axes_message e = [].
Proof.
  intros E. apply nonzero_false in E. subst e. reflexivity.
Qed.

Lemma pixel_message_silent (e : Z) : nonzero e = false -> pixel_message e = [].
Proof.
  intros E. apply nonzero_false in E. subst e. reflexivity.
Qed.

Lemma linear_stdout_spec (Ns Nd : Z) (sampleAxis detectorAxis : string)
    (dpixel : D) (dir : string) :
  ang2q_conversion_linear_stdout Ns Nd sampleAxis detectorAxis dpixel dir
  = let e1 := fst (determine_axes_directions sampleAxis Ns) in
    let e2 := fst (determine_axes_directions detectorAxis Nd) in
    let e3 := fst (determine_detector_pixel dir dpixel) in
    if nonzero e1
    then axes_message e1 ++ ["sample axes determination failed"%string]
    else if nonzero e2
    then axes_message e2 ++ ["detector axes determination failed"%string]
    else if nonzero e3
    then pixel_message e3 ++ ["detector direction determination failed"%string]
    else [].
Proof.
  unfold ang2q_conversion_linear_stdout.
  rewrite !axes_io_spec, pixel_io_spec. cbn [fst snd]. cbv zeta.
  destruct (nonzero (fst (determine_axes_directions sampleAxis Ns))) eqn:E1;
    [reflexivity|].
  rewrite (axes_message_silent _ E1).
  destruct (nonzero (fst (determine_axes_directions detectorAxis Nd))) eqn:E2;
    [reflexivity|].
  rewrite (axes_message_silent _ E2).
  destruct (nonzero (fst (determine_detector_pixel dir dpixel))) eqn:E3;
    [reflexivity|].
  rewrite (pixel_message_silent _ E3). reflexivity.
Qed.

(** X16.  The standard output of the linear-detector entry point tells the
    failure kinds apart, which its returned status does not: a call that
    returns 0 prints nothing; a call that fails prints two lines, the line of
    the resolver that failed and then "sample axes determination failed",
    "detector axes determination failed" or "detector direction
    determination failed", according to the first resolver that fails. *)
Theorem linear_stdout_names_the_failure
    (sampleAngles detectorAngles qpos : buffer D) (rcch : vec D)
    (Ns Nd Npoints : Z) (sampleAxis detectorAxis : string) (cch dpixel : D)
    (roi : Z -> Z) (dir : string) (lambda : D) :
  let out :=
    ang2q_conversion_linear_stdout Ns Nd sampleAxis detectorAxis dpixel dir in
  let e1 := fst (determine_axes_directions sampleAxis Ns) in
  let e2 := fst (determine_axes_directions detectorAxis Nd) in
  let e3 := fst (determine_detector_pixel dir dpixel) in
  (ret (ang2q_conversion_linear sampleAngles detectorAngles qpos rcch Ns Nd
          Npoints sampleAxis detectorAxis cch dpixel roi dir lambda) = 0
   <-> out = [])
  /\
  (e1 <> 0 ->
   out = axes_message e1 ++ ["sample axes determination failed"%string])
  /\
  (e1 = 0 -> e2 <> 0 ->
   out = axes_message e2 ++ ["detector axes determination failed"%string])
  /\
  (e1 = 0 -> e2 = 0 -> e3 <> 0 ->
   out = pixel_message e3
         ++ ["detector direction determination failed"%string]).
Proof.
  cbv zeta. rewrite ret_linear, linear_stdout_spec. cbv zeta.
  unfold setup_status. cbn [existsb].
  destruct (nonzero (fst (determine_axes_directions sampleAxis Ns))) eqn:E1;
    destruct (nonzero (fst (determine_axes_directions detectorAxis Nd))) eqn:E2;
    destruct (nonzero (fst (determine_detector_pixel dir dpixel))) eqn:E3;
    cbn [orb];
    repeat match goal with
    | E : nonzero _ = true |- _ => apply nonzero_true in E
    | E : nonzero _ = false |- _ => apply nonzero_false in E
    end;
    (split;
       [split; intros E;
          [try discriminate E; reflexivity
          |try reflexivity;
           apply app_eq_nil in E; destruct E as [_ E]; discriminate E]
       |]);
    repeat split; intros; try congruence; reflexivity.
Qed.

Lemma axes_message_one_line (e : Z) :
  e <> 0 -> List.length (axes_message e) = 1%nat.
Proof.
  intros He. unfold axes_message.
  destruct (Z.eqb_spec e 0); [contradiction|].
  destruct (Z.eqb e 1); reflexivity.
Qed.

Lemma pixel_message_one_line (e : Z) :
  e <> 0 -> List.length (pixel_message e) = 1%nat.
Proof.
  intros He. unfold pixel_message.
  destruct (Z.eqb_spec e 0); [contradiction|].
  destruct (Z.eqb e 1); reflexivity.
Qed.

Lemma point_stdout_spec (Ns Nd : Z) (sampleAxis detectorAxis : string) :
  ang2q_conversion_stdout (D := D) Ns Nd sampleAxis detectorAxis
  = let e1 := fst (determine_axes_directions (D := D) sampleAxis Ns) in
    let e2 := fst (determine_axes_directions (D := D) detectorAxis Nd) in
    if nonzero e1
    then axes_message e1 ++ ["sample axes determination failed"%string]
    else if nonzero e2
    then axes_message e2 ++ ["detector axes determination failed"%string]
    else [].
Proof.
  unfold ang2q_conversion_stdout.
  rewrite !axes_io_spec. cbn [fst snd]. cbv zeta.
  destruct (nonzero (fst (determine_axes_directions sampleAxis Ns))) eqn:E1;
    [reflexivity|].
  rewrite (axes_message_silent _ E1).
  destruct (nonzero (fst (determine_axes_directions detectorAxis Nd))) eqn:E2;
    [reflexivity|].
  rewrite (axes_message_silent _ E2). reflexivity.
Qed.

Lemma area_stdout_spec (Ns Nd : Z) (sampleAxis detectorAxis : string)
    (dpixel1 dpixel2 : D) (dir1 dir2 : string) :
  ang2q_conversion_area_stdout Ns Nd sampleAxis detectorAxis dpixel1 dpixel2
    dir1 dir2
  = let e1 := fst (determine_axes_directions sampleAxis Ns) in
    let e2 := fst (determine_axes_directions detectorAxis Nd) in
    let e3 := fst (determine_detector_pixel dir1 dpixel1) in
    let e4 := fst (determine_detector_pixel dir2 dpixel2) in
    if nonzero e1
    then axes_message e1 ++ ["sample axes determination failed"%string]
    else if nonzero e2
    then axes_message e2 ++ ["detector axes determination failed"%string]
    else if nonzero e3
    then pixel_message e3 ++ ["detector direction determination failed"%string]
    else if nonzero e4
    then pixel_message e4 ++ ["detector direction determination failed"%string]
    else [].
Proof.
  unfold ang2q_conversion_area_stdout.
  rewrite !axes_io_spec, !pixel_io_spec. cbn [fst snd]. cbv zeta.
  destruct (nonzero (fst (determine_axes_directions sampleAxis Ns))) eqn:E1;
    [reflexivity|].
  rewrite (axes_message_silent _ E1).
  destruct (nonzero (fst (determine_axes_directions detectorAxis Nd))) eqn:E2;
    [reflexivity|].
  rewrite (axes_message_silent _ E2).
  destruct (nonzero (fst (determine_detector_pixel dir1 dpixel1))) eqn:E3;
    [reflexivity|].
  rewrite (pixel_message_silent _ E3).
  destruct (nonzero (fst (determine_detector_pixel dir2 dpixel2))) eqn:E4;
    [reflexivity|].
  rewrite (pixel_message_silent _ E4). reflexivity.
Qed.

(** X17.  The point-detector and the area-detector entry points are silent
    exactly when they succeed, and a failing call prints exactly two lines:
    the line of the resolver that failed, then the line of the entry point,
    which is "sample axes determination failed" if the sample string
    fails, "detector axes determination failed" if the sample string
    resolves and the detector string fails, and (area detector) "detector
    direction determination failed" if both axis strings resolve and the
    first or the second direction string fails. *)
Theorem silent_exactly_on_success
    (sampleAngles detectorAngles qpos : buffer D) (beam : vec D)
    (Ns Nd Npoints : Z) (sampleAxis detectorAxis : string)
    (cch1 cch2 dpixel1 dpixel2 : D) (roi : Z -> Z) (dir1 dir2 : string)
    (lambda : D) :
  let out := ang2q_conversion_stdout (D := D) Ns Nd sampleAxis detectorAxis in
  let out_area :=
    ang2q_conversion_area_stdout Ns Nd sampleAxis detectorAxis dpixel1 dpixel2
      dir1 dir2 in
  let e1 := fst (determine_axes_directions (D := D) sampleAxis Ns) in
  let e2 := fst (determine_axes_directions (D := D) detectorAxis Nd) in
  let e3 := fst (determine_detector_pixel dir1 dpixel1) in
  let e4 := fst (determine_detector_pixel dir2 dpixel2) in
  let r := ret (ang2q_conversion sampleAngles detectorAngles qpos beam Ns Nd
                  Npoints sampleAxis detectorAxis lambda) in
  let r_area :=
    ret (ang2q_conversion_area sampleAngles detectorAngles qpos beam Ns Nd
           Npoints sampleAxis detectorAxis cch1 cch2 dpixel1 dpixel2 roi dir1
           dir2 lambda) in
  ((r = 0 <-> out = []) /\
   (r <> 0 -> List.length out = 2%nat) /\
   (e1 <> 0 ->
    out = axes_message e1 ++ ["sample axes determination failed"%string]) /\
   (e1 = 0 -> e2 <> 0 ->
    out = axes_message e2 ++ ["detector axes determination failed"%string]))
  /\
  ((r_area = 0 <-> out_area = []) /\
   (r_area <> 0 -> List.length out_area = 2%nat) /\
   (e1 <> 0 ->
    out_area
    = axes_message e1 ++ ["sample axes determination failed"%string]) /\
   (e1 = 0 -> e2 <> 0 ->
    out_area
    = axes_message e2 ++ ["detector axes determination failed"%string]) /\
   (e1 = 0 -> e2 = 0 -> e3 <> 0 ->
    out_area
    = pixel_message e3
      ++ ["detector direction determination failed"%string]) /\
   (e1 = 0 -> e2 = 0 -> e3 = 0 -> e4 <> 0 ->
    out_area
    = pixel_message e4
      ++ ["detector direction determination failed"%string])).
Proof.
  cbv zeta.
  rewrite ret_point, ret_area, point_stdout_spec, area_stdout_spec. cbv zeta.
  unfold setup_status. cbn [existsb].
  destruct (nonzero (fst (determine_axes_directions sampleAxis Ns))) eqn:E1;
    destruct (nonzero (fst (determine_axes_directions detectorAxis Nd))) eqn:E2;
    destruct (nonzero (fst (determine_detector_pixel dir1 dpixel1))) eqn:E3;
    destruct (nonzero (fst (determine_detector_pixel dir2 dpixel2))) eqn:E4;
    cbn [orb];
    repeat match goal with
    | E : nonzero _ = true |- _ => apply nonzero_true in E
    | E : nonzero _ = false |- _ => apply nonzero_false in E
    end;
    repeat match goal with
    | |- _ /\ _ => split
    | |- _ <-> _ => split
    end;
    intros;
    try reflexivity; try congruence;
    try match goal with
    | H : _ ++ _ :: _ = [] |- _ =>
        apply app_eq_nil in H; destruct H as [_ H]; discriminate H
    end;
    rewrite length_app;
    rewrite ?axes_message_one_line, ?pixel_message_one_line by assumption;
    reflexivity.
Qed.

End Printing.

(** ** Lengths and units, in the real-number model *)

Section RealScaling.

Local Open Scope R_scope.

Lemma norm_scale (v : vec R) (t : R) :
  0 <= t -> R_norm (R_vecmul v t) = R_norm v * t.
Proof.
  intros Ht. unfold R_norm, R_vecmul. cbn [v0 v1 v2].
  replace (v0 v * t * (v0 v * t) + v1 v * t * (v1 v * t)
           + v2 v * t * (v2 v * t))
    with ((v0 v * v0 v + v1 v * v1 v + v2 v * v2 v) * (t * t)) by ring.
  rewrite sqrt_mult by nra. now rewrite sqrt_square.
Qed.

Lemma norm_zero (v : vec R) : R_norm v = 0 -> v = Vec 0 0 0.
Proof.
  intros Hn. pose proof (norm_sqr v) as E. rewrite Hn in E.
  destruct v as [x y z]. cbn [v0 v1 v2] in E.
  assert (x = 0) by nra. assert (y = 0) by nra. assert (z = 0) by nra.
  now subst.
Qed.

(** The unit vector along a vector does not depend on its length. *)
Lemma normalize_scale (v : vec R) (t : R) :
  0 < t -> R_normalize (R_vecmul v t) = R_normalize v.
Proof.
  intros Ht. unfold R_normalize. rewrite norm_scale by lra.
  destruct (Req_dec (R_norm v) 0) as [Hz|Hnz].
  - rewrite (norm_zero v Hz). unfold R_vecmul, R_norm. cbn [v0 v1 v2].
    unfold Rdiv. f_equal; ring.
  - unfold R_vecmul. cbn [v0 v1 v2]. f_equal; field; lra.
Qed.

Lemma pixel_direction_scale (c : CircleSpec) (dpixel cch t : R)
    (rcch : vec R) (p : Z) :
  0 < t ->
  pixel_direction (pixel_step c (dpixel * t)) (R_vecmul rcch t) cch p
  = pixel_direction (pixel_step c dpixel) rcch cch p.
Proof.
  intros Ht. unfold pixel_direction. cbn.
  set (s := pixel_step c dpixel).
  rewrite <- (normalize_scale
                (R_sumvec
                   (Vec (IZR p * v0 s - v0 s * cch)
                        (IZR p * v1 s - v1 s * cch)
                        (IZR p * v2 s - v2 s * cch)) rcch) t Ht).
  subst s. f_equal. destruct c as [[] []]; cbn;
    unfold R_vecmul, R_sumvec; cbn; f_equal; ring.
Qed.

Lemma pixel_direction_area_scale (c1 c2 : CircleSpec)
    (dpixel1 dpixel2 cch1 cch2 t : R) (rcch : vec R) (p1 p2 : Z) :
  0 < t ->
  pixel_direction_area (pixel_step c1 (dpixel1 * t))
    (pixel_step c2 (dpixel2 * t)) (R_vecmul rcch t) cch1 cch2 p1 p2
  = pixel_direction_area (pixel_step c1 dpixel1) (pixel_step c2 dpixel2)
      rcch cch1 cch2 p1 p2.
Proof.
  intros Ht. unfold pixel_direction_area. cbn.
  set (s1 := pixel_step c1 dpixel1). set (s2 := pixel_step c2 dpixel2).
  rewrite <- (normalize_scale
                (R_sumvec
                   (Vec (IZR p1 * v0 s1 + IZR p2 * v0 s2
                         - (v0 s1 * cch1 + v0 s2 * cch2))
                        (IZR p1 * v1 s1 + IZR p2 * v1 s2
                         - (v1 s1 * cch1 + v1 s2 * cch2))
                        (IZR p1 * v2 s1 + IZR p2 * v2 s2
                         - (v2 s1 * cch1 + v2 s2 * cch2))) rcch)
                t Ht).
  subst s1 s2. f_equal. destruct c1 as [[] []], c2 as [[] []]; cbn;
    unfold R_vecmul, R_sumvec; cbn; f_equal; ring.
Qed.

(** X18.  The length of the beam direction given to the point-detector entry
    point is irrelevant, as the comment on the parameter [ri] says: a call
    with [ri] multiplied by a positive factor leaves the same [qpos] and the
    same [ri] as the call with [ri] itself. *)
Theorem ri_length_is_irrelevant
    (sampleAngles detectorAngles qpos : buffer R) (ri : vec R)
    (Ns Nd Npoints : Z) (sampleAxis detectorAxis : string) (lambda t : R) :
  0 < t ->
  parse_axes sampleAxis Ns <> None ->
  parse_axes detectorAxis Nd <> None ->
  beam_after (ang2q_conversion sampleAngles detectorAngles qpos
                (vecmul ri t) Ns Nd Npoints sampleAxis detectorAxis lambda)
  = beam_after (ang2q_conversion sampleAngles detectorAngles qpos ri Ns Nd
                  Npoints sampleAxis detectorAxis lambda)
  /\
  forall k,
    qpos_after (ang2q_conversion sampleAngles detectorAngles qpos
                  (vecmul ri t) Ns Nd Npoints sampleAxis detectorAxis lambda) k
    = qpos_after (ang2q_conversion sampleAngles detectorAngles qpos ri Ns Nd
                    Npoints sampleAxis detectorAxis lambda) k.
Proof.
  intros Ht Hs Hd.
  destruct (parse_axes sampleAxis Ns) as [cs|] eqn:Es; [|contradiction].
  destruct (parse_axes detectorAxis Nd) as [cd|] eqn:Ed; [|contradiction].
  assert (Hw : wavevector (vecmul ri t) lambda = wavevector ri lambda).
  { unfold wavevector. cbn. now rewrite normalize_scale. }
  split.
  - destruct (point_call_beam sampleAngles detectorAngles qpos (vecmul ri t)
                Ns Nd Npoints sampleAxis detectorAxis lambda cs cd Es Ed)
      as [_ ->].
    destruct (point_call_beam sampleAngles detectorAngles qpos ri
                Ns Nd Npoints sampleAxis detectorAxis lambda cs cd Es Ed)
      as [_ ->].
    exact Hw.
  - intros k.
    rewrite !(point_content _ _ _ _ _ _ _ _ _ _ cs cd k Es Ed), Hw.
    reflexivity.
Qed.

(** X19.  The unit of length is irrelevant for the pixel detectors, as the
    comment "same unit as distance rcch" on the pixel width says: a
    successful call with the centre-channel vector [rcch] and the pixel
    widths multiplied by the same positive factor leaves the same [qpos] as
    the call with the original values, for the linear and for the area
    detector. *)
Theorem length_unit_is_irrelevant
    (sampleAngles detectorAngles qpos : buffer R) (rcch : vec R)
    (Ns Nd Npoints : Z) (sampleAxis detectorAxis : string)
    (cch1 cch2 dpixel1 dpixel2 : R) (roi : Z -> Z) (dir1 dir2 : string)
    (lambda t : R) :
  0 < t ->
  parse_axes sampleAxis Ns <> None ->
  parse_axes detectorAxis Nd <> None ->
  parse_pair dir1 0 <> None ->
  (forall k,
     qpos_after (ang2q_conversion_linear sampleAngles detectorAngles qpos
                   (vecmul rcch t) Ns Nd Npoints sampleAxis detectorAxis cch1
                   (dpixel1 * t) roi dir1 lambda) k
     = qpos_after (ang2q_conversion_linear sampleAngles detectorAngles qpos
                     rcch Ns Nd Npoints sampleAxis detectorAxis cch1 dpixel1
                     roi dir1 lambda) k)
  /\
  (parse_pair dir2 0 <> None ->
   forall k,
     qpos_after (ang2q_conversion_area sampleAngles detectorAngles qpos
                   (vecmul rcch t) Ns Nd Npoints sampleAxis detectorAxis cch1
                   cch2 (dpixel1 * t) (dpixel2 * t) roi dir1 dir2 lambda) k
     = qpos_after (ang2q_conversion_area sampleAngles detectorAngles qpos
                     rcch Ns Nd Npoints sampleAxis detectorAxis cch1 cch2
                     dpixel1 dpixel2 roi dir1 dir2 lambda) k).
Proof.
  intros Ht Hs Hd Hc1.
  destruct (parse_axes sampleAxis Ns) as [cs|] eqn:Es; [|contradiction].
  destruct (parse_axes detectorAxis Nd) as [cd|] eqn:Ed; [|contradiction].
  destruct (parse_pair dir1 0) as [c1|] eqn:E1; [|contradiction].
  change (vecmul rcch t) with (R_vecmul rcch t).
  assert (Hb : beam_direction (R_vecmul rcch t) = beam_direction rcch).
  { unfold beam_direction. cbn. now rewrite normalize_scale. }
  split.
  - intros k.
    rewrite !(linear_content _ _ _ _ _ _ _ _ _ _ _ _ _ _ cs cd c1 k Es Ed E1).
    cbv zeta. now rewrite Hb, pixel_direction_scale.
  - intros Hc2 k.
    destruct (parse_pair dir2 0) as [c2|] eqn:E2; [|contradiction].
    rewrite !(area_content _ _ _ _ _ _ _ _ _ _ _ _ _ _ _ _ _ cs cd c1 c2 k
                Es Ed E1 E2).
    cbv zeta. now rewrite Hb, pixel_direction_area_scale.
Qed.

End RealScaling.

(** ** The further properties on concrete inputs *)

Import MoreInputs.

Section MoreScenarios.

Local Open Scope string_scope.

Lemma parse_xp : parse_axes "x+" 1 = Some [xp].
Proof. reflexivity. Qed.

Lemma parse_zm : parse_axes "z-" 1 = Some [zm].
Proof. reflexivity. Qed.

Lemma dir_xp : parse_pair "x+" 0 = Some xp.
Proof. reflexivity. Qed.

Lemma dir_zm : parse_pair "z-" 0 = Some zm.
Proof. reflexivity. Qed.

(** X1 on element 7 of the output of four positions. *)
Lemma point_output_content_witness :
  parse_axes "x+" 1 = Some [xp] /\
  parse_axes "z-" 1 = Some [zm] /\
  qpos_after (point_call "x+" "z-") 7
  = (if in_region 7 (output_size 4 1)
     then vget (Q_point (compose_circles [xp] ramp_angles 1 (7 / 3))
                  (compose_circles [zm] ramp_angles 1 (7 / 3))
                  (wavevector beam_z lambda5)) (7 mod 3)
     else fresh_qpos 7).
Proof.
  split; [exact parse_xp|]. split; [exact parse_zm|].
  exact (point_output_content ramp_angles ramp_angles fresh_qpos beam_z 1 1 4
           "x+" "z-" lambda5 [xp] [zm] 7 parse_xp parse_zm).
Defined.

(** X2 on element 20 of the output of four positions with channels 2..5. *)
Lemma linear_output_content_witness :
  parse_axes "x+" 1 = Some [xp] /\
  parse_axes "z-" 1 = Some [zm] /\
  parse_pair "x+" 0 = Some xp /\
  qpos_after (linear_call "x+" "z-" "x+" (roi_of 2 6 0 0)) 20
  = (if in_region 20 (output_size 4 (roi_of 2 6 0 0 1 - roi_of 2 6 0 0 0))
     then
       let i := fst (linear_unslot (roi_of 2 6 0 0) (20 / 3)) in
       let p := snd (linear_unslot (roi_of 2 6 0 0) (20 / 3)) in
       vget (Q_pixel (compose_circles [xp] ramp_angles 1 i)
               (compose_circles [zm] ramp_angles 1 i)
               (pixel_direction (pixel_step xp (1/10)%R) beam_z 3%R p)
               (beam_direction beam_z) lambda5) (20 mod 3)
     else fresh_qpos 20).
Proof.
  split; [exact parse_xp|]. split; [exact parse_zm|]. split; [exact dir_xp|].
  exact (linear_output_content ramp_angles ramp_angles fresh_qpos beam_z 1 1 4
           "x+" "z-" 3%R (1/10)%R (roi_of 2 6 0 0) "x+" lambda5 [xp] [zm] xp 20
           parse_xp parse_zm dir_xp).
Defined.

(** X3 on element 20 of the output of four positions with 2 x 2 pixels. *)
Lemma area_output_content_witness :
  parse_axes "x+" 1 = Some [xp] /\
  parse_axes "z-" 1 = Some [zm] /\
  parse_pair "x+" 0 = Some xp /\
  parse_pair "z-" 0 = Some zm /\
  qpos_after (area_call "x+" "z-" "x+" "z-" (roi_of 0 2 0 2)) 20
  = (if in_region 20
          (output_size 4
             (Z.max 0 (roi_of 0 2 0 2 1 - roi_of 0 2 0 2 0)
              * Z.max 0 (roi_of 0 2 0 2 3 - roi_of 0 2 0 2 2)))
     then
       let i := fst (fst (area_unslot (roi_of 0 2 0 2) (20 / 3))) in
       let p1 := snd (fst (area_unslot (roi_of 0 2 0 2) (20 / 3))) in
       let p2 := snd (area_unslot (roi_of 0 2 0 2) (20 / 3)) in
       vget (Q_pixel (compose_circles [xp] ramp_angles 1 i)
               (compose_circles [zm] ramp_angles 1 i)
               (pixel_direction_area (pixel_step xp (1/10)%R)
                  (pixel_step zm (1/5)%R) beam_z 1%R 1%R p1 p2)
               (beam_direction beam_z) lambda5) (20 mod 3)
     else fresh_qpos 20).
Proof.
  split; [exact parse_xp|]. split; [exact parse_zm|]. split; [exact dir_xp|].
  split; [exact dir_zm|].
  exact (area_output_content ramp_angles ramp_angles fresh_qpos beam_z 1 1 4
           "x+" "z-" 1%R 1%R (1/10)%R (1/5)%R (roi_of 0 2 0 2) "x+" "z-" lambda5
           [xp] [zm] xp zm 20 parse_xp parse_zm dir_xp dir_zm).
Defined.

Lemma row2_agrees :
  forall j, (0 <= j < 1) ->
  ramp_angles (1 * 2 + j) = row2_angles (1 * 2 + j).
Proof.
  intros j Hj. assert (j = 0) as -> by lia. reflexivity.
Qed.

(** X4 on position 2 of four positions, between the angle arrays
    [ramp_angles] and [row2_angles]. *)
Lemma position_reads_its_row_only_witness :
  parse_axes "x+" 1 = Some [xp] /\
  parse_axes "z-" 1 = Some [zm] /\
  (0 <= 2 < 4) /\
  (forall j, (0 <= j < 1) ->
     ramp_angles (1 * 2 + j) = row2_angles (1 * 2 + j)) /\
  read3 (qpos_after (ang2q_conversion ramp_angles ramp_angles fresh_qpos
                       beam_z 1 1 4 "x+" "z-" lambda5)) (3 * 2)
  = read3 (qpos_after (ang2q_conversion row2_angles row2_angles other_qpos
                         beam_z 1 1 4 "x+" "z-" lambda5)) (3 * 2).
Proof.
  assert (Hi : (0 <= 2 < 4)) by lia.
  split; [exact parse_xp|]. split; [exact parse_zm|]. split; [exact Hi|].
  split; [exact row2_agrees|].
  exact (proj1 (position_reads_its_row_only ramp_angles row2_angles
                  ramp_angles row2_angles fresh_qpos other_qpos beam_z 1 1 4
                  "x+" "z-" 3%R 1%R (1/10)%R (1/5)%R (roi_of 0 2 0 2) "x+" "z-"
                  lambda5 [xp] [zm] 2 parse_xp parse_zm Hi row2_agrees
                  row2_agrees)).
Defined.

(** X5 on pixel 4, which lies in the regions [2,6) and [0,5). *)
Lemma roi_only_selects_pixels_witness :
  parse_axes "x+" 1 = Some [xp] /\
  parse_axes "z-" 1 = Some [zm] /\
  parse_pair "x+" 0 = Some xp /\
  (0 <= 1 < 4) /\
  (roi_of 2 6 0 2 0 <= 4 < roi_of 2 6 0 2 1) /\
  (roi_of 0 5 0 2 0 <= 4 < roi_of 0 5 0 2 1) /\
  read3 (qpos_after (linear_call "x+" "z-" "x+" (roi_of 2 6 0 2)))
        (3 * linear_slot (roi_of 2 6 0 2) 1 4)
  = read3 (qpos_after (linear_call "x+" "z-" "x+" (roi_of 0 5 0 2)))
          (3 * linear_slot (roi_of 0 5 0 2) 1 4).
Proof.
  assert (Hi : (0 <= 1 < 4)) by lia.
  assert (Hp : (roi_of 2 6 0 2 0 <= 4 < roi_of 2 6 0 2 1)) by (cbn; lia).
  assert (Hp' : (roi_of 0 5 0 2 0 <= 4 < roi_of 0 5 0 2 1)) by (cbn; lia).
  split; [exact parse_xp|]. split; [exact parse_zm|]. split; [exact dir_xp|].
  split; [exact Hi|]. split; [exact Hp|]. split; [exact Hp'|].
  exact (proj1 (roi_only_selects_pixels ramp_angles ramp_angles fresh_qpos
                  fresh_qpos beam_z 1 1 4 "x+" "z-" 3%R 1%R (1/10)%R (1/5)%R
                  (roi_of 2 6 0 2) (roi_of 0 5 0 2) "x+" "z-" lambda5
                  [xp] [zm] xp 1 parse_xp parse_zm dir_xp Hi) 4 Hp Hp').
Defined.

(** X6 on calls for 0 positions. *)
Lemma no_position_no_output_witness :
  (0 <= 0) /\
  qpos_after (ang2q_conversion ramp_angles ramp_angles fresh_qpos beam_z 1 1 0
                "x+" "z-" lambda5) = fresh_qpos /\
  qpos_after (ang2q_conversion_linear ramp_angles ramp_angles fresh_qpos
                beam_z 1 1 0 "x+" "z-" 3%R (1/10)%R (roi_of 2 6 0 2) "x+" lambda5)
  = fresh_qpos /\
  qpos_after (ang2q_conversion_area ramp_angles ramp_angles fresh_qpos beam_z
                1 1 0 "x+" "z-" 3%R 1%R (1/10)%R (1/5)%R (roi_of 2 6 0 2) "x+" "z-"
                lambda5)
  = fresh_qpos.
Proof.
  assert (H0 : (0 <= 0)) by lia.
  split; [exact H0|].
  exact (no_position_no_output ramp_angles ramp_angles fresh_qpos beam_z 1 1 0
           "x+" "z-" 3%R 1%R (1/10)%R (1/5)%R (roi_of 2 6 0 2) "x+" "z-" lambda5 H0).
Defined.

(** X7 on the axis string "q+". *)
Lemma failed_point_call_leaves_ri_witness :
  ret (point_call "q+" "x+") <> 0 /\
  beam_after (point_call "q+" "x+") = beam_z.
Proof.
  assert (Hret : ret (point_call "q+" "x+") <> 0) by discriminate.
  split; [exact Hret|].
  exact (failed_point_call_leaves_ri ramp_angles ramp_angles fresh_qpos beam_z
           1 1 4 "q+" "x+" lambda5 Hret).
Defined.

(** X8 on the string "x+q-y+": the second of three pairs is malformed. *)
Lemma axes_stop_witness :
  (0 <= 1 < 3) /\
  parse_axes "x+q-y+" 1 = Some [xp] /\
  parse_pair "x+q-y+" 1 = None /\
  determine_axes_directions (D := R) "x+q-y+" 3
  = (switch_error (char_at "x+q-y+" (2 * 1)), map generator [xp]).
Proof.
  assert (Hi : (0 <= 1 < 3)) by lia.
  assert (Hok : parse_axes "x+q-y+" 1 = Some [xp]) by reflexivity.
  assert (Hbad : parse_pair "x+q-y+" 1 = None) by reflexivity.
  split; [exact Hi|]. split; [exact Hok|]. split; [exact Hbad|].
  exact (axes_stop_at_first_malformed_pair (D := R) "x+q-y+" 3 1 [xp]
           Hi Hok Hbad).
Defined.


(** X10 on the string "x+Y-" followed by "z+??". *)
Lemma axes_ignore_trailing_witness :
  (2 * 2 <= Z.of_nat (String.length "x+Y-")) /\
  determine_axes_directions (D := R) ("x+Y-" ++ "z+??") 2
  = determine_axes_directions (D := R) "x+Y-" 2.
Proof.
  assert (Hlen : (2 * 2 <= Z.of_nat (String.length "x+Y-"))) by (cbn; lia).
  split; [exact Hlen|].
  exact (axes_ignore_trailing_characters (D := R) "x+Y-" "z+??" 2 Hlen).
Defined.

(** X11 on the directions "q?" and "y*". *)
Lemma detector_pixel_failure_codes_witness :
  parse_letter (char_at "q?" 0) = None /\
  determine_detector_pixel "q?" 2%R = (2, Vec 0%R 0%R 0%R) /\
  parse_letter (char_at "y*" 0) <> None /\
  parse_sign (char_at "y*" 1) = None /\
  determine_detector_pixel "y*" 2%R = (1, Vec 0%R 0%R 0%R).
Proof.
  assert (Hq : parse_letter (char_at "q?" 0) = None) by reflexivity.
  assert (Hy : parse_letter (char_at "y*" 0) <> None) by discriminate.
  assert (Hs : parse_sign (char_at "y*" 1) = None) by reflexivity.
  split; [exact Hq|].
  split; [exact (proj1 (detector_pixel_failure_codes "q?" 2%R) Hq)|].
  split; [exact Hy|]. split; [exact Hs|].
  exact (proj2 (detector_pixel_failure_codes "y*" 2%R) Hy Hs).
Defined.

Lemma lambda5_pos : (0 < lambda5)%R.
Proof. unfold lambda5. pose proof PI_RGT_0. lra. Qed.

Lemma beam_z_norm : R_norm beam_z <> 0%R.
Proof.
  unfold R_norm, beam_z. cbn [v0 v1 v2].
  replace (0 * 0 + 0 * 0 + 1 * 1)%R with 1%R by ring. rewrite sqrt_1. lra.
Qed.

(** X12 on two successive calls for four positions. *)
Lemma repeated_point_call_witness :
  (0 < lambda5)%R /\
  R_norm beam_z <> 0%R /\
  ret (ang2q_conversion ramp_angles ramp_angles
         (qpos_after (point_call "x+" "z-")) (beam_after (point_call "x+" "z-"))
         1 1 4 "x+" "z-" lambda5)
  = ret (point_call "x+" "z-") /\
  beam_after (ang2q_conversion ramp_angles ramp_angles
                (qpos_after (point_call "x+" "z-"))
                (beam_after (point_call "x+" "z-")) 1 1 4 "x+" "z-" lambda5)
  = beam_after (point_call "x+" "z-") /\
  forall k,
    qpos_after (ang2q_conversion ramp_angles ramp_angles
                  (qpos_after (point_call "x+" "z-"))
                  (beam_after (point_call "x+" "z-")) 1 1 4 "x+" "z-" lambda5) k
    = qpos_after (point_call "x+" "z-") k.
Proof.
  split; [exact lambda5_pos|]. split; [exact beam_z_norm|].
  exact (repeated_point_call_is_stable ramp_angles ramp_angles fresh_qpos
           beam_z 1 1 4 "x+" "z-" lambda5 lambda5_pos beam_z_norm).
Defined.

(** X13 on the centre channel 3 of the channels 2..5. *)
Lemma centre_channel_witness :
  parse_axes "x+" 1 = Some [xp] /\
  parse_axes "z-" 1 = Some [zm] /\
  parse_pair "x+" 0 = Some xp /\
  (0 <= 1 < 4) /\
  (roi_of 2 6 0 0 0 <= 3 < roi_of 2 6 0 0 1) /\
  read3 (qpos_after (linear_call "x+" "z-" "x+" (roi_of 2 6 0 0)))
        (3 * linear_slot (roi_of 2 6 0 0) 1 3)
  = read3 (qpos_after (point_call "x+" "z-")) (3 * 1).
Proof.
  assert (Hi : (0 <= 1 < 4)) by lia.
  assert (Hp : (roi_of 2 6 0 0 0 <= 3 < roi_of 2 6 0 0 1)) by (cbn; lia).
  split; [exact parse_xp|]. split; [exact parse_zm|]. split; [exact dir_xp|].
  split; [exact Hi|]. split; [exact Hp|].
  exact (centre_channel_is_point_detector ramp_angles ramp_angles fresh_qpos
           fresh_qpos beam_z 1 1 4 "x+" "z-" (1/10)%R (roi_of 2 6 0 0) "x+"
           lambda5 [xp] [zm] xp 1 3 parse_xp parse_zm dir_xp Hi Hp).
Defined.

(** X14 on the row of the centre channel 1 of a 2 x 2 detector. *)
Lemma area_row_witness :
  parse_axes "x+" 1 = Some [xp] /\
  parse_axes "z-" 1 = Some [zm] /\
  parse_pair "x+" 0 = Some xp /\
  parse_pair "z-" 0 = Some zm /\
  (0 <= 2 < 4) /\
  (roi_of 0 2 0 2 0 <= 0 < roi_of 0 2 0 2 1) /\
  (roi_of 0 2 0 2 2 <= 1 < roi_of 0 2 0 2 3) /\
  1%R = IZR 1 /\
  read3 (qpos_after (area_call "x+" "z-" "x+" "z-" (roi_of 0 2 0 2)))
        (3 * area_slot (roi_of 0 2 0 2) 2 0 1)
  = read3 (qpos_after
             (ang2q_conversion_linear ramp_angles ramp_angles fresh_qpos
                beam_z 1 1 4 "x+" "z-" 1%R (1/10)%R (roi_of 0 2 0 2) "x+" lambda5))
          (3 * linear_slot (roi_of 0 2 0 2) 2 0).
Proof.
  assert (Hi : (0 <= 2 < 4)) by lia.
  assert (Hp1 : (roi_of 0 2 0 2 0 <= 0 < roi_of 0 2 0 2 1)) by (cbn; lia).
  assert (Hp2 : (roi_of 0 2 0 2 2 <= 1 < roi_of 0 2 0 2 3)) by (cbn; lia).
  assert (Hc : 1%R = IZR 1) by reflexivity.
  split; [exact parse_xp|]. split; [exact parse_zm|]. split; [exact dir_xp|].
  split; [exact dir_zm|]. split; [exact Hi|]. split; [exact Hp1|].
  split; [exact Hp2|]. split; [exact Hc|].
  exact (proj1 (area_row_is_linear_detector ramp_angles ramp_angles fresh_qpos
                  fresh_qpos beam_z 1 1 4 "x+" "z-" 1%R 1%R (1/10)%R (1/5)%R
                  (roi_of 0 2 0 2) "x+" "z-" lambda5 [xp] [zm] xp zm 2 0 1
                  parse_xp parse_zm dir_xp dir_zm Hi Hp1 Hp2) Hc).
Defined.

(** X16 on three failing calls and a successful one. *)
Lemma linear_stdout_witness :
  fst (determine_axes_directions (D := R) "q+" 1) <> 0 /\
  fst (determine_axes_directions (D := R) "x+" 1) = 0 /\
  fst (determine_detector_pixel "y?" (1/10)%R) <> 0 /\
  ang2q_conversion_linear_stdout 1 1 "q+" "x+" (1/10)%R "y?"
  = ["axis determination: no valid axis direction found!";
     "sample axes determination failed"] /\
  ang2q_conversion_linear_stdout 1 1 "x+" "q+" (1/10)%R "y?"
  = ["axis determination: no valid axis direction found!";
     "detector axes determination failed"] /\
  ang2q_conversion_linear_stdout 1 1 "x+" "x+" (1/10)%R "y?"
  = ["detector determination: no valid direction sign given";
     "detector direction determination failed"] /\
  (ret (linear_call "x+" "x+" "x+" (roi_of 2 6 0 0)) = 0 <->
   ang2q_conversion_linear_stdout 1 1 "x+" "x+" (1/10)%R "x+" = []).
Proof.
  assert (Hq : fst (determine_axes_directions (D := R) "q+" 1) <> 0)
    by discriminate.
  assert (Hx : fst (determine_axes_directions (D := R) "x+" 1) = 0)
    by reflexivity.
  assert (Hy : fst (determine_detector_pixel "y?" (1/10)%R) <> 0)
    by discriminate.
  split; [exact Hq|]. split; [exact Hx|]. split; [exact Hy|].
  split; [|split; [|split]].
  - exact (proj1 (proj2 (linear_stdout_names_the_failure ramp_angles
             ramp_angles fresh_qpos beam_z 1 1 4 "q+" "x+" 3%R (1/10)%R
             (roi_of 2 6 0 0) "y?" lambda5)) Hq).
  - exact (proj1 (proj2 (proj2 (linear_stdout_names_the_failure ramp_angles
             ramp_angles fresh_qpos beam_z 1 1 4 "x+" "q+" 3%R (1/10)%R
             (roi_of 2 6 0 0) "y?" lambda5))) Hx Hq).
  - exact (proj2 (proj2 (proj2 (linear_stdout_names_the_failure ramp_angles
             ramp_angles fresh_qpos beam_z 1 1 4 "x+" "x+" 3%R (1/10)%R
             (roi_of 2 6 0 0) "y?" lambda5))) Hx Hx Hy).
  - exact (proj1 (linear_stdout_names_the_failure ramp_angles
             ramp_angles fresh_qpos beam_z 1 1 4 "x+" "x+" 3%R (1/10)%R
             (roi_of 2 6 0 0) "x+" lambda5)).
Defined.

(** X17 on a successful point-detector call, on one that fails on its
    detector string, and on an area-detector call that fails on its second
    direction string. *)
Lemma silent_exactly_on_success_witness :
  fst (determine_axes_directions (D := R) "x+" 1) = 0 /\
  fst (determine_axes_directions (D := R) "q-" 1) <> 0 /\
  fst (determine_detector_pixel "x+" (1/10)%R) = 0 /\
  fst (determine_detector_pixel "z?" (1/5)%R) <> 0 /\
  (ret (point_call "x+" "z-") = 0 <->
   ang2q_conversion_stdout (D := R) 1 1 "x+" "z-" = []) /\
  ang2q_conversion_stdout (D := R) 1 1 "x+" "q-"
  = ["axis determination: no valid axis direction found!";
     "detector axes determination failed"] /\
  ang2q_conversion_area_stdout 1 1 "x+" "x+" (1/10)%R (1/5)%R "x+" "z?"
  = ["detector determination: no valid direction sign given";
     "detector direction determination failed"].
Proof.
  assert (Hx : fst (determine_axes_directions (D := R) "x+" 1) = 0)
    by reflexivity.
  assert (Hq : fst (determine_axes_directions (D := R) "q-" 1) <> 0)
    by discriminate.
  assert (Hp : fst (determine_detector_pixel "x+" (1/10)%R) = 0)
    by reflexivity.
  assert (Hz : fst (determine_detector_pixel "z?" (1/5)%R) <> 0)
    by discriminate.
  split; [exact Hx|]. split; [exact Hq|]. split; [exact Hp|].
  split; [exact Hz|].
  split; [|split].
  - exact (proj1 (proj1 (silent_exactly_on_success ramp_angles ramp_angles
             fresh_qpos beam_z 1 1 4 "x+" "z-" 1%R 1%R (1/10)%R (1/5)%R
             (roi_of 0 2 0 2) "x+" "z-" lambda5))).
  - exact (proj2 (proj2 (proj2 (proj1 (silent_exactly_on_success ramp_angles
             ramp_angles fresh_qpos beam_z 1 1 4 "x+" "q-" 1%R 1%R (1/10)%R
             (1/5)%R (roi_of 0 2 0 2) "x+" "z-" lambda5)))) Hx Hq).
  - exact (proj2 (proj2 (proj2 (proj2 (proj2 (proj2
             (silent_exactly_on_success ramp_angles ramp_angles fresh_qpos
                beam_z 1 1 4 "x+" "x+" 1%R 1%R (1/10)%R (1/5)%R
                (roi_of 0 2 0 2) "x+" "z?" lambda5)))))) Hx Hx Hp Hz).
Defined.

(** X18 on the beam direction (0,0,1) multiplied by 2. *)
Lemma ri_length_witness :
  (0 < 2)%R /\
  parse_axes "x+" 1 <> None /\
  parse_axes "z-" 1 <> None /\
  beam_after (ang2q_conversion ramp_angles ramp_angles fresh_qpos
                (vecmul beam_z 2%R) 1 1 4 "x+" "z-" lambda5)
  = beam_after (point_call "x+" "z-") /\
  forall k,
    qpos_after (ang2q_conversion ramp_angles ramp_angles fresh_qpos
                  (vecmul beam_z 2%R) 1 1 4 "x+" "z-" lambda5) k
    = qpos_after (point_call "x+" "z-") k.
Proof.
  assert (Ht : (0 < 2)%R) by lra.
  assert (Hs : parse_axes "x+" 1 <> None) by discriminate.
  assert (Hd : parse_axes "z-" 1 <> None) by discriminate.
  split; [exact Ht|]. split; [exact Hs|]. split; [exact Hd|].
  exact (ri_length_is_irrelevant ramp_angles ramp_angles fresh_qpos beam_z
           1 1 4 "x+" "z-" lambda5 2%R Ht Hs Hd).
Defined.

(** X19 on lengths given in a unit 1000 times smaller. *)
Lemma length_unit_witness :
  (0 < 1000)%R /\
  parse_axes "x+" 1 <> None /\
  parse_axes "z-" 1 <> None /\
  parse_pair "x+" 0 <> None /\
  parse_pair "z-" 0 <> None /\
  (forall k,
     qpos_after (ang2q_conversion_linear ramp_angles ramp_angles fresh_qpos
                   (vecmul beam_z 1000%R) 1 1 4 "x+" "z-" 3%R
                   (1/10 * 1000)%R (roi_of 2 6 0 2) "x+" lambda5) k
     = qpos_after (linear_call "x+" "z-" "x+" (roi_of 2 6 0 2)) k) /\
  (forall k,
     qpos_after (ang2q_conversion_area ramp_angles ramp_angles fresh_qpos
                   (vecmul beam_z 1000%R) 1 1 4 "x+" "z-" 1%R 1%R
                   (1/10 * 1000)%R (1/5 * 1000)%R (roi_of 2 6 0 2) "x+" "z-"
                   lambda5) k
     = qpos_after (area_call "x+" "z-" "x+" "z-" (roi_of 2 6 0 2)) k).
Proof.
  assert (Ht : (0 < 1000)%R) by lra.
  assert (Hs : parse_axes "x+" 1 <> None) by discriminate.
  assert (Hd : parse_axes "z-" 1 <> None) by discriminate.
  assert (H1 : parse_pair "x+" 0 <> None) by discriminate.
  assert (H2 : parse_pair "z-" 0 <> None) by discriminate.
  split; [exact Ht|]. split; [exact Hs|]. split; [exact Hd|].
  split; [exact H1|]. split; [exact H2|].
  split.
  - exact (proj1 (length_unit_is_irrelevant ramp_angles ramp_angles fresh_qpos
                    beam_z 1 1 4 "x+" "z-" 3%R 1%R (1/10)%R (1/5)%R
                    (roi_of 2 6 0 2) "x+" "z-" lambda5 1000%R Ht Hs Hd H1)).
  - exact (proj2 (length_unit_is_irrelevant ramp_angles ramp_angles fresh_qpos
                    beam_z 1 1 4 "x+" "z-" 1%R 1%R (1/10)%R (1/5)%R
                    (roi_of 2 6 0 2) "x+" "z-" lambda5 1000%R Ht Hs Hd H1) H2).
Defined.

End MoreScenarios.
